(** * QueryLens: the crop-region editor and the application around it

    A shallow embedding of [src/index.tsx].  The file holds the application
    twice (lines 1-720 and 722-1645); the second copy adds the API-key
    dialog and the retry button to the first.  Class [CropManager] is the
    same text in both (lines 265-477 and 1089-1301) and is embedded first,
    with the properties the specification states about it; the classes
    around it ([GeminiService], [UIManager], [CameraManager], [App]) follow,
    from the second copy.

    Conventions of the embedding.
    - A JavaScript [number] is an exact rational ([Q]): rounding, [NaN] and
      the infinities of IEEE doubles are not modelled.  Every concrete value
      used below is a small integer or a dyadic rational, on which double
      arithmetic is exact, so the models agree with the program there.
    - A method that mutates [this] is a function from the state before to the
      state after.  The canvas element is shared between the editor and the
      host application, so it is part of the state.
    - Listener registration on DOM nodes is a finite set of
      (node, event type, handler) triples: registering twice is registering
      once, as in the DOM.
    - An [async] method is one function for each stretch between its
      [await]s; what the awaited promise settles to is an argument of the
      function for the stretch after it. *)

From Stdlib Require Import QArith Qminmax Qround Qabs Lqa ZArith String Ascii Bool.
From stdpp Require Import base decidable countable gmap list strings.

Set Warnings "-clear-no-such-hyp".

Local Open Scope Z_scope.
Local Open Scope Q_scope.

(** * Part I: the model *)

(** ** Numbers *)

(** [a < b] and [a > b] on numbers, as tests. *)
Definition Qltb (a b : Q) : bool :=
  match a ?= b with Lt => true | _ => false end.

Definition Qgtb (a b : Q) : bool := Qltb b a.

(** [Math.max], [Math.min] and [Math.abs]. *)
Definition Math_max (a b : Q) : Q := Qmax a b.

Definition Math_min (a b : Q) : Q := Qmin a b.

Definition Math_abs (a : Q) : Q := Qabs a.

(** Whether a number is an integer. *)
Definition isInteger (q : Q) : bool := (Z.rem (Qnum q) (Zpos (Qden q)) =? 0)%Z.

(** Conversion of a number to a Web IDL [unsigned long], the type of the
    [width] and [height] attributes of a canvas element: the fraction is
    dropped (towards zero), the result is taken modulo 2^32. *)
Definition toUnsignedLong (q : Q) : Z :=
  (Z.quot (Qnum q) (Zpos (Qden q)) mod 2 ^ 32)%Z.

(** ** Strings *)

(** [s.includes(needle)]. *)
Fixpoint includes (s needle : string) : bool :=
  String.prefix needle s
  || match s with
     | EmptyString => false
     | String _ rest => includes rest needle
     end.

(** ** Geometry *)

(** [{ x, y }]: a pointer position in surface pixels. *)
Module Point.
Record t : Type := mk { x : Q; y : Q }.
End Point.

(** [{ x, y, width, height }]: the crop rectangle, in surface pixels. *)
Module Rect.
Record t : Type := mk { x : Q; y : Q; width : Q; height : Q }.

(** Equality of rectangles as numbers ([1/2] and [2/4] are one number). *)
Definition equiv (r1 r2 : t) : Prop :=
  x r1 == x r2 /\ y r1 == y r2 /\ width r1 == width r2 /\ height r1 == height r2.

Definition set_x (v : Q) (r : t) : t := mk v (y r) (width r) (height r).

Definition set_y (v : Q) (r : t) : t := mk (x r) v (width r) (height r).

Definition set_width (v : Q) (r : t) : t := mk (x r) (y r) v (height r).

Definition set_height (v : Q) (r : t) : t := mk (x r) (y r) (width r) v.
End Rect.

(** ** The canvas element *)

Record Pixel : Type := rgba { red : Z; green : Z; blue : Z; alpha : Z }.

Definition transparent : Pixel := rgba 0 0 0 0.

Module Canvas.
(** The [width] and [height] attributes and the bitmap, addressed by column
    and row.  Only the pixels inside the bounds are part of the surface. *)
Record t : Type := mk { width : Z; height : Z; bitmap : Z -> Z -> Pixel }.

Definition inside (c : t) (i j : Z) : bool :=
  ((0 <=? i) && (i <? width c) && (0 <=? j) && (j <? height c))%Z.

Definition getPixel (c : t) (i j : Z) : Pixel :=
  if inside c i j then bitmap c i j else transparent.

(** [document.createElement('canvas')]: 300 by 150, transparent. *)
Definition create : t := mk 300 150 (fun _ _ => transparent).

(** [c.width = v] and [c.height = v]: the value is converted to an
    [unsigned long] and the bitmap is cleared. *)
Definition set_width (v : Q) (c : t) : t :=
  mk (toUnsignedLong v) (height c) (fun _ _ => transparent).

Definition set_height (v : Q) (c : t) : t :=
  mk (width c) (toUnsignedLong v) (fun _ _ => transparent).
End Canvas.

(** ** Layout: what [getBoundingClientRect] answers *)

Module DOMRect.
Record t : Type := mk { left : Q; top : Q; width : Q; height : Q }.
End DOMRect.

Record Layout : Type := mkLayout {
  canvasRect : DOMRect.t;      (* this.canvasEl.getBoundingClientRect() *)
  containerRect : DOMRect.t    (* this.canvasEl.parentElement.getBoundingClientRect() *)
}.

(** ** Pointer events *)

(** What the pointer hit: [e.target], as far as the editor looks at it. *)
Inductive HitTarget : Type :=
| Elsewhere                                   (* outside the canvas container *)
| InContainer                                 (* in the container, not in #crop-box *)
| OnCropBox                                   (* #crop-box itself *)
| OnCropHandle (dataHandle : option string).  (* a .crop-handle child; dataset.handle *)

(** [target.closest('#crop-box')] is not null. *)
Definition closestCropBox (t : HitTarget) : bool :=
  match t with
  | OnCropBox | OnCropHandle _ => true
  | Elsewhere | InContainer => false
  end.

Record PointerEvent : Type := mkPointerEvent {
  clientX : Q;
  clientY : Q;
  target : HitTarget
}.

(** ** Event listeners *)

Inductive DomNode : Type := Window | Container | CropBox.

Inductive EventType : Type := pointerdown | pointermove | pointerup | pointercancel.

Inductive Handler : Type :=
| DrawStart | ManipulateStart | DrawOrManipulateMove | DrawOrManipulateEnd.

#[global] Instance DomNode_eq_dec : EqDecision DomNode.
Proof. solve_decision. Defined.

#[global] Instance EventType_eq_dec : EqDecision EventType.
Proof. solve_decision. Defined.

#[global] Instance Handler_eq_dec : EqDecision Handler.
Proof. solve_decision. Defined.

#[global] Instance DomNode_countable : Countable DomNode.
Proof.
  refine (inj_countable'
            (fun n => match n with Window => 0 | Container => 1 | CropBox => 2 end)%nat
            (fun k => match k with 0 => Window | 1 => Container | _ => CropBox end)%nat _).
  intros []; reflexivity.
Defined.

#[global] Instance EventType_countable : Countable EventType.
Proof.
  refine (inj_countable'
            (fun t => match t with
                      | pointerdown => 0 | pointermove => 1
                      | pointerup => 2 | pointercancel => 3 end)%nat
            (fun k => match k with
                      | 0 => pointerdown | 1 => pointermove
                      | 2 => pointerup | _ => pointercancel end)%nat _).
  intros []; reflexivity.
Defined.

#[global] Instance Handler_countable : Countable Handler.
Proof.
  refine (inj_countable'
            (fun h => match h with
                      | DrawStart => 0 | ManipulateStart => 1
                      | DrawOrManipulateMove => 2 | DrawOrManipulateEnd => 3 end)%nat
            (fun k => match k with
                      | 0 => DrawStart | 1 => ManipulateStart
                      | 2 => DrawOrManipulateMove | _ => DrawOrManipulateEnd end)%nat _).
  intros []; reflexivity.
Defined.

(** A registration: [node.addEventListener(type, handler)]. *)
Definition Listener : Type := DomNode * EventType * Handler.

Definition addEventListener (n : DomNode) (ty : EventType) (h : Handler)
  (ls : gset Listener) : gset Listener := ls ∪ {[ (n, ty, h) ]}.

Definition removeEventListener (n : DomNode) (ty : EventType) (h : Handler)
  (ls : gset Listener) : gset Listener := ls ∖ {[ (n, ty, h) ]}.

(** ** The editor's state *)

(** The overlay element [#crop-box]: its [hidden] class and the inline style
    [updateStyle] writes (all in CSS pixels). *)
Module CropBoxEl.
Record t : Type := mk {
  hidden : bool;
  translateX : Q;
  translateY : Q;
  styleWidth : Q;
  styleHeight : Q
}.

Definition set_hidden (b : bool) (el : t) : t :=
  mk b (translateX el) (translateY el) (styleWidth el) (styleHeight el).
End CropBoxEl.

(** The fields of [CropManager] (lines 266-275), and the listeners its
    handlers are registered under.  [activeHandle] is [None] for [null]. *)
Record CropManager : Type := mkCropManager {
  cropRect : Rect.t;
  activeHandle : option string;
  isManipulating : bool;
  isDrawing : bool;
  isCropDefined : bool;
  startPointer : Point.t;
  startCropRect : Rect.t;
  cropBoxEl : CropBoxEl.t;
  canvasEl : Canvas.t;
  listeners : gset Listener
}.

Definition set_cropRect (v : Rect.t) (s : CropManager) : CropManager :=
  mkCropManager v (activeHandle s) (isManipulating s) (isDrawing s) (isCropDefined s)
    (startPointer s) (startCropRect s) (cropBoxEl s) (canvasEl s) (listeners s).

Definition set_activeHandle (v : option string) (s : CropManager) : CropManager :=
  mkCropManager (cropRect s) v (isManipulating s) (isDrawing s) (isCropDefined s)
    (startPointer s) (startCropRect s) (cropBoxEl s) (canvasEl s) (listeners s).

Definition set_isManipulating (v : bool) (s : CropManager) : CropManager :=
  mkCropManager (cropRect s) (activeHandle s) v (isDrawing s) (isCropDefined s)
    (startPointer s) (startCropRect s) (cropBoxEl s) (canvasEl s) (listeners s).

Definition set_isDrawing (v : bool) (s : CropManager) : CropManager :=
  mkCropManager (cropRect s) (activeHandle s) (isManipulating s) v (isCropDefined s)
    (startPointer s) (startCropRect s) (cropBoxEl s) (canvasEl s) (listeners s).

Definition set_isCropDefined (v : bool) (s : CropManager) : CropManager :=
  mkCropManager (cropRect s) (activeHandle s) (isManipulating s) (isDrawing s) v
    (startPointer s) (startCropRect s) (cropBoxEl s) (canvasEl s) (listeners s).

Definition set_startPointer (v : Point.t) (s : CropManager) : CropManager :=
  mkCropManager (cropRect s) (activeHandle s) (isManipulating s) (isDrawing s)
    (isCropDefined s) v (startCropRect s) (cropBoxEl s) (canvasEl s) (listeners s).

Definition set_startCropRect (v : Rect.t) (s : CropManager) : CropManager :=
  mkCropManager (cropRect s) (activeHandle s) (isManipulating s) (isDrawing s)
    (isCropDefined s) (startPointer s) v (cropBoxEl s) (canvasEl s) (listeners s).

Definition set_cropBoxEl (v : CropBoxEl.t) (s : CropManager) : CropManager :=
  mkCropManager (cropRect s) (activeHandle s) (isManipulating s) (isDrawing s)
    (isCropDefined s) (startPointer s) (startCropRect s) v (canvasEl s) (listeners s).

Definition set_canvasEl (v : Canvas.t) (s : CropManager) : CropManager :=
  mkCropManager (cropRect s) (activeHandle s) (isManipulating s) (isDrawing s)
    (isCropDefined s) (startPointer s) (startCropRect s) (cropBoxEl s) v (listeners s).

Definition set_listeners (v : gset Listener) (s : CropManager) : CropManager :=
  mkCropManager (cropRect s) (activeHandle s) (isManipulating s) (isDrawing s)
    (isCropDefined s) (startPointer s) (startCropRect s) (cropBoxEl s) (canvasEl s) v.

(** The three window listeners of a gesture, added and removed together
    (lines 351-353, 367-369 and 432-434). *)
Definition addWindowListeners (ls : gset Listener) : gset Listener :=
  addEventListener Window pointercancel DrawOrManipulateEnd
    (addEventListener Window pointerup DrawOrManipulateEnd
       (addEventListener Window pointermove DrawOrManipulateMove ls)).

Definition removeWindowListeners (ls : gset Listener) : gset Listener :=
  removeEventListener Window pointercancel DrawOrManipulateEnd
    (removeEventListener Window pointerup DrawOrManipulateEnd
       (removeEventListener Window pointermove DrawOrManipulateMove ls)).

(** The constructor (lines 266-280): [new CropManager(cropBoxEl, canvasEl)]. *)
Definition new_CropManager (box : CropBoxEl.t) (canvas : Canvas.t) : CropManager :=
  mkCropManager (Rect.mk 0 0 0 0) None false false false
    (Point.mk 0 0) (Rect.mk 0 0 0 0) box canvas ∅.

(** ** The public methods that keep the canvas (lines 282-306) *)

Definition clear (s : CropManager) : CropManager :=
  let s := set_isCropDefined false s in
  let s := set_isDrawing false s in
  let s := set_isManipulating false s in
  let s := set_activeHandle None s in
  let s := set_cropBoxEl (CropBoxEl.set_hidden true (cropBoxEl s)) s in
  set_listeners (removeEventListener CropBox pointerdown ManipulateStart (listeners s)) s.

Definition activate (s : CropManager) : CropManager :=
  let s := clear s in
  set_listeners (addEventListener Container pointerdown DrawStart (listeners s)) s.

Definition deactivate (s : CropManager) : CropManager :=
  let s := clear s in
  let s := set_listeners
             (removeEventListener Container pointerdown DrawStart (listeners s)) s in
  set_listeners (removeWindowListeners (listeners s)) s.

Definition isCropped (s : CropManager) : bool := isCropDefined s.

(** ** Projection from the screen to the surface (lines 328-337)

    The function divides by the rendered width of the canvas.  For a
    rendered width of 0 the program gets [Infinity] or [NaN], which the
    number model does not have ([x / 0] is 0 in [Q]): the model is the
    program on layouts with a positive rendered width ([rendered] below). *)

Definition getNativePointerPosition (lay : Layout) (e : PointerEvent)
  (s : CropManager) : Point.t :=
  let canvasRect := canvasRect lay in
  let scale := inject_Z (Canvas.width (canvasEl s)) / DOMRect.width canvasRect in
  let x := (clientX e - DOMRect.left canvasRect) * scale in
  let y := (clientY e - DOMRect.top canvasRect) * scale in
  Point.mk (Math_max 0 (Math_min x (inject_Z (Canvas.width (canvasEl s)))))
           (Math_max 0 (Math_min y (inject_Z (Canvas.height (canvasEl s))))).

(** ** The constraint pass (lines 437-459)

    [constrainRect] is the body of [constrainCropBox], statement by
    statement, on the rectangle; [constrainCropBox] runs it on
    [this.cropRect] with the size of [this.canvasEl]. *)
Definition minSize : Q := 30.

Definition constrainRect (canvasWidth canvasHeight : Q) (r : Rect.t) : Rect.t :=
  (* if (x < 0) { width += x; x = 0; } *)
  let r := if Qltb (Rect.x r) 0
           then Rect.set_x 0 (Rect.set_width (Rect.width r + Rect.x r) r)
           else r in
  (* if (y < 0) { height += y; y = 0; } *)
  let r := if Qltb (Rect.y r) 0
           then Rect.set_y 0 (Rect.set_height (Rect.height r + Rect.y r) r)
           else r in
  (* if (x + width > canvasWidth) width = canvasWidth - x; *)
  let r := if Qgtb (Rect.x r + Rect.width r) canvasWidth
           then Rect.set_width (canvasWidth - Rect.x r) r
           else r in
  (* if (y + height > canvasHeight) height = canvasHeight - y; *)
  let r := if Qgtb (Rect.y r + Rect.height r) canvasHeight
           then Rect.set_height (canvasHeight - Rect.y r) r
           else r in
  (* width = Math.max(width, minSize); height = Math.max(height, minSize); *)
  let r := Rect.set_width (Math_max (Rect.width r) minSize) r in
  Rect.set_height (Math_max (Rect.height r) minSize) r.

Definition constrainCropBox (s : CropManager) : CropManager :=
  let canvasWidth := inject_Z (Canvas.width (canvasEl s)) in
  let canvasHeight := inject_Z (Canvas.height (canvasEl s)) in
  set_cropRect (constrainRect canvasWidth canvasHeight (cropRect s)) s.

(** ** Projection from the surface to the screen (lines 461-476) *)

Definition updateStyle (lay : Layout) (s : CropManager) : CropManager :=
  let canvasRect := canvasRect lay in
  let containerRect := containerRect lay in
  let canvasOffsetX := DOMRect.left canvasRect - DOMRect.left containerRect in
  let canvasOffsetY := DOMRect.top canvasRect - DOMRect.top containerRect in
  let scale := DOMRect.width canvasRect / inject_Z (Canvas.width (canvasEl s)) in
  let displayX := canvasOffsetX + Rect.x (cropRect s) * scale in
  let displayY := canvasOffsetY + Rect.y (cropRect s) * scale in
  set_cropBoxEl
    (CropBoxEl.mk (CropBoxEl.hidden (cropBoxEl s)) displayX displayY
       (Rect.width (cropRect s) * scale) (Rect.height (cropRect s) * scale)) s.

(** ** The pointer handlers (lines 339-435) *)

Definition onDrawStart (lay : Layout) (e : PointerEvent) (s : CropManager) : CropManager :=
  if closestCropBox (target e) then s
  else
    let s := clear s in
    let s := set_isDrawing true s in
    let s := set_startPointer (getNativePointerPosition lay e s) s in
    let s := set_cropRect
               (Rect.mk (Point.x (startPointer s)) (Point.y (startPointer s)) 0 0) s in
    set_listeners (addWindowListeners (listeners s)) s.

(** [target.classList.contains('crop-handle') ? target.dataset.handle : 'move'] *)
Definition handleOf (t : HitTarget) : option string :=
  match t with
  | OnCropHandle dataHandle => dataHandle
  | _ => Some "move"%string
  end.

Definition onManipulateStart (lay : Layout) (e : PointerEvent) (s : CropManager)
  : CropManager :=
  let s := set_isManipulating true s in
  let s := set_startPointer (getNativePointerPosition lay e s) s in
  let s := set_startCropRect (cropRect s) s in
  let s := set_activeHandle (handleOf (target e)) s in
  set_listeners (addWindowListeners (listeners s)) s.

(** Lines 387-390: the box spanned by the anchor and the current pointer. *)
Definition drawRect (startPointer currentPointer : Point.t) (deltaX deltaY : Q)
  (r : Rect.t) : Rect.t :=
  let r := Rect.set_x (if Qgtb deltaX 0 then Point.x startPointer
                       else Point.x currentPointer) r in
  let r := Rect.set_y (if Qgtb deltaY 0 then Point.y startPointer
                       else Point.y currentPointer) r in
  let r := Rect.set_width (Math_abs deltaX) r in
  Rect.set_height (Math_abs deltaY) r.

(** Lines 397-400: the [move] handle. *)
Definition moveRect (startCropRect : Rect.t) (nativeDx nativeDy : Q)
  (canvasWidth canvasHeight : Q) (r : Rect.t) : Rect.t :=
  let newX := Rect.x startCropRect + nativeDx in
  let newY := Rect.y startCropRect + nativeDy in
  let r := Rect.set_x (Math_max 0 (Math_min newX (canvasWidth - Rect.width r))) r in
  Rect.set_y (Math_max 0 (Math_min newY (canvasHeight - Rect.height r))) r.

(** Lines 402-411: the resize handles.  The four tests are independent
    [if]s, each on one letter of the handle's name. *)
Definition resizeRect (handle : string) (startCropRect : Rect.t)
  (nativeDx nativeDy : Q) (r : Rect.t) : Rect.t :=
  let r := if includes handle "e"
           then Rect.set_width (Rect.width startCropRect + nativeDx) r
           else r in
  let r := if includes handle "w"
           then Rect.set_x (Rect.x startCropRect + nativeDx)
                  (Rect.set_width (Rect.width startCropRect - nativeDx) r)
           else r in
  let r := if includes handle "s"
           then Rect.set_height (Rect.height startCropRect + nativeDy) r
           else r in
  if includes handle "n"
  then Rect.set_y (Rect.y startCropRect + nativeDy)
         (Rect.set_height (Rect.height startCropRect - nativeDy) r)
  else r.

(** A string is truthy unless it is empty. *)
Definition truthy (h : string) : bool := negb (String.eqb h "").

Definition onDrawOrManipulateMove (lay : Layout) (e : PointerEvent) (s : CropManager)
  : CropManager :=
  let currentPointer := getNativePointerPosition lay e s in
  let s :=
    if isDrawing s then
      let deltaX := Point.x currentPointer - Point.x (startPointer s) in
      let deltaY := Point.y currentPointer - Point.y (startPointer s) in
      let s :=
        if negb (isCropDefined s)
           && (Qgtb (Math_abs deltaX) 5 || Qgtb (Math_abs deltaY) 5)
        then
          let s := set_isCropDefined true s in
          let s := set_cropBoxEl (CropBoxEl.set_hidden false (cropBoxEl s)) s in
          set_listeners
            (addEventListener CropBox pointerdown ManipulateStart (listeners s)) s
        else s in
      if isCropDefined s
      then set_cropRect (drawRect (startPointer s) currentPointer deltaX deltaY
                           (cropRect s)) s
      else s
    else if isManipulating s then
      let nativeDx := Point.x currentPointer - Point.x (startPointer s) in
      let nativeDy := Point.y currentPointer - Point.y (startPointer s) in
      match activeHandle s with
      | Some handle =>
          if String.eqb handle "move"
          then set_cropRect
                 (moveRect (startCropRect s) nativeDx nativeDy
                    (inject_Z (Canvas.width (canvasEl s)))
                    (inject_Z (Canvas.height (canvasEl s))) (cropRect s)) s
          else if truthy handle
          then set_cropRect
                 (resizeRect handle (startCropRect s) nativeDx nativeDy (cropRect s)) s
          else s
      | None => s
      end
    else s in
  if isCropDefined s then updateStyle lay (constrainCropBox s) else s.

Definition onDrawOrManipulateEnd (e : PointerEvent) (s : CropManager) : CropManager :=
  let s := if isDrawing s && negb (isCropDefined s) then clear s else s in
  let s := set_isDrawing false s in
  let s := set_isManipulating false s in
  let s := set_activeHandle None s in
  set_listeners (removeWindowListeners (listeners s)) s.

(** ** Committing the crop (lines 308-326) *)

Section Commit.

(** What the browser's image smoothing paints at a destination pixel when
    [drawImage] has to resample, that is when the source and destination
    rectangles are not the same whole-pixel size on whole-pixel positions.
    The result depends on the browser, so it is a parameter here. *)
Variable resample :
  Canvas.t -> Q -> Q -> Q -> Q -> Q -> Q -> Q -> Q -> Canvas.t -> Z -> Z -> Pixel.

(** [dst.getContext('2d').drawImage(src, sx, sy, sw, sh, dx, dy, dw, dh)],
    for a destination that was just cleared (the only case in the program, so
    that compositing keeps the source pixel as it is).  A zero-sized source
    paints nothing; with whole-pixel rectangles of equal size each
    destination pixel of the rectangle takes the source pixel at the same
    offset, where the source has one; anything else is resampled. *)
Definition drawImage (src : Canvas.t) (sx sy sw sh dx dy dw dh : Q) (dst : Canvas.t)
  : Canvas.t :=
  if Qeq_bool sw 0 || Qeq_bool sh 0 then dst
  else if isInteger sx && isInteger sy && isInteger sw && isInteger sh
          && isInteger dx && isInteger dy
          && Qeq_bool sw dw && Qeq_bool sh dh && Qltb 0 sw && Qltb 0 sh
  then
    Canvas.mk (Canvas.width dst) (Canvas.height dst)
      (fun i j =>
         let si := (i - Qfloor dx + Qfloor sx)%Z in
         let sj := (j - Qfloor dy + Qfloor sy)%Z in
         if (Qfloor dx <=? i)%Z && (i <? Qfloor dx + Qfloor dw)%Z
            && (Qfloor dy <=? j)%Z && (j <? Qfloor dy + Qfloor dh)%Z
            && Canvas.inside src si sj
         then Canvas.bitmap src si sj
         else Canvas.bitmap dst i j)
  else
    Canvas.mk (Canvas.width dst) (Canvas.height dst)
      (resample src sx sy sw sh dx dy dw dh dst).

(** [drawImage(src, dx, dy)]: the whole source, unscaled. *)
Definition drawImage3 (src : Canvas.t) (dx dy : Q) (dst : Canvas.t) : Canvas.t :=
  drawImage src 0 0 (inject_Z (Canvas.width src)) (inject_Z (Canvas.height src))
    dx dy (inject_Z (Canvas.width src)) (inject_Z (Canvas.height src)) dst.

Definition applyCropToCanvas (s : CropManager) : CropManager :=
  if negb (isCropped s) then s
  else
    let croppedCanvas := Canvas.create in
    let croppedCanvas := Canvas.set_width (Rect.width (cropRect s)) croppedCanvas in
    let croppedCanvas := Canvas.set_height (Rect.height (cropRect s)) croppedCanvas in
    let croppedCanvas :=
      drawImage (canvasEl s)
        (Rect.x (cropRect s)) (Rect.y (cropRect s))
        (Rect.width (cropRect s)) (Rect.height (cropRect s))
        0 0 (Rect.width (cropRect s)) (Rect.height (cropRect s)) croppedCanvas in
    let canvas := Canvas.set_width (inject_Z (Canvas.width croppedCanvas)) (canvasEl s) in
    let canvas := Canvas.set_height (inject_Z (Canvas.height croppedCanvas)) canvas in
    let canvas := drawImage3 croppedCanvas 0 0 canvas in
    set_canvasEl canvas s.

(** ** Event dispatch

    A pointer event bubbles from its target to the window; at each node the
    handlers registered there for its type run; [e.stopPropagation()] ends
    the walk after the node where it was called. *)
Definition propagationPath (t : HitTarget) : list DomNode :=
  match t with
  | Elsewhere => [Window]
  | InContainer => [Container; Window]
  | OnCropBox | OnCropHandle _ => [CropBox; Container; Window]
  end.

Definition invoke (h : Handler) (lay : Layout) (e : PointerEvent) (s : CropManager)
  : CropManager :=
  match h with
  | DrawStart => onDrawStart lay e s
  | ManipulateStart => onManipulateStart lay e s
  | DrawOrManipulateMove => onDrawOrManipulateMove lay e s
  | DrawOrManipulateEnd => onDrawOrManipulateEnd e s
  end.

(** Whether the handler calls [e.stopPropagation()] on this event. *)
Definition stopsPropagation (h : Handler) (e : PointerEvent) : bool :=
  match h with
  | DrawStart => negb (closestCropBox (target e))
  | ManipulateStart => true
  | DrawOrManipulateMove | DrawOrManipulateEnd => false
  end.

(** The editor never has two handlers on one node for one event type (see
    [disciplined] below), so the order of this list decides nothing. *)
Definition allHandlers : list Handler :=
  [DrawStart; ManipulateStart; DrawOrManipulateMove; DrawOrManipulateEnd].

(** The handlers registered at the node when the event arrives there. *)
Definition handlersAt (n : DomNode) (ty : EventType) (s : CropManager) : list Handler :=
  filter (fun h => (n, ty, h) ∈ listeners s) allHandlers.

Fixpoint bubble (path : list DomNode) (ty : EventType) (lay : Layout)
  (e : PointerEvent) (s : CropManager) : CropManager :=
  match path with
  | [] => s
  | n :: rest =>
      let hs := handlersAt n ty s in
      let s' := fold_left (fun acc h => invoke h lay e acc) hs s in
      if existsb (fun h => stopsPropagation h e) hs then s'
      else bubble rest ty lay e s'
  end.

Definition dispatch (ty : EventType) (lay : Layout) (e : PointerEvent)
  (s : CropManager) : CropManager :=
  bubble (propagationPath (target e)) ty lay e s.

(** What can happen to the editor: a pointer event arrives, the host calls
    one of the public methods, or the host repaints or replaces the canvas
    (capture, rotation). *)
Inductive Action : Type :=
| Pointer (ty : EventType) (lay : Layout) (e : PointerEvent)
| CallActivate
| CallDeactivate
| CallClear
| CallApplyCropToCanvas
| HostSetCanvas (c : Canvas.t).

Definition step (s : CropManager) (a : Action) : CropManager :=
  match a with
  | Pointer ty lay e => dispatch ty lay e s
  | CallActivate => activate s
  | CallDeactivate => deactivate s
  | CallClear => clear s
  | CallApplyCropToCanvas => applyCropToCanvas s
  | HostSetCanvas c => set_canvasEl c s
  end.

Definition run (acts : list Action) (s : CropManager) : CropManager :=
  fold_left step acts s.

End Commit.

(** A gesture's pointer moves, handled one after the other. *)
Definition moves (es : list (Layout * PointerEvent)) (s : CropManager) : CropManager :=
  fold_left (fun acc le => onDrawOrManipulateMove (fst le) (snd le) acc) es s.

(** ** Vocabulary of the properties *)

(** The pointer is within the movement threshold (5 surface pixels) of the
    anchor on both axes. *)
Definition withinThreshold (anchor p : Point.t) : Prop :=
  Math_abs (Point.x p - Point.x anchor) <= 5 /\
  Math_abs (Point.y p - Point.y anchor) <= 5.

(** The state [clear()] leaves: no region, no gesture, the overlay hidden
    and no longer listening. *)
Definition isCleared (s : CropManager) : Prop :=
  isCropDefined s = false /\ isDrawing s = false /\ isManipulating s = false /\
  activeHandle s = None /\ CropBoxEl.hidden (cropBoxEl s) = true /\
  ((CropBox, pointerdown, ManipulateStart) ∉ listeners s).

(** The mode [Idle]: neither drawing nor manipulating, no active handle. *)
Definition isIdle (s : CropManager) : Prop :=
  isDrawing s = false /\ isManipulating s = false /\ activeHandle s = None.

(** The three listeners of a gesture are not registered on the window. *)
Definition gestureListenersReleased (s : CropManager) : Prop :=
  ((Window, pointermove, DrawOrManipulateMove) ∉ listeners s) /\
  ((Window, pointerup, DrawOrManipulateEnd) ∉ listeners s) /\
  ((Window, pointercancel, DrawOrManipulateEnd) ∉ listeners s).

(** Nothing at all is registered on the window. *)
Definition noWindowListeners (s : CropManager) : Prop :=
  forall ty h, (Window, ty, h) ∉ listeners s.

(** On one axis: the far edge is within the bound, or the size is the floor
    [minSize] and the room left after the origin is smaller than the floor. *)
Definition withinOrFloored (bound origin size : Q) : Prop :=
  origin + size <= bound \/ (size = minSize /\ bound < origin + minSize).

(** The eight resize handles of the overlay. *)
Definition compassHandles : list string :=
  ["n"; "s"; "e"; "w"; "ne"; "nw"; "se"; "sw"]%string.

(** [v] clamped to the interval [[lo, hi]]. *)
Definition clampTo (lo hi v : Q) : Q :=
  if Qltb v lo then lo else if Qltb hi v then hi else v.

(** A manipulation with the [move] handle is under way on [canvas], with
    anchor region [anchor], and the region still has the anchor's size. *)
Definition inMoveGesture (anchor : Rect.t) (canvas : Canvas.t) (s : CropManager) : Prop :=
  isDrawing s = false /\ isManipulating s = true /\
  activeHandle s = Some "move"%string /\
  canvasEl s = canvas /\ startCropRect s = anchor /\
  Rect.width (cropRect s) = Rect.width anchor /\
  Rect.height (cropRect s) = Rect.height anchor.

(** The handle names none of the four directions. *)
Definition namesNoDirection (handle : string) : Prop :=
  includes handle "e" = false /\ includes handle "w" = false /\
  includes handle "s" = false /\ includes handle "n" = false.

(** The point [p] of the screen lies within the rendered box of the
    canvas. *)
Definition inRenderedBox (lay : Layout) (px py : Q) : Prop :=
  DOMRect.left (canvasRect lay) <= px /\
  px <= DOMRect.left (canvasRect lay) + DOMRect.width (canvasRect lay) /\
  DOMRect.top (canvasRect lay) <= py /\
  py <= DOMRect.top (canvasRect lay) + DOMRect.height (canvasRect lay).

(** The canvas is rendered with one scale on both axes. *)
Definition uniformScale (lay : Layout) (canvas : Canvas.t) : Prop :=
  DOMRect.height (canvasRect lay) * inject_Z (Canvas.width canvas)
  == DOMRect.width (canvasRect lay) * inject_Z (Canvas.height canvas).

(** Where [updateStyle] puts the overlay for a region whose origin is the
    surface point [p]: the projection of [p] to the screen. *)
Definition toDisplay (lay : Layout) (p : Point.t) (s : CropManager) : Point.t :=
  let s' := updateStyle lay
              (set_cropRect (Rect.mk (Point.x p) (Point.y p)
                               (Rect.width (cropRect s)) (Rect.height (cropRect s))) s) in
  Point.mk (CropBoxEl.translateX (cropBoxEl s')) (CropBoxEl.translateY (cropBoxEl s')).

(** Where on the screen the overlay appears when it is translated by
    [translate]: the overlay is laid out at the origin of the container of
    the canvas, and [updateStyle] computes its translation from there (it
    subtracts [containerRect.left] and [containerRect.top], lines 465-466). *)
Definition overlayOnScreen (lay : Layout) (translate : Point.t) : Point.t :=
  Point.mk (DOMRect.left (containerRect lay) + Point.x translate)
           (DOMRect.top (containerRect lay) + Point.y translate).

(** The region lies on whole pixels: its origin and its size are integers. *)
Definition wholePixels (r : Rect.t) : Prop :=
  isInteger (Rect.x r) = true /\ isInteger (Rect.y r) = true /\
  isInteger (Rect.width r) = true /\ isInteger (Rect.height r) = true.

(** The five registrations the editor ever makes. *)
Definition knownListeners : gset Listener :=
  {[ (Container, pointerdown, DrawStart);
     (CropBox, pointerdown, ManipulateStart);
     (Window, pointermove, DrawOrManipulateMove);
     (Window, pointerup, DrawOrManipulateEnd);
     (Window, pointercancel, DrawOrManipulateEnd) ]}.

(** The three listeners of a gesture are all registered on the window. *)
Definition gestureListenersRegistered (s : CropManager) : Prop :=
  ((Window, pointermove, DrawOrManipulateMove) ∈ listeners s) /\
  ((Window, pointerup, DrawOrManipulateEnd) ∈ listeners s) /\
  ((Window, pointercancel, DrawOrManipulateEnd) ∈ listeners s).

(** The listener discipline of the editor: only its five registrations
    exist, the three window listeners come and go together, and while they
    are absent the machine is idle. *)
Definition disciplined (s : CropManager) : Prop :=
  listeners s ⊆ knownListeners /\
  (gestureListenersRegistered s \/ (gestureListenersReleased s /\ isIdle s)).

(** ** The constraint pass in the words of the specification

    Section 4.2 of the specification describes the pass as three steps, each
    on every axis: (1) clamp a negative origin to 0, shrinking the size by
    the overflow so that the far edge stays where it was; (2) clamp the far
    edge, origin + size, to the surface bound, shrinking the size; (3) grow
    the size up to the minimum.  These definitions follow that wording, one
    axis (origin, size) at a time, to be compared with [constrainRect]. *)
Module SpecConstraint.
Definition clampOrigin (axis : Q * Q) : Q * Q :=
  let (origin, size) := axis in
  if Qltb origin 0
  then let overflow := 0 - origin in (0, size - overflow)
  else axis.

Definition clampFarEdge (bound : Q) (axis : Q * Q) : Q * Q :=
  let (origin, size) := axis in
  let farEdge := Math_min (origin + size) bound in
  (origin, farEdge - origin).

Definition enforceMinimum (axis : Q * Q) : Q * Q :=
  let (origin, size) := axis in
  (origin, if Qltb size minSize then minSize else size).

Definition constrainAxis (bound : Q) (axis : Q * Q) : Q * Q :=
  enforceMinimum (clampFarEdge bound (clampOrigin axis)).

Definition constrain (surfaceWidth surfaceHeight : Q) (r : Rect.t) : Rect.t :=
  let horizontal := constrainAxis surfaceWidth (Rect.x r, Rect.width r) in
  let vertical := constrainAxis surfaceHeight (Rect.y r, Rect.height r) in
  Rect.mk (fst horizontal) (fst vertical) (snd horizontal) (snd vertical).

(** The same steps with the minimum enforced before the far edge is clamped:
    the order the specification rules out. *)
Definition constrainAxisMinimumFirst (bound : Q) (axis : Q * Q) : Q * Q :=
  clampFarEdge bound (enforceMinimum (clampOrigin axis)).
End SpecConstraint.

(** ** Concrete scenes, for the examples

    A 200 x 200 canvas, each pixel coloured by its position, shown at its own
    size in the top-left corner of the page ([demoLayout]), at half size away
    from the corner ([offsetLayout]) or at 80 x 80 CSS pixels
    ([shrunkLayout]); an editor just activated, one at rest with the region
    (10, 10, 50, 50) defined, and one in the middle of a manipulation of that
    region grabbed at (60, 60). *)
Definition demoCanvas : Canvas.t :=
  Canvas.mk 200 200 (fun i j => rgba i j 0 255).

Definition demoLayout : Layout :=
  mkLayout (DOMRect.mk 0 0 200 200) (DOMRect.mk 0 0 200 200).

Definition pointerAt (x y : Q) (t : HitTarget) : PointerEvent :=
  mkPointerEvent x y t.

Definition demoEditor : CropManager :=
  activate (new_CropManager (CropBoxEl.mk true 0 0 0 0) demoCanvas).

Definition demoManipulating (handle : option string) : CropManager :=
  mkCropManager (Rect.mk 10 10 50 50) handle true false true
    (Point.mk 60 60) (Rect.mk 10 10 50 50) (CropBoxEl.mk false 10 10 50 50)
    demoCanvas
    (addWindowListeners
       (addEventListener CropBox pointerdown ManipulateStart
          (addEventListener Container pointerdown DrawStart ∅))).

(** The same scene at rest: the region (10, 10, 50, 50) is defined and no
    gesture is under way. *)
Definition demoIdle : CropManager :=
  mkCropManager (Rect.mk 10 10 50 50) None false false true
    (Point.mk 60 60) (Rect.mk 10 10 50 50) (CropBoxEl.mk false 10 10 50 50)
    demoCanvas
    (addEventListener CropBox pointerdown ManipulateStart
       (addEventListener Container pointerdown DrawStart ∅)).

(** A 200 x 200 canvas shown at half size, 20 pixels from the left of the
    page, in a container that starts 10 pixels from the left. *)
Definition offsetLayout : Layout :=
  mkLayout (DOMRect.mk 20 0 100 100) (DOMRect.mk 10 0 300 100).

(** The demo canvas shown at 80 x 80 CSS pixels: one CSS pixel is two and a
    half surface pixels. *)
Definition shrunkLayout : Layout :=
  mkLayout (DOMRect.mk 0 0 80 80) (DOMRect.mk 0 0 80 80).

(** A smoothing filter for the examples: it paints nothing. *)
Definition noResample :
  Canvas.t -> Q -> Q -> Q -> Q -> Q -> Q -> Q -> Q -> Canvas.t -> Z -> Z -> Pixel :=
  fun _ _ _ _ _ _ _ _ _ _ _ _ => transparent.

(** A drag on the shrunk demo canvas from (0, 0) to (17, 16) on the screen,
    from activation to pointer-up. *)
Definition fractionalDrag : list Action :=
  [CallActivate;
   Pointer pointerdown shrunkLayout (pointerAt 0 0 InContainer);
   Pointer pointermove shrunkLayout (pointerAt 17 16 InContainer);
   Pointer pointerup shrunkLayout (pointerAt 17 16 InContainer)].

(** ** One axis of the constraint pass

    [constrainRect] treats the two axes alike and apart; [axisPass] is what
    it does to one of them, (origin, size) against the bound of the surface
    on that axis.  [constrainRect_axes] below states the correspondence. *)
Definition axisPass (bound : Q) (axis : Q * Q) : Q * Q :=
  let (origin, size) := axis in
  let (origin, size) := if Qltb origin 0 then (0, size + origin) else (origin, size) in
  let size := if Qgtb (origin + size) bound then bound - origin else size in
  (origin, Math_max size minSize).

(** The region has been through the constraint pass on this canvas: the
    pass leaves it as it is. *)
Definition settled (s : CropManager) : Prop :=
  constrainRect (inject_Z (Canvas.width (canvasEl s)))
    (inject_Z (Canvas.height (canvasEl s))) (cropRect s) = cropRect s.

(** The rectangle that the manipulation branch of [onDrawOrManipulateMove]
    (lines 392-413) leaves in [this.cropRect], before the constraint pass:
    the rule of the active handle applied to the anchor, or the region as it
    is when nothing is being manipulated or no rule applies. *)
Definition manipulatedRect (lay : Layout) (e : PointerEvent) (s : CropManager) : Rect.t :=
  let currentPointer := getNativePointerPosition lay e s in
  let nativeDx := Point.x currentPointer - Point.x (startPointer s) in
  let nativeDy := Point.y currentPointer - Point.y (startPointer s) in
  if isManipulating s then
    match activeHandle s with
    | Some handle =>
        if String.eqb handle "move"
        then moveRect (startCropRect s) nativeDx nativeDy
               (inject_Z (Canvas.width (canvasEl s)))
               (inject_Z (Canvas.height (canvasEl s))) (cropRect s)
        else if truthy handle
        then resizeRect handle (startCropRect s) nativeDx nativeDy (cropRect s)
        else cropRect s
    | None => cropRect s
    end
  else cropRect s.

(** The end of [onDrawOrManipulateMove] for a defined region (lines
    415-418), on a region just written to [this.cropRect]. *)
Definition constrainAndShow (lay : Layout) (r : Rect.t) (s : CropManager) : CropManager :=
  updateStyle lay (constrainCropBox (set_cropRect r s)).

(** What the first move beyond the threshold does besides the geometry
    (lines 381-383): the region is defined, the overlay shown and made to
    listen. *)
Definition revealCropBox (s : CropManager) : CropManager :=
  let s := set_isCropDefined true s in
  let s := set_cropBoxEl (CropBoxEl.set_hidden false (cropBoxEl s)) s in
  set_listeners (addEventListener CropBox pointerdown ManipulateStart (listeners s)) s.

(** A defined region has its origin on the surface side of both axes and
    sides of at least [minSize]. *)
Definition regionWellFormed (s : CropManager) : Prop :=
  isCropDefined s = true ->
  0 <= Rect.x (cropRect s) /\ 0 <= Rect.y (cropRect s) /\
  minSize <= Rect.width (cropRect s) /\ minSize <= Rect.height (cropRect s).

(** The canvas is on show: its rendered width is positive. *)
Definition rendered (lay : Layout) : Prop := 0 < DOMRect.width (canvasRect lay).

(** A pointer event arrives only while the canvas is on show. *)
Definition renderedWhenPointed (a : Action) : Prop :=
  match a with
  | Pointer _ lay _ => rendered lay
  | _ => True
  end.

(** ** The page

    The second application of [src/index.tsx] (lines 722-1645; the first,
    lines 1-720, is the same without the API-key dialog and the retry
    button).  The elements are those of [DOMElements] (lines 740-778); the
    page is what the application reads and writes of them: class lists and
    string-valued properties. *)
Module El.
Inductive t : Type :=
| cameraView | previewView | resultView | videoElement | canvasElement
| flashBtn | captureBtn | retakeBtn | rotateBtn | confirmBtn | loader
| startOverBtn | retryBtn | actionButtonsContainer | initialActionButtons
| transcribedActionButtons | askImageBtn | transcribeBtn | askTextBtn
| responseContainer | transcriptionContainer | transcribedTextArea
| answerSection | answerContainer | copyBtn | copyTranscriptionBtn
| resultImagePreview | cropBox | modelSelector | modelFlashBtn | modelProBtn
| apiKeyModal | apiKeyForm | apiKeyInput | toggleApiKeyVisibilityBtn
| saveApiKeyBtn | apiKeyError.

Definition all : list t :=
  [cameraView; previewView; resultView; videoElement; canvasElement;
   flashBtn; captureBtn; retakeBtn; rotateBtn; confirmBtn; loader;
   startOverBtn; retryBtn; actionButtonsContainer; initialActionButtons;
   transcribedActionButtons; askImageBtn; transcribeBtn; askTextBtn;
   responseContainer; transcriptionContainer; transcribedTextArea;
   answerSection; answerContainer; copyBtn; copyTranscriptionBtn;
   resultImagePreview; cropBox; modelSelector; modelFlashBtn; modelProBtn;
   apiKeyModal; apiKeyForm; apiKeyInput; toggleApiKeyVisibilityBtn;
   saveApiKeyBtn; apiKeyError].

Definition index (e : t) : nat :=
  match e with
  | cameraView => 0 | previewView => 1 | resultView => 2 | videoElement => 3
  | canvasElement => 4 | flashBtn => 5 | captureBtn => 6 | retakeBtn => 7
  | rotateBtn => 8 | confirmBtn => 9 | loader => 10 | startOverBtn => 11
  | retryBtn => 12 | actionButtonsContainer => 13 | initialActionButtons => 14
  | transcribedActionButtons => 15 | askImageBtn => 16 | transcribeBtn => 17
  | askTextBtn => 18 | responseContainer => 19 | transcriptionContainer => 20
  | transcribedTextArea => 21 | answerSection => 22 | answerContainer => 23
  | copyBtn => 24 | copyTranscriptionBtn => 25 | resultImagePreview => 26
  | cropBox => 27 | modelSelector => 28 | modelFlashBtn => 29 | modelProBtn => 30
  | apiKeyModal => 31 | apiKeyForm => 32 | apiKeyInput => 33
  | toggleApiKeyVisibilityBtn => 34 | saveApiKeyBtn => 35 | apiKeyError => 36
  end%nat.

#[global] Instance eq_dec : EqDecision t.
Proof. solve_decision. Defined.

#[global] Instance countable : Countable t.
Proof.
  refine (inj_countable' index (fun n => nth n all cameraView) _).
  intros []; reflexivity.
Defined.
End El.

(** The class names the application adds, removes or toggles. *)
Module Cls.
Inductive t : Type := hidden | view | is_error | active | on.

#[global] Instance eq_dec : EqDecision t.
Proof. solve_decision. Defined.

#[global] Instance countable : Countable t.
Proof.
  refine (inj_countable'
            (fun c => match c with
                      | hidden => 0 | view => 1 | is_error => 2 | active => 3 | on => 4
                      end)%nat
            (fun n => match n with
                      | 0 => hidden | 1 => view | 2 => is_error | 3 => active | _ => on
                      end)%nat _).
  intros []; reflexivity.
Defined.
End Cls.

(** The string-valued properties and attributes it sets or reads. *)
Module Prp.
Inductive t : Type :=
| innerHTML | value | src | textContent | aria_checked | open.

#[global] Instance eq_dec : EqDecision t.
Proof. solve_decision. Defined.

#[global] Instance countable : Countable t.
Proof.
  refine (inj_countable'
            (fun c => match c with
                      | innerHTML => 0 | value => 1 | src => 2 | textContent => 3
                      | aria_checked => 4 | open => 5
                      end)%nat
            (fun n => match n with
                      | 0 => innerHTML | 1 => value | 2 => src | 3 => textContent
                      | 4 => aria_checked | _ => open
                      end)%nat _).
  intros []; reflexivity.
Defined.
End Prp.

Module Page.
(** [classes]: which element has which class.  [props]: the properties that
    have been given a value; a property without an entry reads as the empty
    string.  [disabled]: the elements whose [disabled] property is set. *)
Record t : Type := mk {
  classes : gset (El.t * Cls.t);
  props : gmap (El.t * Prp.t) string;
  disabled : gset El.t
}.

(** [el.classList.add(c)], [el.classList.remove(c)],
    [el.classList.toggle(c, force)] and [el.classList.contains(c)]. *)
Definition classList_add (el : El.t) (c : Cls.t) (p : t) : t :=
  mk (classes p ∪ {[ (el, c) ]}) (props p) (disabled p).

Definition classList_remove (el : El.t) (c : Cls.t) (p : t) : t :=
  mk (classes p ∖ {[ (el, c) ]}) (props p) (disabled p).

Definition classList_toggle (el : El.t) (c : Cls.t) (force : bool) (p : t) : t :=
  if force then classList_add el c p else classList_remove el c p.

Definition classList_contains (el : El.t) (c : Cls.t) (p : t) : bool :=
  bool_decide ((el, c) ∈ classes p).

(** [el.prop = v] (and [el.setAttribute(prop, v)]) and [el.prop]. *)
Definition set_prop (el : El.t) (name : Prp.t) (v : string) (p : t) : t :=
  mk (classes p) (<[ (el, name) := v ]> (props p)) (disabled p).

Definition get_prop (el : El.t) (name : Prp.t) (p : t) : string :=
  default ""%string (props p !! (el, name)).

(** [document.querySelectorAll('.view').forEach(v => v.classList.add('hidden'))],
    as far as the elements of [DOMElements] go. *)
Definition hide_all_views (p : t) : t :=
  mk (classes p
      ∪ set_map (fun ec : El.t * Cls.t => (ec.1, Cls.hidden))
          (filter (fun ec : El.t * Cls.t => ec.2 = Cls.view) (classes p)))
     (props p) (disabled p).

(** [el.disabled = b]. *)
Definition set_disabled (el : El.t) (b : bool) (p : t) : t :=
  mk (classes p) (props p)
     (if b then disabled p ∪ {[ el ]} else disabled p ∖ {[ el ]}).
End Page.

(** ** [UIManager] (lines 863-1022)

    Each method is the sequence of its statements on the page.  The
    clipboard methods (lines 958-986) and [toggleApiKeyVisibility] (lines
    1009-1021) are left out: they act on the clipboard, on timers and on the
    inside of an icon. *)
Inductive ViewId : Type := camera_view | preview_view | result_view.

Inductive AnswerType : Type := answer | error.

Inductive Model : Type := gemini_2_5_flash | gemini_2_5_pro.

Module UIManager.
Section Rendering.

(** [DOMPurify.sanitize(marked.parse(text))], the work of two libraries. *)
Variable renderMarkdown : string -> string.

(** Line 868: the element of a view id. *)
Definition viewElement (viewId : ViewId) : El.t :=
  match viewId with
  | camera_view => El.cameraView
  | preview_view => El.previewView
  | result_view => El.resultView
  end.

Definition showView (viewId : ViewId) (p : Page.t) : Page.t :=
  let p := Page.hide_all_views p in
  Page.classList_remove (viewElement viewId) Cls.hidden p.

Definition showLoader (show : bool) (p : Page.t) : Page.t :=
  Page.classList_toggle El.loader Cls.hidden (negb show) p.

Definition hideActionButtons (p : Page.t) : Page.t :=
  let p := Page.classList_add El.initialActionButtons Cls.hidden p in
  let p := Page.classList_add El.transcribedActionButtons Cls.hidden p in
  Page.classList_add El.modelSelector Cls.hidden p.

Definition resetResultView (p : Page.t) : Page.t :=
  let p := showLoader false p in
  let p := Page.set_prop El.answerContainer Prp.innerHTML "" p in
  let p := Page.classList_add El.answerSection Cls.hidden p in
  let p := Page.set_prop El.transcribedTextArea Prp.value "" p in
  let p := Page.classList_add El.transcriptionContainer Cls.hidden p in
  let p := Page.classList_add El.resultImagePreview Cls.hidden p in
  let p := Page.set_prop El.resultImagePreview Prp.src "" p in
  let p := Page.classList_add El.initialActionButtons Cls.hidden p in
  let p := Page.classList_add El.transcribedActionButtons Cls.hidden p in
  let p := Page.classList_add El.modelSelector Cls.hidden p in
  let p := Page.classList_add El.startOverBtn Cls.hidden p in
  Page.classList_add El.retryBtn Cls.hidden p.

Definition prepareResultView (imageDataUrl : string) (p : Page.t) : Page.t :=
  let p := showView result_view p in
  let p := resetResultView p in
  let p := Page.set_prop El.resultImagePreview Prp.src imageDataUrl p in
  let p := Page.classList_remove El.resultImagePreview Cls.hidden p in
  let p := Page.classList_remove El.initialActionButtons Cls.hidden p in
  let p := Page.classList_remove El.modelSelector Cls.hidden p in
  Page.classList_remove El.startOverBtn Cls.hidden p.

Definition displayTranscriptionResult (text : string) (p : Page.t) : Page.t :=
  let p := Page.set_prop El.transcribedTextArea Prp.value text p in
  let p := Page.classList_remove El.transcriptionContainer Cls.hidden p in
  let p := Page.classList_add El.initialActionButtons Cls.hidden p in
  let p := Page.classList_remove El.transcribedActionButtons Cls.hidden p in
  Page.classList_remove El.modelSelector Cls.hidden p.

Definition displayAnswer (text : string) (type : AnswerType) (p : Page.t) : Page.t :=
  let isError := match type with error => true | answer => false end in
  let p := Page.classList_toggle El.answerSection Cls.is_error isError p in
  let p :=
    if isError
    then Page.set_prop El.answerContainer Prp.innerHTML ("<p>" ++ text ++ "</p>") p
    else Page.set_prop El.answerContainer Prp.innerHTML (renderMarkdown text) p in
  Page.classList_remove El.answerSection Cls.hidden p.

Definition getTranscribedText (p : Page.t) : string :=
  Page.get_prop El.transcribedTextArea Prp.value p.

Definition displayError (message : string) (p : Page.t) : Page.t :=
  let p := showView result_view p in
  let p := resetResultView p in
  let p := Page.classList_remove El.startOverBtn Cls.hidden p in
  displayAnswer message error p.

Definition displayErrorWithRetry (message : string) (p : Page.t) : Page.t :=
  let p := showView result_view p in
  let p := resetResultView p in
  let p := Page.classList_remove El.startOverBtn Cls.hidden p in
  let p := Page.classList_remove El.retryBtn Cls.hidden p in
  displayAnswer message error p.

Definition hideRetryButton (p : Page.t) : Page.t :=
  Page.classList_add El.retryBtn Cls.hidden p.

(** [String(b)]. *)
Definition String_of_bool (b : bool) : string := if b then "true" else "false".

Definition updateModelSelection (model : Model) (p : Page.t) : Page.t :=
  let isFlash := match model with gemini_2_5_flash => true | gemini_2_5_pro => false end in
  let p := Page.classList_toggle El.modelFlashBtn Cls.active isFlash p in
  let p := Page.set_prop El.modelFlashBtn Prp.aria_checked (String_of_bool isFlash) p in
  let p := Page.classList_toggle El.modelProBtn Cls.active (negb isFlash) p in
  Page.set_prop El.modelProBtn Prp.aria_checked (String_of_bool (negb isFlash)) p.

Definition clearApiKeyError (p : Page.t) : Page.t :=
  let p := Page.classList_add El.apiKeyError Cls.hidden p in
  Page.set_prop El.apiKeyError Prp.textContent "" p.

(** The dialog's [show()] and [close()] are its [open] state. *)
Definition showApiKeyModal (p : Page.t) : Page.t :=
  Page.set_prop El.apiKeyModal Prp.open "true" p.

Definition hideApiKeyModal (p : Page.t) : Page.t :=
  let p := Page.set_prop El.apiKeyModal Prp.open "false" p in
  let p := clearApiKeyError p in
  Page.set_prop El.apiKeyInput Prp.value "" p.

Definition showApiKeyError (message : string) (p : Page.t) : Page.t :=
  let p := Page.set_prop El.apiKeyError Prp.textContent message p in
  Page.classList_remove El.apiKeyError Cls.hidden p.

End Rendering.
End UIManager.

(** ** [GeminiService]: where the API key comes from (lines 780-823) *)

(** A string is truthy unless it is empty; [null] and [undefined] are not. *)
Definition truthyString (o : option string) : bool :=
  match o with
  | Some s => negb (String.eqb s "")
  | None => false
  end.

(** [a || b] on values that are strings, [null] or [undefined]. *)
Definition orElse (a b : option string) : option string :=
  if truthyString a then a else b.

(** [localStorage].  Reading it throws when the browser denies access to
    storage; writing throws also when the quota is exhausted. *)
Module Storage.
Record t : Type := mk {
  accessible : bool;
  quotaExceeded : bool;
  items : gmap string string
}.
End Storage.

Module GeminiService.
(** The service, as far as the application sees it: the key it was built
    with.  The requests themselves are the library's. *)
Record t : Type := mk { apiKey : string }.

Definition storageKey : string := "gemini-api-key".

(** Lines 791-798. *)
Definition getStoredApiKey (ls : Storage.t) : option string :=
  if Storage.accessible ls then Storage.items ls !! storageKey else None.

(** Lines 800-807; [None] is the thrown [Error('Failed to save API key')]. *)
Definition saveApiKey (apiKey : string) (ls : Storage.t) : option Storage.t :=
  if Storage.accessible ls && negb (Storage.quotaExceeded ls)
  then Some (Storage.mk (Storage.accessible ls) (Storage.quotaExceeded ls)
               (<[ storageKey := apiKey ]> (Storage.items ls)))
  else None.

(** Lines 809-815. *)
Definition hasStoredApiKey (ls : Storage.t) : bool :=
  if Storage.accessible ls then truthyString (Storage.items ls !! storageKey)
  else false.

(** Lines 817-823. *)
Definition clearStoredApiKey (ls : Storage.t) : Storage.t :=
  if Storage.accessible ls
  then Storage.mk (Storage.accessible ls) (Storage.quotaExceeded ls)
         (delete storageKey (Storage.items ls))
  else ls.

(** The constructor (lines 783-789); [None] is the thrown
    [Error("API key is not configured.")].  [env] is [process.env.API_KEY]. *)
Definition new (apiKey : option string) (ls : Storage.t) (env : option string)
  : option t :=
  let key := orElse (orElse apiKey (getStoredApiKey ls)) env in
  match key with
  | Some k => if truthyString key then Some (mk k) else None
  | None => None
  end.
End GeminiService.

(** ** Strings, continued

    A string is a sequence of code units below 256. *)

(** White space as [trim] sees it among these: tab, line feed, vertical tab,
    form feed, carriage return, space and no-break space. *)
Definition isWhiteSpace (c : ascii) : bool :=
  let n := nat_of_ascii c in
  ((9 <=? n)%nat && (n <=? 13)%nat) || (n =? 32)%nat || (n =? 160)%nat.

Fixpoint trimStart (s : string) : string :=
  match s with
  | EmptyString => EmptyString
  | String c rest => if isWhiteSpace c then trimStart rest else s
  end.

Fixpoint trimEnd (s : string) : string :=
  match s with
  | EmptyString => EmptyString
  | String c rest =>
      match trimEnd rest with
      | EmptyString => if isWhiteSpace c then EmptyString else String c EmptyString
      | rest' => String c rest'
      end
  end.

(** [s.trim()]. *)
Definition trim (s : string) : string := trimEnd (trimStart s).

(** ** [CameraManager] (lines 1024-1087)

    The tracks the browser has handed out live in a store, by the number of
    their stream, since [this.stream] and [this.videoTrack] can point into
    the same stream.  An [async] method is one definition for each stretch
    between its [await]s. *)
Module MediaTrack.
Record t : Type := mk { torch : bool; stopped : bool }.
End MediaTrack.

(** How [await navigator.mediaDevices.getUserMedia(..)] followed by
    [await this.videoElement.play()] ends. *)
Inductive CameraOutcome : Type :=
| CameraRefused                              (* getUserMedia rejects *)
| PlayRefused (stream : nat) (torch : bool)  (* the stream arrives, play() rejects *)
| CameraStarted (stream : nat) (torch : bool).

Module CameraManager.
Record t : Type := mk {
  media : gmap nat MediaTrack.t;
  stream : option nat;
  videoTrack : option nat;
  isFlashOn : bool
}.

Definition new : t := mk ∅ None None false.

(** [this.stream.getTracks().forEach(track => track.stop())]. *)
Definition stopTracks (id : nat) (m : gmap nat MediaTrack.t) : gmap nat MediaTrack.t :=
  match m !! id with
  | Some track => <[ id := MediaTrack.mk (MediaTrack.torch track) true ]> m
  | None => m
  end.

(** [start()] up to its first [await] (lines 1036-1040). *)
Definition start (cam : t) : t :=
  match stream cam with
  | Some id => mk (stopTracks id (media cam)) (stream cam) (videoTrack cam) (isFlashOn cam)
  | None => cam
  end.

(** The rest of [start()] (lines 1040-1054); [None] in the second component
    is normal completion, [Some message] the error it throws. *)
Definition start_resumed (outcome : CameraOutcome) (cam : t) (p : Page.t)
  : t * Page.t * option string :=
  let failure := "Could not access camera. Please enable permissions and try again." in
  match outcome with
  | CameraRefused => (cam, p, Some failure)
  | PlayRefused id torch =>
      (mk (<[ id := MediaTrack.mk torch false ]> (media cam)) (Some id)
          (videoTrack cam) (isFlashOn cam),
       p, Some failure)
  | CameraStarted id torch =>
      let p := Page.set_disabled El.flashBtn (negb torch) p in
      let p := Page.classList_remove El.flashBtn Cls.on p in
      (mk (<[ id := MediaTrack.mk torch false ]> (media cam)) (Some id) (Some id) false,
       p, None)
  end.

Definition stop (cam : t) : t :=
  match stream cam with
  | Some id => mk (stopTracks id (media cam)) None None (isFlashOn cam)
  | None => cam
  end.

(** [(this.videoTrack.getCapabilities() as any).torch] *)
Definition hasTorch (cam : t) : bool :=
  match videoTrack cam with
  | Some id =>
      match media cam !! id with
      | Some track => MediaTrack.torch track
      | None => false
      end
  | None => false
  end.

(** [toggleFlash()] up to its [await] (lines 1066-1069); the second
    component tells whether [applyConstraints] was called. *)
Definition toggleFlash (cam : t) : t * bool :=
  if negb (hasTorch cam) then (cam, false)
  else (mk (media cam) (stream cam) (videoTrack cam) (negb (isFlashOn cam)), true).

(** The rest of [toggleFlash()] (lines 1070-1073): [applied] tells whether
    [applyConstraints] resolved. *)
Definition toggleFlash_resumed (applied : bool) (cam : t) (p : Page.t) : Page.t :=
  if applied then Page.classList_toggle El.flashBtn Cls.on (isFlashOn cam) p
  else p.

Section Capture.
Variable resample :
  Canvas.t -> Q -> Q -> Q -> Q -> Q -> Q -> Q -> Q -> Canvas.t -> Z -> Z -> Pixel.

(** [capturePhoto()] (lines 1076-1082).  [frame] is what the video element
    shows: [videoWidth] by [videoHeight] pixels. *)
Definition capturePhoto (frame : Canvas.t) (canvas : Canvas.t) : Canvas.t :=
  let canvas := Canvas.set_width (inject_Z (Canvas.width frame)) canvas in
  let canvas := Canvas.set_height (inject_Z (Canvas.height frame)) canvas in
  drawImage resample frame 0 0 (inject_Z (Canvas.width frame)) (inject_Z (Canvas.height frame))
    0 0 (inject_Z (Canvas.width canvas)) (inject_Z (Canvas.height canvas)) canvas.
End Capture.
End CameraManager.

(** ** Requests to the model (lines 835-860 and 1520-1591) *)

(** A call of one of the three request methods of [GeminiService], with its
    arguments as they are when the call is made. *)
Inductive GeminiCall : Type :=
| GetAnswerFromImage (canvas : Canvas.t) (model : Model)
| TranscribeImage (canvas : Canvas.t)
| GetAnswerFromText (question : string) (model : Model).

(** The three closures passed as [onResult] are two functions. *)
Inductive OnResult : Type := ShowAnswer | ShowTranscription.

(** The three closures passed as [retryAction]. *)
Inductive RetryAction : Type := RetrySolveFromImage | RetryTranscribeImage | RetrySolveFromText.

(** How [await request()] ends: with the text of the response, or with a
    thrown value, which is an [Error] with a message or something else. *)
Inductive Thrown : Type := ErrorObject (message : string) | OtherValue.

Inductive RequestOutcome : Type := Resolved (text : string) | Rejected (thrown : Thrown).

(** Lines 1543-1552. *)
Definition errorMessageFor (thrown : Thrown) : string :=
  match thrown with
  | ErrorObject message =>
      if includes message "quota" || includes message "rate limit"
      then "API quota exceeded or rate limit reached. Please wait and try again."
      else if includes message "network" || includes message "fetch"
      then "Network error. Please check your connection and try again."
      else if includes message "authentication" || includes message "unauthorized"
      then "Authentication error. Please check your API key."
      else "Sorry, an error occurred. Please try again."
  | OtherValue => "Sorry, an error occurred. Please try again."
  end.

(** ** Shrinking the photograph (lines 1412-1447) *)

(** [resizeCanvas] up to its [await]: it returns the canvas it was given, or
    it has made the off-screen canvas and waits for the bitmap. *)
Inductive Resizing : Type :=
| SameCanvas
| AwaitsBitmap (offscreenCanvas : Canvas.t) (newWidth newHeight : Q).

Definition resizeCanvas (canvas : Canvas.t) (maxDimension : Q) : Resizing :=
  let width := inject_Z (Canvas.width canvas) in
  let height := inject_Z (Canvas.height canvas) in
  if negb (Qgtb width maxDimension) && negb (Qgtb height maxDimension) then SameCanvas
  else
    let (newWidth, newHeight) :=
      if Qgtb width height
      then (maxDimension, (height * maxDimension) / width)
      else ((width * maxDimension) / height, maxDimension) in
    let offscreenCanvas := Canvas.create in
    let offscreenCanvas := Canvas.set_width newWidth offscreenCanvas in
    let offscreenCanvas := Canvas.set_height newHeight offscreenCanvas in
    AwaitsBitmap offscreenCanvas newWidth newHeight.

(** ** The application (lines 1304-1592) *)
Module App.

(** The fields of [App], with what they reach: the page, the browser's
    storage and the element [.canvas-container] of the preview ([None] when
    the page has none, else the number of loaders appended to it).  The one
    canvas element, which the camera, the editor and the application share,
    is [canvasEl] of the editor. *)
Record t : Type := mk {
  page : Page.t;
  camera : CameraManager.t;
  gemini : option GeminiService.t;
  cropper : CropManager;
  selectedModel : Model;
  lastFailedRequest : option RetryAction;
  localStorage : Storage.t;
  previewContainer : option nat
}.

Definition set_page (v : Page.t) (a : t) : t :=
  mk v (camera a) (gemini a) (cropper a) (selectedModel a) (lastFailedRequest a)
     (localStorage a) (previewContainer a).

Definition set_camera (v : CameraManager.t) (a : t) : t :=
  mk (page a) v (gemini a) (cropper a) (selectedModel a) (lastFailedRequest a)
     (localStorage a) (previewContainer a).

Definition set_gemini (v : option GeminiService.t) (a : t) : t :=
  mk (page a) (camera a) v (cropper a) (selectedModel a) (lastFailedRequest a)
     (localStorage a) (previewContainer a).

Definition set_cropper (v : CropManager) (a : t) : t :=
  mk (page a) (camera a) (gemini a) v (selectedModel a) (lastFailedRequest a)
     (localStorage a) (previewContainer a).

Definition set_selectedModel (v : Model) (a : t) : t :=
  mk (page a) (camera a) (gemini a) (cropper a) v (lastFailedRequest a)
     (localStorage a) (previewContainer a).

Definition set_lastFailedRequest (v : option RetryAction) (a : t) : t :=
  mk (page a) (camera a) (gemini a) (cropper a) (selectedModel a) v
     (localStorage a) (previewContainer a).

Definition set_localStorage (v : Storage.t) (a : t) : t :=
  mk (page a) (camera a) (gemini a) (cropper a) (selectedModel a) (lastFailedRequest a)
     v (previewContainer a).

Definition set_previewContainer (v : option nat) (a : t) : t :=
  mk (page a) (camera a) (gemini a) (cropper a) (selectedModel a) (lastFailedRequest a)
     (localStorage a) v.

(** The constructor (lines 1312-1317). *)
Definition new (p : Page.t) (box : CropBoxEl.t) (canvas : Canvas.t)
  (ls : Storage.t) (container : option nat) : t :=
  mk p CameraManager.new None (new_CropManager box canvas) gemini_2_5_flash None
     ls container.

(** A request under way: what [handleGeminiRequest] still holds across its
    [await]. *)
Record PendingRequest : Type := mkPending {
  call : GeminiCall;
  onResult : OnResult;
  retryAction : RetryAction
}.

Section Host.

(** What the browser and the libraries contribute: the smoothing filter of
    [drawImage]; what [drawImage] paints under the rotation of
    [rotatePreviewImage]; [canvas.toDataURL('image/jpeg', 0.9)];
    [DOMPurify.sanitize(marked.parse(text))]; and [process.env.API_KEY].
    A canvas always gives a 2D context. *)
Variable resample :
  Canvas.t -> Q -> Q -> Q -> Q -> Q -> Q -> Q -> Q -> Canvas.t -> Z -> Z -> Pixel.
Variable rotated : Canvas.t -> Z -> Z -> Pixel.
Variable toDataURL : Canvas.t -> string.
Variable renderMarkdown : string -> string.
Variable API_KEY : option string.

(** [start()] up to its [await] (lines 1319-1340); the second component
    tells whether [this.camera.start()] was called. *)
Definition start (a : t) : t * bool :=
  if negb (bool_decide (is_Some (gemini a)))
     && negb (GeminiService.hasStoredApiKey (localStorage a))
     && negb (truthyString API_KEY)
  then (set_page (UIManager.showApiKeyModal (page a)) a, false)
  else
    let initialised :=
      match gemini a with
      | Some _ => Some a
      | None =>
          match GeminiService.new None (localStorage a) API_KEY with
          | Some service => Some (set_gemini (Some service) a)
          | None => None
          end
      end in
    match initialised with
    | None =>
        let p := UIManager.showApiKeyModal (page a) in
        let p := UIManager.showApiKeyError
                   "Failed to initialize with provided API key. Please check your key and try again."
                   p in
        (set_page p a, false)
    | Some a =>
        let a := set_page (UIManager.resetResultView (page a)) a in
        let a := set_cropper (deactivate (cropper a)) a in
        let a := set_camera (CameraManager.start (camera a)) a in
        (a, true)
    end.

(** The rest of [start()] (lines 1340-1344). *)
Definition start_resumed (outcome : CameraOutcome) (a : t) : t :=
  match CameraManager.start_resumed outcome (camera a) (page a) with
  | (cam, p, None) =>
      set_page (UIManager.showView camera_view p) (set_camera cam a)
  | (cam, p, Some message) =>
      set_page (UIManager.displayError renderMarkdown message p) (set_camera cam a)
  end.

(** Lines 1381-1405.  The function has no [await] of its own; it ends by
    calling [start()], whose first stretch runs within it. *)
Definition handleApiKeySubmit (a : t) : t * bool :=
  let apiKey := trim (Page.get_prop El.apiKeyInput Prp.value (page a)) in
  if negb (truthy apiKey)
  then (set_page (UIManager.showApiKeyError "Please enter an API key" (page a)) a, false)
  else
    let a := set_page (UIManager.clearApiKeyError (page a)) a in
    let invalid :=
      (set_page (UIManager.showApiKeyError
                   "Invalid API key. Please check your key and try again." (page a)) a,
       false) in
    match GeminiService.new (Some apiKey) (localStorage a) API_KEY with
    | None => invalid
    | Some testService =>
        match GeminiService.saveApiKey apiKey (localStorage a) with
        | None => invalid
        | Some ls =>
            let a := set_localStorage ls a in
            let a := set_gemini (Some testService) a in
            let a := set_page (UIManager.hideApiKeyModal (page a)) a in
            start a
        end
    end.

(** The [keydown] listener of the document (lines 1370-1378). *)
Definition onKeydown (key : string) (a : t) : t :=
  if String.eqb key "Escape"
     && negb (Page.classList_contains El.apiKeyModal Cls.hidden (page a))
  then
    if GeminiService.hasStoredApiKey (localStorage a) || truthyString API_KEY
    then set_page (UIManager.hideApiKeyModal (page a)) a
    else a
  else a.

Definition selectModel (model : Model) (a : t) : t :=
  let a := set_selectedModel model a in
  set_page (UIManager.updateModelSelection model (page a)) a.

(** The rest of [resizeCanvas] (lines 1437-1446): [None] is the rejection
    of [createImageBitmap], which the function passes on. *)
Definition resizeCanvas_resumed (offscreenCanvas : Canvas.t) (imageBitmap : option Canvas.t)
  : option Canvas.t :=
  match imageBitmap with
  | Some bitmap => Some (drawImage3 resample bitmap 0 0 offscreenCanvas)
  | None => None
  end.

(** Lines 1449-1472. *)
Definition rotatePreviewImage (a : t) : t :=
  let canvas := canvasEl (cropper a) in
  let tempCanvas := Canvas.create in
  let tempCanvas := Canvas.set_width (inject_Z (Canvas.width canvas)) tempCanvas in
  let tempCanvas := Canvas.set_height (inject_Z (Canvas.height canvas)) tempCanvas in
  let tempCanvas := drawImage3 resample canvas 0 0 tempCanvas in
  let canvas := Canvas.set_width (inject_Z (Canvas.height tempCanvas)) canvas in
  let canvas := Canvas.set_height (inject_Z (Canvas.width tempCanvas)) canvas in
  let canvas := Canvas.mk (Canvas.width canvas) (Canvas.height canvas) (rotated tempCanvas) in
  set_cropper (clear (set_canvasEl canvas (cropper a))) a.

(** Lines 1474-1479; [frame] is what the video element shows. *)
Definition capturePhoto (frame : Canvas.t) (a : t) : t :=
  let a := set_cropper
             (set_canvasEl (CameraManager.capturePhoto resample frame (canvasEl (cropper a)))
                (cropper a)) a in
  let a := set_camera (CameraManager.stop (camera a)) a in
  let a := set_page (UIManager.showView preview_view (page a)) a in
  set_cropper (activate (cropper a)) a.

(** [confirmPhoto()] up to its [await] (lines 1481-1498): [None] in the
    second component when it has returned, else where [resizeCanvas]
    stands. *)
Definition confirmPhoto (a : t) : t * option Resizing :=
  let a := if isCropped (cropper a)
           then set_cropper (applyCropToCanvas resample (cropper a)) a
           else a in
  let a := set_cropper (deactivate (cropper a)) a in
  match previewContainer a with
  | None => (a, None)
  | Some loaders =>
      let a := set_previewContainer (Some (S loaders)) a in
      let canvasToProcess := canvasEl (cropper a) in
      (a, Some (resizeCanvas canvasToProcess 1280))
  end.

(** The rest of [confirmPhoto()] (lines 1498-1517). *)
Definition confirmPhoto_resumed (resizing : Resizing) (imageBitmap : option Canvas.t)
  (a : t) : t :=
  let resizedCanvas :=
    match resizing with
    | SameCanvas => Some None
    | AwaitsBitmap offscreenCanvas _ _ =>
        match resizeCanvas_resumed offscreenCanvas imageBitmap with
        | Some c => Some (Some c)
        | None => None
        end
    end in
  let a :=
    match resizedCanvas with
    | Some resized =>
        let a :=
          match resized with
          | None => a
          | Some resizedCanvas =>
              let mainCanvas := canvasEl (cropper a) in
              let mainCanvas :=
                Canvas.set_width (inject_Z (Canvas.width resizedCanvas)) mainCanvas in
              let mainCanvas :=
                Canvas.set_height (inject_Z (Canvas.height resizedCanvas)) mainCanvas in
              let mainCanvas := drawImage3 resample resizedCanvas 0 0 mainCanvas in
              set_cropper (set_canvasEl mainCanvas (cropper a)) a
          end in
        let imageDataUrl := toDataURL (canvasEl (cropper a)) in
        set_page (UIManager.prepareResultView imageDataUrl (page a)) a
    | None =>
        set_page
          (UIManager.displayError renderMarkdown
             "Sorry, there was a problem processing the image. Please try again."
             (page a)) a
    end in
  match previewContainer a with
  | Some loaders => set_previewContainer (Some (Nat.pred loaders)) a
  | None => a
  end.

(** [handleGeminiRequest] up to its [await] (lines 1520-1531).  [request]
    stands for the closure: it is called only when the service is there. *)
Definition handleGeminiRequest (request : t -> GeminiCall) (onResult : OnResult)
  (retryAction : RetryAction) (a : t) : t * option PendingRequest :=
  match gemini a with
  | None =>
      (set_page
         (UIManager.displayAnswer renderMarkdown
            "API key not configured. Please configure your API key first." error
            (page a)) a,
       None)
  | Some _ =>
      let a := set_page (UIManager.showLoader true (page a)) a in
      let a := set_page (UIManager.hideActionButtons (page a)) a in
      let a := set_page (UIManager.hideRetryButton (page a)) a in
      (a, Some (mkPending (request a) onResult retryAction))
  end.

(** The rest of [handleGeminiRequest] (lines 1531-1557). *)
Definition handleGeminiRequest_resumed (pending : PendingRequest)
  (outcome : RequestOutcome) (a : t) : t :=
  let a :=
    match outcome with
    | Resolved result =>
        let a :=
          match onResult pending with
          | ShowAnswer =>
              set_page (UIManager.displayAnswer renderMarkdown result answer (page a)) a
          | ShowTranscription =>
              set_page (UIManager.displayTranscriptionResult result (page a)) a
          end in
        set_lastFailedRequest None a
    | Rejected thrown =>
        let a := set_lastFailedRequest (Some (retryAction pending)) a in
        let errorMessage := errorMessageFor thrown in
        set_page (UIManager.displayErrorWithRetry renderMarkdown errorMessage (page a)) a
    end in
  set_page (UIManager.showLoader false (page a)) a.

Definition solveFromImage (a : t) : t * option PendingRequest :=
  handleGeminiRequest
    (fun a => GetAnswerFromImage (canvasEl (cropper a)) (selectedModel a))
    ShowAnswer RetrySolveFromImage a.

Definition transcribeImage (a : t) : t * option PendingRequest :=
  handleGeminiRequest
    (fun a => TranscribeImage (canvasEl (cropper a)))
    ShowTranscription RetryTranscribeImage a.

Definition solveFromText (a : t) : t * option PendingRequest :=
  let question := UIManager.getTranscribedText (page a) in
  if negb (truthy (trim question)) then (a, None)
  else
    handleGeminiRequest
      (fun a => GetAnswerFromText question (selectedModel a))
      ShowAnswer RetrySolveFromText a.

Definition retryLastRequest (a : t) : t * option PendingRequest :=
  match lastFailedRequest a with
  | Some RetrySolveFromImage => solveFromImage a
  | Some RetryTranscribeImage => transcribeImage a
  | Some RetrySolveFromText => solveFromText a
  | None => (a, None)
  end.

(** What the user can do to the photograph between two renderings of the
    page: press one of the buttons of the camera and preview views, or use
    the pointer.  Each runs to its first [await] in one turn of the event
    loop; what the [await] leaves for later is not part of it. *)
Inductive UserAction : Type :=
| PressCapture (frame : Canvas.t)
| PressRotate
| PressConfirm
| PressRetake
| UsePointer (ty : EventType) (lay : Layout) (e : PointerEvent).

Definition act (a : t) (u : UserAction) : t :=
  match u with
  | PressCapture frame => capturePhoto frame a
  | PressRotate => rotatePreviewImage a
  | PressConfirm => fst (confirmPhoto a)
  | PressRetake => fst (start a)
  | UsePointer ty lay e => set_cropper (dispatch ty lay e (cropper a)) a
  end.

Definition session (us : list UserAction) (a : t) : t := fold_left act us a.

(** An [async] method from its call to its end, when nothing else happens
    in between. *)
Definition start_completed (outcome : CameraOutcome) (a : t) : t :=
  match start a with
  | (a, true) => start_resumed outcome a
  | (a, false) => a
  end.

Definition confirmPhoto_completed (imageBitmap : option Canvas.t) (a : t) : t :=
  match confirmPhoto a with
  | (a, Some resizing) => confirmPhoto_resumed resizing imageBitmap a
  | (a, None) => a
  end.

Definition completed (method : t -> t * option PendingRequest)
  (outcome : RequestOutcome) (a : t) : t :=
  match method a with
  | (a, Some pending) => handleGeminiRequest_resumed pending outcome a
  | (a, None) => a
  end.

End Host.
End App.

(** ** Vocabulary of the properties, continued *)

(** A defined region is a fixed point of the constraint pass on the canvas
    as it is now. *)
Definition definedSettled (s : CropManager) : Prop :=
  isCropDefined s = true -> settled s.

(** The editor is switched off: cleared, and neither the container nor the
    window carries one of its listeners. *)
Definition editorOff (s : CropManager) : Prop :=
  isCleared s /\ ((Container, pointerdown, DrawStart) ∉ listeners s) /\
  gestureListenersReleased s.

(** What [resizeCanvas] has arranged when it reaches its [await] or returns:
    nothing to do for a canvas within the limit; else an off-screen canvas
    within the limit and no larger than the canvas, its longer side the
    limit, its sides the whole parts of a target of the same proportions as
    the canvas. *)
Definition shrunkTo (canvas : Canvas.t) (maxDimension : Q) (r : Resizing) : Prop :=
  match r with
  | SameCanvas =>
      inject_Z (Canvas.width canvas) <= maxDimension /\
      inject_Z (Canvas.height canvas) <= maxDimension
  | AwaitsBitmap offscreenCanvas newWidth newHeight =>
      inject_Z (Canvas.width offscreenCanvas) <= maxDimension /\
      inject_Z (Canvas.height offscreenCanvas) <= maxDimension /\
      (Canvas.width offscreenCanvas <= Canvas.width canvas)%Z /\
      (Canvas.height offscreenCanvas <= Canvas.height canvas)%Z /\
      Z.max (Canvas.width offscreenCanvas) (Canvas.height offscreenCanvas)
      = Qfloor maxDimension /\
      Canvas.width offscreenCanvas = Qfloor newWidth /\
      Canvas.height offscreenCanvas = Qfloor newHeight /\
      newWidth * inject_Z (Canvas.height canvas)
      == newHeight * inject_Z (Canvas.width canvas)
  end.

(** The same for the actions of a user: the pointer is used only while the
    canvas is on show. *)
Definition renderedWhenUsed (u : App.UserAction) : Prop :=
  match u with
  | App.UsePointer _ lay _ => rendered lay
  | _ => True
  end.

(** The page while a request is under way, as [handleGeminiRequest] leaves
    it before its [await] (lines 1526-1528). *)
Definition busyPage (p : Page.t) : Page.t :=
  UIManager.hideRetryButton (UIManager.hideActionButtons (UIManager.showLoader true p)).

(** ** Concrete scenes, continued

    A page whose three views carry the class [view], with a question in the
    text area of the transcription and a key typed into the dialog; a
    browser storage that takes writes and one that is full; the application
    on that page, as constructed and with a service; a photograph larger
    than the limit of [confirmPhoto]; a camera with a torch; a session that
    takes a photograph and draws a region on it. *)
Definition demoPage : Page.t :=
  Page.mk
    {[ (El.cameraView, Cls.view); (El.previewView, Cls.view); (El.resultView, Cls.view) ]}
    (<[ (El.transcribedTextArea, Prp.value) := "2 + 2 = ?"%string ]>
       (<[ (El.apiKeyInput, Prp.value) := "  secret "%string ]> ∅))
    ∅.

Definition demoStorage : Storage.t := Storage.mk true false ∅.

Definition fullStorage : Storage.t := Storage.mk true true ∅.

Definition demoApp : App.t :=
  App.new demoPage (CropBoxEl.mk true 0 0 0 0) demoCanvas demoStorage (Some 0%nat).

Definition demoAppWithService : App.t :=
  App.set_gemini (Some (GeminiService.mk "secret")) demoApp.

Definition largePhoto : Canvas.t := Canvas.mk 4000 3000 (fun i j => rgba i j 0 255).

Definition demoAppWithLargePhoto : App.t :=
  App.new demoPage (CropBoxEl.mk true 0 0 0 0) largePhoto demoStorage (Some 0%nat).

Definition demoCamera : CameraManager.t :=
  CameraManager.mk {[ 1%nat := MediaTrack.mk true false ]} (Some 1%nat) (Some 1%nat) false.

Definition noRotation : Canvas.t -> Z -> Z -> Pixel := fun _ _ _ => transparent.

Definition plainText : string -> string := fun text => text.

Definition demoSession : list App.UserAction :=
  [App.PressCapture demoCanvas;
   App.UsePointer pointerdown demoLayout (pointerAt 20 20 InContainer);
   App.UsePointer pointermove demoLayout (pointerAt 120 90 InContainer);
   App.UsePointer pointerup demoLayout (pointerAt 120 90 InContainer)].

(** * Part II: properties *)

(** ** Numbers *)

Lemma Qltb_lt a b : Qltb a b = true <-> a < b.
Proof.
  unfold Qltb. rewrite Qlt_alt. destruct (a ?= b); split; congruence.
Qed.

Lemma Qltb_ge a b : Qltb a b = false <-> b <= a.
Proof.
  rewrite <- not_true_iff_false, Qltb_lt. split.
  - apply Qnot_lt_le.
  - apply Qle_not_lt.
Qed.

(** [Math.max] and [Math.min] return one of their arguments, itself. *)
Lemma Math_max_cases a b :
  (a < b /\ Math_max a b = b) \/ (b <= a /\ Math_max a b = a).
Proof.
  unfold Math_max, Qmax, GenericMinMax.gmax.
  destruct (a ?= b) eqn:E.
  - right. split; [|reflexivity]. apply Qeq_alt in E. rewrite E. apply Qle_refl.
  - left. split; [|reflexivity]. now apply Qlt_alt.
  - right. split; [|reflexivity]. apply Qlt_le_weak. now apply Qgt_alt.
Qed.

Lemma Math_min_cases a b :
  (b < a /\ Math_min a b = b) \/ (a <= b /\ Math_min a b = a).
Proof.
  unfold Math_min, Qmin, GenericMinMax.gmin.
  destruct (a ?= b) eqn:E.
  - right. split; [|reflexivity]. apply Qeq_alt in E. rewrite E. apply Qle_refl.
  - right. split; [|reflexivity]. apply Qlt_le_weak. now apply Qlt_alt.
  - left. split; [|reflexivity]. now apply Qgt_alt.
Qed.

Lemma Math_abs_cases a :
  (0 <= a /\ Math_abs a == a) \/ (a < 0 /\ Math_abs a == - a).
Proof.
  unfold Math_abs. destruct (Qlt_le_dec a 0) as [Hn | Hp].
  - right. split; [assumption|]. apply Qabs_neg. now apply Qlt_le_weak.
  - left. split; [assumption|]. now apply Qabs_pos.
Qed.

(** Case analysis on the tests and on [Math.max] / [Math.min] of the goal. *)
Ltac rect_simpl :=
  cbv zeta;
  cbn [Rect.x Rect.y Rect.width Rect.height
       Rect.set_x Rect.set_y Rect.set_width Rect.set_height
       Point.x Point.y] in *.

Ltac q_plain t :=
  lazymatch t with
  | context [Qltb _ _] => fail
  | context [Qgtb _ _] => fail
  | context [Math_max _ _] => fail
  | context [Math_min _ _] => fail
  | _ => idtac
  end.

Ltac q_case :=
  match goal with
  | |- context [Qgtb ?a ?b] => unfold Qgtb
  | |- context [Qltb ?a ?b] =>
      q_plain a; q_plain b;
      let E := fresh "E" in
      destruct (Qltb a b) eqn:E; [apply Qltb_lt in E | apply Qltb_ge in E]
  | |- context [Math_max ?a ?b] =>
      q_plain a; q_plain b;
      let H := fresh "H" in
      let R := fresh "R" in
      destruct (Math_max_cases a b) as [[H R] | [H R]]; rewrite R; clear R
  | |- context [Math_min ?a ?b] =>
      q_plain a; q_plain b;
      let H := fresh "H" in
      let R := fresh "R" in
      destruct (Math_min_cases a b) as [[H R] | [H R]]; rewrite R; clear R
  end; rect_simpl.

Ltac q_cases := rect_simpl; repeat q_case.

(** ** The constraint pass *)

Lemma constrainRect_bounds W H r :
  0 <= Rect.x (constrainRect W H r) /\
  0 <= Rect.y (constrainRect W H r) /\
  withinOrFloored W (Rect.x (constrainRect W H r)) (Rect.width (constrainRect W H r)) /\
  withinOrFloored H (Rect.y (constrainRect W H r)) (Rect.height (constrainRect W H r)).
Proof.
  destruct r as [x y w h]. unfold constrainRect, withinOrFloored, minSize.
  q_cases; (repeat split); try lra; try (left; lra);
    match goal with
    | |- ?a <= ?b \/ _ =>
        destruct (Qlt_le_dec b a); [right; split; [reflexivity | lra] | left; lra]
    end.
Qed.

Lemma constrainCropBox_bounds_aux s :
  0 <= Rect.x (cropRect (constrainCropBox s)) /\
  0 <= Rect.y (cropRect (constrainCropBox s)) /\
  withinOrFloored (inject_Z (Canvas.width (canvasEl s)))
    (Rect.x (cropRect (constrainCropBox s)))
    (Rect.width (cropRect (constrainCropBox s))) /\
  withinOrFloored (inject_Z (Canvas.height (canvasEl s)))
    (Rect.y (cropRect (constrainCropBox s)))
    (Rect.height (cropRect (constrainCropBox s))).
Proof.
  unfold constrainCropBox. cbn [cropRect set_cropRect].
  apply constrainRect_bounds.
Qed.

(** C1. After [constrainCropBox] the origin of the region is non-negative on
    both axes, and on each axis the far edge [origin + size] is within the
    canvas, except where the minimum-size floor is what sets the size: then
    the size is exactly [minSize] and the canvas leaves less than [minSize]
    after the origin. *)
Theorem constrainCropBox_bounds (s : CropManager) :
  let r := cropRect (constrainCropBox s) in
  let canvasWidth := inject_Z (Canvas.width (canvasEl s)) in
  let canvasHeight := inject_Z (Canvas.height (canvasEl s)) in
  0 <= Rect.x r /\ 0 <= Rect.y r /\
  withinOrFloored canvasWidth (Rect.x r) (Rect.width r) /\
  withinOrFloored canvasHeight (Rect.y r) (Rect.height r).
Proof.
  cbv zeta. apply constrainCropBox_bounds_aux.
Qed.

(** A pointer-move ends with the constraint pass and the update of the
    overlay, when a region is defined by then; the canvas is not touched. *)
Lemma move_ends_with_constraint lay e s :
  exists s1,
    onDrawOrManipulateMove lay e s
    = (if isCropDefined s1 then updateStyle lay (constrainCropBox s1) else s1) /\
    canvasEl s1 = canvasEl s.
Proof.
  eexists. split.
  - unfold onDrawOrManipulateMove. cbv zeta. reflexivity.
  - destruct (isDrawing s).
    + destruct (isCropDefined s) eqn:Hc; cbn [negb andb].
      * rewrite Hc. reflexivity.
      * match goal with |- context [Qgtb ?a 5 || Qgtb ?b 5] =>
          destruct (Qgtb a 5 || Qgtb b 5) end.
        -- reflexivity.
        -- rewrite Hc. reflexivity.
    + destruct (isManipulating s); [|reflexivity].
      destruct (activeHandle s) as [h|]; [|reflexivity].
      destruct (String.eqb h "move"); [reflexivity|].
      destruct (truthy h); reflexivity.
Qed.

(** So the bounds of C1 hold after every pointer-move that leaves a region
    defined. *)
Lemma defined_region_bounds_after_move lay e s :
  isCropDefined (onDrawOrManipulateMove lay e s) = true ->
  let r := cropRect (onDrawOrManipulateMove lay e s) in
  let canvasWidth := inject_Z (Canvas.width (canvasEl s)) in
  let canvasHeight := inject_Z (Canvas.height (canvasEl s)) in
  0 <= Rect.x r /\ 0 <= Rect.y r /\
  withinOrFloored canvasWidth (Rect.x r) (Rect.width r) /\
  withinOrFloored canvasHeight (Rect.y r) (Rect.height r).
Proof.
  cbv zeta. destruct (move_ends_with_constraint lay e s) as (s1 & -> & Hcanvas).
  destruct (isCropDefined s1) eqn:Hdef.
  - intros _. unfold updateStyle. cbn [cropRect set_cropBoxEl].
    rewrite <- Hcanvas. apply constrainCropBox_bounds_aux.
  - intros Hc. rewrite Hdef in Hc. discriminate.
Qed.

(** The exception of C1 is met on an ordinary surface: a region drawn from
    (190, 0) to (200, 50) on a 200 x 200 canvas is widened to the floor and
    ends 20 pixels beyond the right edge. *)
Lemma constrainRect_floor_exceeds_surface :
  constrainRect 200 200 (Rect.mk 190 0 10 50) = Rect.mk 190 0 30 50 /\
  ~ (190 + 30 <= 200).
Proof. split; [vm_compute; reflexivity | lra]. Qed.

(** What the three steps of the specification do, each on one axis. *)
Lemma clampOrigin_spec origin size :
  let axis := SpecConstraint.clampOrigin (origin, size) in
  0 <= fst axis /\
  fst axis + snd axis == origin + size /\
  (origin < 0 -> fst axis = 0) /\
  (0 <= origin -> axis = (origin, size)).
Proof.
  unfold SpecConstraint.clampOrigin. q_cases; cbn [fst snd];
    repeat split; intros; try reflexivity; try lra.
Qed.

Lemma clampFarEdge_spec bound origin size :
  let axis := SpecConstraint.clampFarEdge bound (origin, size) in
  fst axis = origin /\
  snd axis <= size /\
  fst axis + snd axis <= bound /\
  (origin + size <= bound -> snd axis == size).
Proof.
  unfold SpecConstraint.clampFarEdge. q_cases; cbn [fst snd];
    repeat split; intros; try reflexivity; try lra.
Qed.

Lemma enforceMinimum_spec origin size :
  let axis := SpecConstraint.enforceMinimum (origin, size) in
  fst axis = origin /\
  size <= snd axis /\
  minSize <= snd axis /\
  (minSize <= size -> snd axis = size).
Proof.
  unfold SpecConstraint.enforceMinimum, minSize. q_cases; cbn [fst snd];
    repeat split; intros; try reflexivity; try lra.
Qed.

(** C2. [constrainCropBox] computes what the three steps of the
    specification compute, applied in the stated order on each axis: first
    the negative origin is clamped to 0 with the far edge kept, then the far
    edge is clamped to the canvas by shrinking the size, and only then is
    the size raised to [minSize]. *)
Theorem constrainCropBox_refines_spec (s : CropManager) :
  Rect.equiv
    (cropRect (constrainCropBox s))
    (SpecConstraint.constrain
       (inject_Z (Canvas.width (canvasEl s)))
       (inject_Z (Canvas.height (canvasEl s))) (cropRect s)).
Proof.
  unfold constrainCropBox. cbn [cropRect set_cropRect].
  generalize (inject_Z (Canvas.width (canvasEl s))) as W.
  generalize (inject_Z (Canvas.height (canvasEl s))) as H.
  destruct (cropRect s) as [x y w h]. intros H W.
  unfold Rect.equiv, constrainRect, SpecConstraint.constrain,
    SpecConstraint.constrainAxis, SpecConstraint.enforceMinimum,
    SpecConstraint.clampFarEdge, SpecConstraint.clampOrigin, minSize.
  repeat (q_cases; cbn [fst snd]); repeat split; lra.
Qed.

(** The order of the steps matters: with the minimum enforced first, a
    region drawn against the right edge would come out narrower than the
    minimum, where the pass of the program keeps the minimum. *)
Lemma constrain_order_matters :
  SpecConstraint.constrainAxis 200 (190, 10) = (190, 30) /\
  SpecConstraint.constrainAxisMinimumFirst 200 (190, 10) = (190, 10) /\
  Rect.width (constrainRect 200 200 (Rect.mk 190 0 10 50)) = 30.
Proof. vm_compute. repeat split; reflexivity. Qed.

(** ** A drawing gesture that stays within the threshold *)

Lemma removeWindowListeners_released ls :
  ((Window, pointermove, DrawOrManipulateMove) ∉ removeWindowListeners ls) /\
  ((Window, pointerup, DrawOrManipulateEnd) ∉ removeWindowListeners ls) /\
  ((Window, pointercancel, DrawOrManipulateEnd) ∉ removeWindowListeners ls).
Proof. unfold removeWindowListeners, removeEventListener. set_solver. Qed.

Lemma onDrawStart_drawing lay e s :
  closestCropBox (target e) = false ->
  isDrawing (onDrawStart lay e s) = true /\
  isCropDefined (onDrawStart lay e s) = false /\
  isManipulating (onDrawStart lay e s) = false /\
  activeHandle (onDrawStart lay e s) = None /\
  CropBoxEl.hidden (cropBoxEl (onDrawStart lay e s)) = true /\
  ((CropBox, pointerdown, ManipulateStart) ∉ listeners (onDrawStart lay e s)).
Proof.
  intros Hout. unfold onDrawStart. rewrite Hout. cbn.
  repeat split; try reflexivity.
  unfold addWindowListeners, addEventListener, removeEventListener. set_solver.
Qed.

(** A move of an undefined drawing gesture within the threshold changes
    nothing at all. *)
Lemma move_within_threshold lay e s :
  isDrawing s = true -> isCropDefined s = false ->
  withinThreshold (startPointer s) (getNativePointerPosition lay e s) ->
  onDrawOrManipulateMove lay e s = s.
Proof.
  intros Hd Hu [Hx Hy]. unfold onDrawOrManipulateMove. rewrite Hd, Hu.
  cbn [negb andb].
  apply Qltb_ge in Hx, Hy. unfold Qgtb. rewrite Hx, Hy.
  cbn [orb]. repeat (rewrite Hu; cbv beta iota zeta). reflexivity.
Qed.

Lemma moves_within_threshold es s :
  isDrawing s = true -> isCropDefined s = false ->
  Forall (fun le => withinThreshold (startPointer s)
                      (getNativePointerPosition (fst le) (snd le) s)) es ->
  moves es s = s.
Proof.
  intros Hd Hu Hall. induction Hall as [| le es Hle _ IH]; [reflexivity|].
  unfold moves in *. cbn [fold_left].
  rewrite (move_within_threshold _ _ _ Hd Hu Hle). exact IH.
Qed.

(** C3. A drawing gesture whose pointer moves all stay within 5 surface
    pixels of the anchor on both axes never defines a region: [isCropped]
    is false after the pointer-down and after every move, and the handler of
    pointer-up and pointer-cancel leaves the cleared state, with the
    gesture's window listeners released. *)
Theorem small_drag_defines_no_region
  (lay0 : Layout) (e0 : PointerEvent) (s0 : CropManager)
  (es : list (Layout * PointerEvent)) (eEnd : PointerEvent) :
  closestCropBox (target e0) = false ->
  Forall (fun le => withinThreshold (startPointer (onDrawStart lay0 e0 s0))
                      (getNativePointerPosition (fst le) (snd le)
                         (onDrawStart lay0 e0 s0))) es ->
  (forall k, isCropped (moves (take k es) (onDrawStart lay0 e0 s0)) = false) /\
  isCropped (onDrawOrManipulateEnd eEnd (moves es (onDrawStart lay0 e0 s0))) = false /\
  isCleared (onDrawOrManipulateEnd eEnd (moves es (onDrawStart lay0 e0 s0))) /\
  gestureListenersReleased
    (onDrawOrManipulateEnd eEnd (moves es (onDrawStart lay0 e0 s0))).
Proof.
  intros Hout Hall.
  destruct (onDrawStart_drawing lay0 e0 s0 Hout) as (Hd & Hu & Hm & Hh & Hhid & Hl).
  set (s1 := onDrawStart lay0 e0 s0) in *.
  split.
  - intros k. rewrite moves_within_threshold; try assumption.
    apply Forall_take. exact Hall.
  - rewrite (moves_within_threshold es s1 Hd Hu Hall).
    unfold onDrawOrManipulateEnd, isCropped, isCleared, gestureListenersReleased.
    rewrite Hd, Hu. cbn.
    repeat split; try reflexivity; try exact Hhid.
    all: unfold removeWindowListeners, removeEventListener in *; set_solver.
Qed.

Lemma small_drag_defines_no_region_witness :
  closestCropBox (target (pointerAt 100 100 InContainer)) = false /\
  isCropped
    (onDrawOrManipulateEnd (pointerAt 103 98 InContainer)
       (moves [(demoLayout, pointerAt 103 98 InContainer)]
          (onDrawStart demoLayout (pointerAt 100 100 InContainer) demoEditor)))
  = false.
Proof.
  split; [reflexivity|].
  apply (small_drag_defines_no_region demoLayout (pointerAt 100 100 InContainer)
           demoEditor [(demoLayout, pointerAt 103 98 InContainer)]
           (pointerAt 103 98 InContainer)).
  - reflexivity.
  - constructor; [|constructor].
    split; vm_compute; discriminate.
Defined.

(** ** Manipulating a region *)

Ltac state_simpl :=
  unfold updateStyle, constrainCropBox, set_cropRect, set_cropBoxEl;
  cbn [cropRect activeHandle isManipulating isDrawing isCropDefined startPointer
       startCropRect cropBoxEl canvasEl listeners].

(** What a pointer-move does to the region during a manipulation: the rule
    of the active handle, computed from the anchor pointer and the anchor
    region, then the constraint pass if a region is defined. *)
Lemma move_while_manipulating lay e s handle :
  isDrawing s = false -> isManipulating s = true -> activeHandle s = Some handle ->
  let p := getNativePointerPosition lay e s in
  let nativeDx := Point.x p - Point.x (startPointer s) in
  let nativeDy := Point.y p - Point.y (startPointer s) in
  let canvasWidth := inject_Z (Canvas.width (canvasEl s)) in
  let canvasHeight := inject_Z (Canvas.height (canvasEl s)) in
  let r :=
    if String.eqb handle "move"
    then moveRect (startCropRect s) nativeDx nativeDy canvasWidth canvasHeight (cropRect s)
    else if truthy handle
    then resizeRect handle (startCropRect s) nativeDx nativeDy (cropRect s)
    else cropRect s in
  cropRect (onDrawOrManipulateMove lay e s)
  = if isCropDefined s then constrainRect canvasWidth canvasHeight r else r.
Proof.
  intros Hd Hm Hh. cbv zeta. unfold onDrawOrManipulateMove.
  rewrite Hd, Hm, Hh.
  destruct (String.eqb handle "move"); [|destruct (truthy handle)];
    state_simpl; destruct (isCropDefined s); reflexivity.
Qed.

Lemma move_without_handle lay e s :
  isDrawing s = false -> isManipulating s = true -> activeHandle s = None ->
  cropRect (onDrawOrManipulateMove lay e s)
  = if isCropDefined s
    then constrainRect (inject_Z (Canvas.width (canvasEl s)))
           (inject_Z (Canvas.height (canvasEl s))) (cropRect s)
    else cropRect s.
Proof.
  intros Hd Hm Hh. unfold onDrawOrManipulateMove. rewrite Hd, Hm, Hh.
  state_simpl. destruct (isCropDefined s); reflexivity.
Qed.

(** C4. During a manipulation with one of the eight compass handles, a
    pointer-move applies the rule of the handle to the anchor region, with
    the delta taken from the anchor pointer, and then runs the constraint
    pass.  A handle with [e] sets width = anchor width + dx; with [w], width
    = anchor width - dx and x = anchor x + dx; with [s], height = anchor
    height + dy; with [n], height = anchor height - dy and y = anchor y + dy;
    an axis the handle does not name is left as it is.  With handle [nw],
    anchor (10, 10, 50, 50) and delta (-10, -10) the rule gives (0, 0, 60,
    60), and the constraint pass keeps it on a surface that holds it; with
    handle [e] and delta (20, 0) it gives (10, 10, 70, 50). *)
Theorem resize_handle_rules
  (lay : Layout) (e : PointerEvent) (s : CropManager) (handle : string) :
  In handle compassHandles ->
  isDrawing s = false -> isManipulating s = true -> activeHandle s = Some handle ->
  let p := getNativePointerPosition lay e s in
  let dx := Point.x p - Point.x (startPointer s) in
  let dy := Point.y p - Point.y (startPointer s) in
  let anchor := startCropRect s in
  let canvasWidth := inject_Z (Canvas.width (canvasEl s)) in
  let canvasHeight := inject_Z (Canvas.height (canvasEl s)) in
  let r := resizeRect handle anchor dx dy (cropRect s) in
  cropRect (onDrawOrManipulateMove lay e s)
  = (if isCropDefined s then constrainRect canvasWidth canvasHeight r else r) /\
  (includes handle "e" = true -> Rect.width r = Rect.width anchor + dx) /\
  (includes handle "w" = true ->
   Rect.width r = Rect.width anchor - dx /\ Rect.x r = Rect.x anchor + dx) /\
  (includes handle "s" = true -> Rect.height r = Rect.height anchor + dy) /\
  (includes handle "n" = true ->
   Rect.height r = Rect.height anchor - dy /\ Rect.y r = Rect.y anchor + dy) /\
  (includes handle "e" = false -> includes handle "w" = false ->
   Rect.x r = Rect.x (cropRect s) /\ Rect.width r = Rect.width (cropRect s)) /\
  (includes handle "s" = false -> includes handle "n" = false ->
   Rect.y r = Rect.y (cropRect s) /\ Rect.height r = Rect.height (cropRect s)) /\
  (forall r0 W H, 60 <= W -> 60 <= H ->
   resizeRect "nw" (Rect.mk 10 10 50 50) (-10) (-10) r0 = Rect.mk 0 0 60 60 /\
   constrainRect W H (Rect.mk 0 0 60 60) = Rect.mk 0 0 60 60) /\
  resizeRect "e" (Rect.mk 10 10 50 50) 20 0 (Rect.mk 10 10 50 50)
  = Rect.mk 10 10 70 50.
Proof.
  intros Hin Hd Hm Hh. cbv zeta. split.
  - rewrite (move_while_manipulating lay e s handle Hd Hm Hh). cbv zeta.
    replace (String.eqb handle "move") with false.
    + replace (truthy handle) with true; [reflexivity|].
      cbn in Hin. intuition (subst; reflexivity).
    + cbn in Hin. intuition (subst; reflexivity).
  - cbn in Hin.
    repeat match goal with H : _ \/ _ |- _ => destruct H as [H | H] end;
      try contradiction; subst handle; unfold resizeRect;
      cbn [includes String.prefix orb Ascii.eqb Bool.eqb]; rect_simpl;
      repeat split; intros; try reflexivity; try discriminate.
    all: unfold constrainRect, minSize; q_cases; try reflexivity; lra.
Qed.

Lemma resize_handle_rules_witness :
  In "nw"%string compassHandles /\
  Rect.equiv
    (cropRect (onDrawOrManipulateMove demoLayout (pointerAt 50 50 OnCropBox)
                 (demoManipulating (Some "nw"%string))))
    (Rect.mk 0 0 60 60).
Proof.
  assert (Hin : In "nw"%string compassHandles) by (cbn; tauto).
  split; [exact Hin|].
  destruct (resize_handle_rules demoLayout (pointerAt 50 50 OnCropBox)
              (demoManipulating (Some "nw"%string)) "nw" Hin
              eq_refl eq_refl eq_refl) as [Hrect _].
  rewrite Hrect. vm_compute. repeat split; reflexivity.
Defined.

(** The constraint pass leaves alone a rectangle that is inside the surface
    and at least the minimum on both axes. *)
Lemma constrainRect_fixed W H r :
  0 <= Rect.x r -> 0 <= Rect.y r ->
  Rect.x r + Rect.width r <= W -> Rect.y r + Rect.height r <= H ->
  minSize <= Rect.width r -> minSize <= Rect.height r ->
  constrainRect W H r = r.
Proof.
  destruct r as [x y w h]. unfold constrainRect, minSize. rect_simpl. intros.
  q_cases; try reflexivity; lra.
Qed.

(** The constraint pass never moves an origin that is not negative. *)
Lemma constrainRect_origin W H r :
  0 <= Rect.x r -> 0 <= Rect.y r ->
  Rect.x (constrainRect W H r) = Rect.x r /\ Rect.y (constrainRect W H r) = Rect.y r.
Proof.
  destruct r as [x y w h]. unfold constrainRect, minSize. rect_simpl. intros.
  q_cases; split; try reflexivity; lra.
Qed.

Lemma moveRect_origin a dx dy W H r :
  0 <= Rect.x (moveRect a dx dy W H r) /\ 0 <= Rect.y (moveRect a dx dy W H r) /\
  Rect.width (moveRect a dx dy W H r) = Rect.width r /\
  Rect.height (moveRect a dx dy W H r) = Rect.height r.
Proof.
  unfold moveRect. q_cases; repeat split; try reflexivity; lra.
Qed.

Lemma moveRect_clamped a dx dy W H r :
  (Rect.width r <= W ->
   Rect.x (moveRect a dx dy W H r) == clampTo 0 (W - Rect.width r) (Rect.x a + dx)) /\
  (Rect.height r <= H ->
   Rect.y (moveRect a dx dy W H r) == clampTo 0 (H - Rect.height r) (Rect.y a + dy)).
Proof.
  unfold moveRect, clampTo. split; intros Hfit; q_cases; lra.
Qed.

(** C5. During a manipulation with the [move] handle, a pointer-move, with
    the constraint pass that follows it, puts the origin at the anchor
    origin plus the pointer delta, each axis clamped on its own to
    [0, surface size - region size] (an interval when the region is no
    larger than the surface on that axis).  With anchor (10, 10, 50, 50) on
    a 200 x 200 surface and delta (300, 0) the region becomes
    (150, 10, 50, 50). *)
Theorem move_handle_rule (lay : Layout) (e : PointerEvent) (s : CropManager) :
  isDrawing s = false -> isManipulating s = true ->
  activeHandle s = Some "move"%string ->
  let p := getNativePointerPosition lay e s in
  let dx := Point.x p - Point.x (startPointer s) in
  let dy := Point.y p - Point.y (startPointer s) in
  let anchor := startCropRect s in
  let surfaceWidth := inject_Z (Canvas.width (canvasEl s)) in
  let surfaceHeight := inject_Z (Canvas.height (canvasEl s)) in
  let r' := cropRect (onDrawOrManipulateMove lay e s) in
  (Rect.width (cropRect s) <= surfaceWidth ->
   Rect.x r' == clampTo 0 (surfaceWidth - Rect.width (cropRect s)) (Rect.x anchor + dx)) /\
  (Rect.height (cropRect s) <= surfaceHeight ->
   Rect.y r' == clampTo 0 (surfaceHeight - Rect.height (cropRect s)) (Rect.y anchor + dy)) /\
  constrainRect 200 200
    (moveRect (Rect.mk 10 10 50 50) 300 0 200 200 (Rect.mk 10 10 50 50))
  = Rect.mk 150 10 50 50.
Proof.
  intros Hd Hm Hh. cbv zeta.
  rewrite (move_while_manipulating lay e s "move" Hd Hm Hh). cbv zeta.
  change (String.eqb "move" "move") with true. cbv iota.
  set (a := startCropRect s).
  set (dx := Point.x _ - _). set (dy := Point.y _ - _).
  set (W := inject_Z (Canvas.width _)). set (H := inject_Z (Canvas.height _)).
  destruct (moveRect_origin a dx dy W H (cropRect s)) as (Hx & Hy & _ & _).
  destruct (moveRect_clamped a dx dy W H (cropRect s)) as [Hcx Hcy].
  destruct (constrainRect_origin W H _ Hx Hy) as [Ex Ey].
  split; [|split].
  - intros Hfit. destruct (isCropDefined s); [rewrite Ex|]; exact (Hcx Hfit).
  - intros Hfit. destruct (isCropDefined s); [rewrite Ey|]; exact (Hcy Hfit).
  - vm_compute. reflexivity.
Qed.

Lemma move_handle_rule_witness :
  Rect.width (cropRect (demoManipulating (Some "move"%string))) <= 200 /\
  Rect.x (cropRect (onDrawOrManipulateMove demoLayout (pointerAt 200 60 OnCropBox)
                      (demoManipulating (Some "move"%string))))
  == 150.
Proof.
  assert (Hfit : Rect.width (cropRect (demoManipulating (Some "move"%string)))
                 <= inject_Z (Canvas.width (canvasEl (demoManipulating (Some "move"%string)))))
    by (vm_compute; discriminate).
  split; [vm_compute; discriminate|].
  destruct (move_handle_rule demoLayout (pointerAt 200 60 OnCropBox)
              (demoManipulating (Some "move"%string)) eq_refl eq_refl eq_refl)
    as [Hx _].
  rewrite (Hx Hfit). vm_compute. reflexivity.
Defined.

(** ** The [move] handle keeps the size *)

(** A pointer-move outside a drawing gesture touches nothing but the region
    and the style of the overlay. *)
Lemma move_frame lay e s :
  isDrawing s = false ->
  let s' := onDrawOrManipulateMove lay e s in
  isDrawing s' = false /\ isManipulating s' = isManipulating s /\
  activeHandle s' = activeHandle s /\ isCropDefined s' = isCropDefined s /\
  startPointer s' = startPointer s /\ startCropRect s' = startCropRect s /\
  canvasEl s' = canvasEl s /\ listeners s' = listeners s.
Proof.
  intros Hd. cbv zeta. unfold onDrawOrManipulateMove. rewrite Hd.
  destruct (isManipulating s) eqn:Hm; [destruct (activeHandle s) as [h|] eqn:Hh|].
  - destruct (String.eqb h "move"); [|destruct (truthy h)];
      state_simpl; destruct (isCropDefined s) eqn:Hc; state_simpl;
      rewrite ?Hd, ?Hm, ?Hh, ?Hc; repeat split; reflexivity.
  - state_simpl; destruct (isCropDefined s) eqn:Hc; state_simpl;
      rewrite ?Hd, ?Hm, ?Hh, ?Hc; repeat split; reflexivity.
  - state_simpl; destruct (isCropDefined s) eqn:Hc; state_simpl;
      rewrite ?Hd, ?Hm, ?Hc; repeat split; reflexivity.
Qed.

(** One pointer-move with the [move] handle on a region that fits. *)
Lemma move_step_keeps_size lay e s :
  isDrawing s = false -> isManipulating s = true ->
  activeHandle s = Some "move"%string ->
  minSize <= Rect.width (cropRect s) ->
  Rect.width (cropRect s) <= inject_Z (Canvas.width (canvasEl s)) ->
  minSize <= Rect.height (cropRect s) ->
  Rect.height (cropRect s) <= inject_Z (Canvas.height (canvasEl s)) ->
  Rect.width (cropRect (onDrawOrManipulateMove lay e s)) = Rect.width (cropRect s) /\
  Rect.height (cropRect (onDrawOrManipulateMove lay e s)) = Rect.height (cropRect s).
Proof.
  intros Hd Hm Hh Hw1 Hw2 Hh1 Hh2.
  rewrite (move_while_manipulating lay e s "move" Hd Hm Hh). cbv zeta.
  change (String.eqb "move" "move") with true. cbv iota.
  set (a := startCropRect s).
  set (dx := Point.x _ - _). set (dy := Point.y _ - _).
  set (W := inject_Z (Canvas.width _)) in *.
  set (H := inject_Z (Canvas.height _)) in *.
  destruct (moveRect_origin a dx dy W H (cropRect s)) as (Hx & Hy & Ew & Eh).
  destruct (isCropDefined s); [|split; assumption].
  rewrite constrainRect_fixed; [split; assumption | assumption | assumption | | | |].
  - rewrite Ew. unfold moveRect. q_cases; lra.
  - rewrite Eh. unfold moveRect. q_cases; lra.
  - rewrite Ew. exact Hw1.
  - rewrite Eh. exact Hh1.
Qed.

Lemma move_keeps_gesture anchor canvas lay e s :
  minSize <= Rect.width anchor ->
  Rect.width anchor <= inject_Z (Canvas.width canvas) ->
  minSize <= Rect.height anchor ->
  Rect.height anchor <= inject_Z (Canvas.height canvas) ->
  inMoveGesture anchor canvas s ->
  inMoveGesture anchor canvas (onDrawOrManipulateMove lay e s).
Proof.
  intros Hw1 Hw2 Hh1 Hh2 (Hd & Hm & Hh & Hc & Ha & Ew & Eh).
  destruct (move_frame lay e s Hd) as (Hd' & Hm' & Hh' & _ & _ & Ha' & Hc' & _).
  destruct (move_step_keeps_size lay e s Hd Hm Hh) as [Ew' Eh'];
    rewrite ?Hc, ?Ew, ?Eh; try assumption.
  unfold inMoveGesture.
  rewrite Hd', Hm', Hh', Hc', Ha', Ew', Eh'. repeat split; assumption.
Qed.

Lemma moves_keep_gesture anchor canvas es s :
  minSize <= Rect.width anchor ->
  Rect.width anchor <= inject_Z (Canvas.width canvas) ->
  minSize <= Rect.height anchor ->
  Rect.height anchor <= inject_Z (Canvas.height canvas) ->
  inMoveGesture anchor canvas s ->
  inMoveGesture anchor canvas (moves es s).
Proof.
  intros Hw1 Hw2 Hh1 Hh2. revert s.
  induction es as [| [lay e] es IH]; intros s Hs; [exact Hs|].
  unfold moves in *. cbn [fold_left fst snd].
  apply IH. now apply move_keeps_gesture.
Qed.

(** C10. In a gesture with the [move] handle whose anchor region fits the
    surface (each side at least [minSize] and at most the surface's), every
    pointer-move, with the constraint pass that follows it, leaves the width
    and the height of the region exactly as they were: before the move they
    are the anchor's, and after it too. *)
Theorem move_gesture_keeps_size
  (lay0 : Layout) (e0 : PointerEvent) (s0 : CropManager)
  (es : list (Layout * PointerEvent)) (lay : Layout) (e : PointerEvent) :
  isDrawing s0 = false ->
  handleOf (target e0) = Some "move"%string ->
  minSize <= Rect.width (cropRect s0) ->
  Rect.width (cropRect s0) <= inject_Z (Canvas.width (canvasEl s0)) ->
  minSize <= Rect.height (cropRect s0) ->
  Rect.height (cropRect s0) <= inject_Z (Canvas.height (canvasEl s0)) ->
  let before := moves es (onManipulateStart lay0 e0 s0) in
  let after := onDrawOrManipulateMove lay e before in
  startCropRect before = cropRect s0 /\
  Rect.width (cropRect before) = Rect.width (cropRect s0) /\
  Rect.height (cropRect before) = Rect.height (cropRect s0) /\
  Rect.width (cropRect after) = Rect.width (cropRect before) /\
  Rect.height (cropRect after) = Rect.height (cropRect before).
Proof.
  intros Hd Hh Hw1 Hw2 Hh1 Hh2. cbv zeta.
  assert (Hstart : inMoveGesture (cropRect s0) (canvasEl s0)
                     (onManipulateStart lay0 e0 s0)).
  { unfold inMoveGesture, onManipulateStart. cbn. rewrite Hd, Hh.
    repeat split; reflexivity. }
  pose proof (moves_keep_gesture _ _ es _ Hw1 Hw2 Hh1 Hh2 Hstart) as Hbefore.
  pose proof (move_keeps_gesture _ _ lay e _ Hw1 Hw2 Hh1 Hh2 Hbefore) as Hafter.
  destruct Hbefore as (_ & _ & _ & _ & Ha & Ew & Eh).
  destruct Hafter as (_ & _ & _ & _ & _ & Ew' & Eh').
  rewrite Ha, Ew, Eh, Ew', Eh'. repeat split; reflexivity.
Qed.

Lemma move_gesture_keeps_size_witness :
  minSize <= Rect.width (cropRect demoIdle) /\
  Rect.width
    (cropRect
       (onDrawOrManipulateMove demoLayout (pointerAt 200 200 OnCropBox)
          (moves [(demoLayout, pointerAt 0 0 OnCropBox)]
             (onManipulateStart demoLayout (pointerAt 30 30 OnCropBox) demoIdle))))
  = Rect.width (cropRect demoIdle).
Proof.
  assert (Hw1 : minSize <= Rect.width (cropRect demoIdle)) by (vm_compute; discriminate).
  split; [exact Hw1|].
  destruct (move_gesture_keeps_size demoLayout (pointerAt 30 30 OnCropBox) demoIdle
              [(demoLayout, pointerAt 0 0 OnCropBox)]
              demoLayout (pointerAt 200 200 OnCropBox)) as (_ & Ew & _ & Ew' & _).
  - reflexivity.
  - reflexivity.
  - exact Hw1.
  - vm_compute; discriminate.
  - vm_compute; discriminate.
  - vm_compute; discriminate.
  - rewrite Ew'. exact Ew.
Defined.

(** ** Handles that are not compass directions *)

Lemma resizeRect_unnamed_axis handle a dx dy r :
  (includes handle "e" = false -> includes handle "w" = false ->
   Rect.x (resizeRect handle a dx dy r) = Rect.x r /\
   Rect.width (resizeRect handle a dx dy r) = Rect.width r) /\
  (includes handle "s" = false -> includes handle "n" = false ->
   Rect.y (resizeRect handle a dx dy r) = Rect.y r /\
   Rect.height (resizeRect handle a dx dy r) = Rect.height r).
Proof.
  unfold resizeRect.
  destruct (includes handle "e"), (includes handle "w"),
    (includes handle "s"), (includes handle "n");
    rect_simpl; split; intros; try discriminate; split; reflexivity.
Qed.

Lemma resizeRect_no_direction handle a dx dy r :
  namesNoDirection handle -> resizeRect handle a dx dy r = r.
Proof.
  intros (He & Hw & Hs & Hn). unfold resizeRect. rewrite He, Hw, Hs, Hn.
  reflexivity.
Qed.

(** C9, as the program has it.  During a manipulation whose active handle is
    not [move], a pointer-move leaves alone every axis that the handle's
    name does not mention: without the letters [e] and [w] the delta rules
    keep x and width, without [s] and [n] they keep y and height, and a
    handle with none of the four letters (or no handle) leaves the region to
    the constraint pass unchanged.  The rules go by the letters in the name,
    not by the eight known names. *)
Theorem unnamed_direction_is_noop
  (lay : Layout) (e : PointerEvent) (s : CropManager) (handle : string) :
  isDrawing s = false -> isManipulating s = true ->
  activeHandle s = Some handle -> handle <> "move"%string ->
  let p := getNativePointerPosition lay e s in
  let dx := Point.x p - Point.x (startPointer s) in
  let dy := Point.y p - Point.y (startPointer s) in
  let canvasWidth := inject_Z (Canvas.width (canvasEl s)) in
  let canvasHeight := inject_Z (Canvas.height (canvasEl s)) in
  let r := if truthy handle
           then resizeRect handle (startCropRect s) dx dy (cropRect s)
           else cropRect s in
  cropRect (onDrawOrManipulateMove lay e s)
  = (if isCropDefined s then constrainRect canvasWidth canvasHeight r else r) /\
  (includes handle "e" = false -> includes handle "w" = false ->
   Rect.x r = Rect.x (cropRect s) /\ Rect.width r = Rect.width (cropRect s)) /\
  (includes handle "s" = false -> includes handle "n" = false ->
   Rect.y r = Rect.y (cropRect s) /\ Rect.height r = Rect.height (cropRect s)) /\
  (namesNoDirection handle -> r = cropRect s) /\
  cropRect (onDrawOrManipulateMove lay e (set_activeHandle None s))
  = (if isCropDefined s then constrainRect canvasWidth canvasHeight (cropRect s)
     else cropRect s).
Proof.
  intros Hd Hm Hh Hne. cbv zeta.
  rewrite (move_while_manipulating lay e s handle Hd Hm Hh). cbv zeta.
  replace (String.eqb handle "move") with false
    by (symmetry; apply String.eqb_neq; exact Hne).
  split; [reflexivity|].
  split; [|split; [|split]].
  - destruct (truthy handle); [apply resizeRect_unnamed_axis|].
    intros; split; reflexivity.
  - destruct (truthy handle); [apply resizeRect_unnamed_axis|].
    intros; split; reflexivity.
  - destruct (truthy handle); [apply resizeRect_no_direction|reflexivity].
  - apply (move_without_handle lay e (set_activeHandle None s)).
    + exact Hd.
    + exact Hm.
    + reflexivity.
Qed.

Lemma unnamed_direction_is_noop_witness :
  "top"%string <> "move"%string /\
  cropRect (onDrawOrManipulateMove demoLayout (pointerAt 80 80 OnCropBox)
              (demoManipulating (Some "top"%string)))
  = Rect.mk 10 10 50 50.
Proof.
  split; [discriminate|].
  destruct (unnamed_direction_is_noop demoLayout (pointerAt 80 80 OnCropBox)
              (demoManipulating (Some "top"%string)) "top"
              eq_refl eq_refl eq_refl) as (Hr & _ & _ & Hsame & _).
  - discriminate.
  - rewrite Hr.
    rewrite Hsame by (repeat split; reflexivity).
    vm_compute. reflexivity.
Defined.

(** The claim as the specification words it fails: the handle name [east]
    is neither [move] nor one of the eight compass names, and a pointer-move
    20 pixels right and down resizes the region (10, 10, 50, 50) to
    (10, 10, 70, 70), a region the constraint pass had left alone. *)
Lemma unknown_handle_east_resizes :
  "east"%string <> "move"%string /\
  ~ In "east"%string compassHandles /\
  constrainRect 200 200 (cropRect (demoManipulating (Some "east"%string)))
  = cropRect (demoManipulating (Some "east"%string)) /\
  Rect.equiv
    (cropRect (onDrawOrManipulateMove demoLayout (pointerAt 80 80 OnCropBox)
                 (demoManipulating (Some "east"%string))))
    (Rect.mk 10 10 70 70) /\
  ~ Rect.equiv
      (cropRect (onDrawOrManipulateMove demoLayout (pointerAt 80 80 OnCropBox)
                   (demoManipulating (Some "east"%string))))
      (cropRect (demoManipulating (Some "east"%string))).
Proof.
  split; [discriminate|].
  split; [cbn; intuition discriminate|].
  split; [vm_compute; reflexivity|].
  split.
  - vm_compute. repeat split; reflexivity.
  - intros (_ & _ & Hw & _). vm_compute in Hw. discriminate.
Qed.

(** ** Projection between the screen and the surface *)

Lemma scale_there_and_back (d W rw : Q) :
  0 < W -> 0 < rw -> d * (W / rw) * (rw / W) == d.
Proof. intros HW Hrw. field. split; lra. Qed.

Lemma scaled_within (d W rw : Q) :
  0 < W -> 0 < rw -> 0 <= d -> d <= rw ->
  0 <= d * (W / rw) /\ d * (W / rw) <= W.
Proof.
  intros HW Hrw Hd0 Hd1.
  assert (Hk : 0 < W / rw).
  { unfold Qdiv. apply Qmult_lt_0_compat; [exact HW|]. now apply Qinv_lt_0_compat. }
  split.
  - apply Qmult_le_0_compat; [exact Hd0 | now apply Qlt_le_weak].
  - assert (E : rw * (W / rw) == W) by (field; lra).
    rewrite <- E at 2. apply Qmult_le_compat_r; [exact Hd1 | now apply Qlt_le_weak].
Qed.

(** The round trip in the coordinates of the container: what [updateStyle]
    writes into the style of the overlay for the surface point that
    [getNativePointerPosition] reads from the pointer. *)
Lemma round_trip_in_container lay e s :
  0 < inject_Z (Canvas.width (canvasEl s)) ->
  0 < DOMRect.width (canvasRect lay) ->
  uniformScale lay (canvasEl s) ->
  inRenderedBox lay (clientX e) (clientY e) ->
  let back := toDisplay lay (getNativePointerPosition lay e s) s in
  Point.x back == clientX e - DOMRect.left (containerRect lay) /\
  Point.y back == clientY e - DOMRect.top (containerRect lay).
Proof.
  intros HW Hrw Hu (Hx0 & Hx1 & Hy0 & Hy1). cbv zeta.
  unfold toDisplay, updateStyle, getNativePointerPosition, set_cropBoxEl, set_cropRect.
  cbn [cropBoxEl cropRect canvasEl CropBoxEl.translateX CropBoxEl.translateY
       Point.x Point.y Rect.x Rect.y].
  unfold uniformScale in Hu.
  set (W := inject_Z (Canvas.width (canvasEl s))) in *.
  set (H := inject_Z (Canvas.height (canvasEl s))) in *.
  destruct lay as [[l t rw rh] [cl ct cw ch]].
  cbn [canvasRect containerRect DOMRect.left DOMRect.top DOMRect.width DOMRect.height] in *.
  destruct (scaled_within (clientX e - l) W rw HW Hrw) as [Hsx0 Hsx1]; try lra.
  assert (Hsy : 0 <= (clientY e - t) * (W / rw) /\ (clientY e - t) * (W / rw) <= H).
  { assert (Hk : 0 < W / rw).
    { unfold Qdiv. apply Qmult_lt_0_compat; [exact HW|]. now apply Qinv_lt_0_compat. }
    split.
    - apply Qmult_le_0_compat; [lra | now apply Qlt_le_weak].
    - assert (E : rh * (W / rw) == H).
      { unfold Qdiv. rewrite Qmult_assoc, Hu. field. lra. }
      rewrite <- E. apply Qmult_le_compat_r; [lra | now apply Qlt_le_weak]. }
  destruct Hsy as [Hsy0 Hsy1].
  pose proof (scale_there_and_back (clientX e - l) W rw HW Hrw) as Ex.
  pose proof (scale_there_and_back (clientY e - t) W rw HW Hrw) as Ey.
  split.
  - destruct (Math_min_cases ((clientX e - l) * (W / rw)) W) as [[Hm R] | [Hm R]];
      rewrite R; clear R.
    + lra.
    + destruct (Math_max_cases 0 ((clientX e - l) * (W / rw))) as [[Hn R] | [Hn R]];
        rewrite R; clear R.
      * rewrite Ex. ring.
      * assert (Ez : (clientX e - l) * (W / rw) == 0) by lra.
        rewrite Ez in Ex. lra.
  - destruct (Math_min_cases ((clientY e - t) * (W / rw)) H) as [[Hm R] | [Hm R]];
      rewrite R; clear R.
    + lra.
    + destruct (Math_max_cases 0 ((clientY e - t) * (W / rw))) as [[Hn R] | [Hn R]];
        rewrite R; clear R.
      * rewrite Ey. ring.
      * assert (Ez : (clientY e - t) * (W / rw) == 0) by lra.
        rewrite Ez in Ey. lra.
Qed.

(** C7.  For a point [p] of the screen within the rendered box of a canvas
    shown at one scale on both axes (both widths positive), projecting [p]
    to the surface and the result back to the screen gives [p], exactly in
    rational arithmetic: the overlay, translated within the container by
    what [updateStyle] computes for the surface point read from the
    pointer, appears on the screen at [p]. *)
Theorem projection_round_trip (lay : Layout) (e : PointerEvent) (s : CropManager) :
  0 < inject_Z (Canvas.width (canvasEl s)) ->
  0 < DOMRect.width (canvasRect lay) ->
  uniformScale lay (canvasEl s) ->
  inRenderedBox lay (clientX e) (clientY e) ->
  let back := overlayOnScreen lay
                (toDisplay lay (getNativePointerPosition lay e s) s) in
  Point.x back == clientX e /\ Point.y back == clientY e.
Proof.
  intros HW Hrw Hu Hbox. cbv zeta.
  destruct (round_trip_in_container lay e s HW Hrw Hu Hbox) as [Ex Ey].
  unfold overlayOnScreen. cbn [Point.x Point.y]. split; lra.
Qed.

Lemma projection_round_trip_witness :
  0 < inject_Z (Canvas.width (canvasEl demoIdle)) /\
  0 < DOMRect.width (canvasRect offsetLayout) /\
  uniformScale offsetLayout (canvasEl demoIdle) /\
  inRenderedBox offsetLayout 50 50 /\
  Point.x (overlayOnScreen offsetLayout
             (toDisplay offsetLayout
                (getNativePointerPosition offsetLayout (pointerAt 50 50 InContainer)
                   demoIdle)
                demoIdle))
  == 50.
Proof.
  assert (HW : 0 < inject_Z (Canvas.width (canvasEl demoIdle)))
    by (vm_compute; reflexivity).
  assert (Hrw : 0 < DOMRect.width (canvasRect offsetLayout))
    by (vm_compute; reflexivity).
  assert (Hu : uniformScale offsetLayout (canvasEl demoIdle))
    by (vm_compute; reflexivity).
  assert (Hbox : inRenderedBox offsetLayout 50 50)
    by (repeat split; vm_compute; discriminate).
  split; [exact HW|]. split; [exact Hrw|]. split; [exact Hu|]. split; [exact Hbox|].
  pose proof (projection_round_trip offsetLayout (pointerAt 50 50 InContainer)
                demoIdle HW Hrw Hu Hbox) as Hthm.
  cbv zeta in Hthm. destruct Hthm as [Hx _]. exact Hx.
Defined.

(** The same round trip step by step, where the container does not start
    at the origin of the page: with the canvas 20 pixels from the left,
    shown at half size in a container 10 pixels from the left, the point
    (50, 50) of the screen goes to (60, 100) on the surface; the overlay is
    translated by 40 within the container, which puts it at 50 on the
    screen.  All values are small dyadic rationals. *)
Lemma round_trip_offset_layout :
  Rect.equiv
    (Rect.mk
       (Point.x (getNativePointerPosition offsetLayout (pointerAt 50 50 InContainer) demoIdle))
       (Point.y (getNativePointerPosition offsetLayout (pointerAt 50 50 InContainer) demoIdle))
       0 0)
    (Rect.mk 60 100 0 0) /\
  Point.x (toDisplay offsetLayout
             (getNativePointerPosition offsetLayout (pointerAt 50 50 InContainer) demoIdle)
             demoIdle) == 40 /\
  DOMRect.left (containerRect offsetLayout) + 40 == clientX (pointerAt 50 50 InContainer).
Proof.
  split; [vm_compute; repeat split; reflexivity|].
  split; vm_compute; reflexivity.
Qed.

(** ** Committing the crop *)

Lemma toUnsignedLong_range q : (0 <= toUnsignedLong q < 2 ^ 32)%Z.
Proof. unfold toUnsignedLong. apply Z.mod_pos_bound. reflexivity. Qed.

Lemma toUnsignedLong_inject_Z z : toUnsignedLong (inject_Z z) = (z mod 2 ^ 32)%Z.
Proof. unfold toUnsignedLong. cbn [inject_Z Qnum Qden]. now rewrite Z.quot_1_r. Qed.

Lemma toUnsignedLong_idempotent q :
  toUnsignedLong (inject_Z (toUnsignedLong q)) = toUnsignedLong q.
Proof.
  rewrite toUnsignedLong_inject_Z. apply Z.mod_small. apply toUnsignedLong_range.
Qed.

Lemma isInteger_inject_Z z : isInteger (inject_Z z) = true.
Proof.
  unfold isInteger. cbn [inject_Z Qnum Qden]. now rewrite Z.rem_1_r.
Qed.

(** An integer is its own floor, and the conversion to [unsigned long] keeps
    it when it is below 2^32 and not negative. *)
Lemma isInteger_floor q : isInteger q = true -> inject_Z (Qfloor q) == q.
Proof.
  unfold isInteger, Qfloor, Qeq. destruct q as [n d]. cbn [Qnum Qden inject_Z].
  intros Hrem. apply Z.eqb_eq in Hrem.
  apply Z.rem_mod_eq_0 in Hrem; [|discriminate].
  pose proof (Z.div_mod n (Zpos d)) as Hdm. lia.
Qed.

Lemma isInteger_toUnsignedLong q :
  isInteger q = true -> 0 <= q -> q < inject_Z (2 ^ 32) ->
  toUnsignedLong q = Qfloor q.
Proof.
  intros Hint Hlo Hhi.
  pose proof (isInteger_floor q Hint) as Hfl.
  assert (Hrange : (0 <= Qfloor q < 2 ^ 32)%Z).
  { split.
    - rewrite Zle_Qle. rewrite Hfl. exact Hlo.
    - rewrite Zlt_Qlt. rewrite Hfl. exact Hhi. }
  unfold toUnsignedLong.
  replace (Z.quot (Qnum q) (Zpos (Qden q))) with (Qfloor q).
  - now apply Z.mod_small.
  - unfold Qfloor. destruct q as [n d]. cbn [Qnum Qden] in *.
    unfold isInteger in Hint. cbn [Qnum Qden] in Hint. apply Z.eqb_eq in Hint.
    pose proof (Z.quot_rem' n (Zpos d)) as Hqr. rewrite Hint in Hqr.
    rewrite Z.add_0_r in Hqr. rewrite Hqr at 1.
    rewrite Z.mul_comm. apply Z.div_mul. discriminate.
Qed.

Section CommitProperties.

Variable resample :
  Canvas.t -> Q -> Q -> Q -> Q -> Q -> Q -> Q -> Q -> Canvas.t -> Z -> Z -> Pixel.

Lemma applyCropToCanvas_undefined s :
  isCropped s = false -> applyCropToCanvas resample s = s.
Proof. intros Hu. unfold applyCropToCanvas. now rewrite Hu. Qed.

Lemma drawImage_width src sx sy sw sh dx dy dw dh dst :
  Canvas.width (drawImage resample src sx sy sw sh dx dy dw dh dst) = Canvas.width dst.
Proof.
  unfold drawImage.
  destruct (Qeq_bool sw 0 || Qeq_bool sh 0); [reflexivity|].
  match goal with |- context [if ?c then _ else _] => destruct c end; reflexivity.
Qed.

Lemma drawImage_height src sx sy sw sh dx dy dw dh dst :
  Canvas.height (drawImage resample src sx sy sw sh dx dy dw dh dst) = Canvas.height dst.
Proof.
  unfold drawImage.
  destruct (Qeq_bool sw 0 || Qeq_bool sh 0); [reflexivity|].
  match goal with |- context [if ?c then _ else _] => destruct c end; reflexivity.
Qed.

(** The size of the canvas after a commit: the size of the region, converted
    to [unsigned long]. *)
Lemma applyCropToCanvas_size s :
  isCropped s = true ->
  Canvas.width (canvasEl (applyCropToCanvas resample s))
  = toUnsignedLong (Rect.width (cropRect s)) /\
  Canvas.height (canvasEl (applyCropToCanvas resample s))
  = toUnsignedLong (Rect.height (cropRect s)).
Proof.
  intros Hdef. unfold applyCropToCanvas. rewrite Hdef. cbn [negb].
  cbv zeta. unfold set_canvasEl. cbn [canvasEl]. unfold drawImage3.
  rewrite ?drawImage_width, ?drawImage_height.
  unfold Canvas.create, Canvas.set_height, Canvas.set_width.
  cbn [Canvas.width Canvas.height].
  rewrite ?drawImage_width, ?drawImage_height.
  cbn [Canvas.width Canvas.height].
  split; apply toUnsignedLong_idempotent.
Qed.

(** [drawImage] between whole-pixel rectangles of one size, painted at the
    origin of the destination: a pixel-exact copy, clipped to the source. *)
Lemma drawImage_whole_pixels src sx sy sw sh dst i j :
  isInteger sx = true -> isInteger sy = true ->
  isInteger sw = true -> isInteger sh = true ->
  0 < sw -> 0 < sh ->
  Canvas.bitmap (drawImage resample src sx sy sw sh 0 0 sw sh dst) i j
  = if ((0 <=? i) && (i <? Qfloor sw) && (0 <=? j) && (j <? Qfloor sh))%Z
       && Canvas.inside src (i + Qfloor sx) (j + Qfloor sy)
    then Canvas.bitmap src (i + Qfloor sx)%Z (j + Qfloor sy)%Z
    else Canvas.bitmap dst i j.
Proof.
  intros Hx Hy Hw Hh Hwpos Hhpos. unfold drawImage.
  assert (Ew : Qeq_bool sw 0 = false).
  { apply not_true_iff_false. rewrite Qeq_bool_iff. lra. }
  assert (Eh : Qeq_bool sh 0 = false).
  { apply not_true_iff_false. rewrite Qeq_bool_iff. lra. }
  rewrite Ew, Eh, Hx, Hy, Hw, Hh.
  rewrite !Qeq_bool_refl.
  apply Qltb_lt in Hwpos, Hhpos. rewrite Hwpos, Hhpos.
  change (isInteger 0) with true. change (Qfloor 0) with 0%Z.
  cbn [orb andb Canvas.bitmap].
  rewrite !Z.sub_0_r, !Z.add_0_l. reflexivity.
Qed.

(** The content of the canvas after the commit of a whole-pixel region:
    each pixel is the pixel of the source at the same offset in the region,
    and transparent where the region reaches beyond the source. *)
Lemma applyCropToCanvas_pixels s i j :
  isCropped s = true -> wholePixels (cropRect s) ->
  0 < Rect.width (cropRect s) -> Rect.width (cropRect s) < inject_Z (2 ^ 32) ->
  0 < Rect.height (cropRect s) -> Rect.height (cropRect s) < inject_Z (2 ^ 32) ->
  (0 <= i < Qfloor (Rect.width (cropRect s)))%Z ->
  (0 <= j < Qfloor (Rect.height (cropRect s)))%Z ->
  Canvas.getPixel (canvasEl (applyCropToCanvas resample s)) i j
  = Canvas.getPixel (canvasEl s)
      (Qfloor (Rect.x (cropRect s)) + i) (Qfloor (Rect.y (cropRect s)) + j).
Proof.
  intros Hdef (Hx & Hy & Hw & Hh) Hw0 Hw1 Hh0 Hh1 Hi Hj.
  destruct (applyCropToCanvas_size s Hdef) as [Ewidth Eheight].
  rewrite (isInteger_toUnsignedLong _ Hw) in Ewidth by lra.
  rewrite (isInteger_toUnsignedLong _ Hh) in Eheight by lra.
  unfold Canvas.getPixel at 1. unfold Canvas.inside at 1.
  rewrite Ewidth, Eheight.
  replace ((0 <=? i) && (i <? _) && (0 <=? j) && (j <? _))%Z with true
    by (symmetry; rewrite !andb_true_iff, !Z.leb_le, !Z.ltb_lt; lia).
  unfold applyCropToCanvas. rewrite Hdef. cbn [negb]. cbv zeta.
  unfold set_canvasEl. cbn [canvasEl]. unfold drawImage3.
  rewrite ?drawImage_width, ?drawImage_height.
  unfold Canvas.create, Canvas.set_height, Canvas.set_width.
  cbn [Canvas.width Canvas.height].
  rewrite (isInteger_toUnsignedLong _ Hw) by lra.
  rewrite (isInteger_toUnsignedLong _ Hh) by lra.
  set (Wd := Qfloor (Rect.width (cropRect s))) in *.
  set (Ht := Qfloor (Rect.height (cropRect s))) in *.
  rewrite drawImage_whole_pixels;
    try apply isInteger_inject_Z; try reflexivity;
    try (rewrite <- (Zlt_Qlt 0); lia).
  rewrite !Qfloor_Z. change (Qfloor 0) with 0%Z. rewrite !Z.add_0_r.
  unfold Canvas.inside at 1.
  rewrite ?drawImage_width, ?drawImage_height. cbn [Canvas.width Canvas.height].
  replace ((0 <=? i) && (i <? Wd) && (0 <=? j) && (j <? Ht))%Z with true
    by (symmetry; rewrite !andb_true_iff, !Z.leb_le, !Z.ltb_lt; lia).
  cbn [andb].
  rewrite drawImage_whole_pixels by assumption.
  fold Wd Ht.
  replace ((0 <=? i) && (i <? Wd) && (0 <=? j) && (j <? Ht))%Z with true
    by (symmetry; rewrite !andb_true_iff, !Z.leb_le, !Z.ltb_lt; lia).
  cbn [andb Canvas.bitmap]. unfold Canvas.getPixel.
  rewrite (Z.add_comm i), (Z.add_comm j). reflexivity.
Qed.

End CommitProperties.

(** C6, as the program has it.  [applyCropToCanvas] returns at once, leaving
    everything as it is, when no region is defined.  When one is, the canvas
    takes the width and height of the region converted to whole numbers of
    pixels (the fraction is dropped); for a region on whole pixels the size
    of the canvas is the size of the region and every pixel of the canvas is
    the pixel of the source at the same place in the region.  A region
    (0, 0, 40, 40) over a 100 x 100 source gives a 40 x 40 canvas holding the
    top-left 40 x 40 block of the source. *)
Theorem applyCropToCanvas_commit
  (resample : Canvas.t -> Q -> Q -> Q -> Q -> Q -> Q -> Q -> Q -> Canvas.t
              -> Z -> Z -> Pixel)
  (s : CropManager) :
  (isCropped s = false -> applyCropToCanvas resample s = s) /\
  (isCropped s = true ->
   Canvas.width (canvasEl (applyCropToCanvas resample s))
   = toUnsignedLong (Rect.width (cropRect s)) /\
   Canvas.height (canvasEl (applyCropToCanvas resample s))
   = toUnsignedLong (Rect.height (cropRect s))) /\
  (isCropped s = true -> wholePixels (cropRect s) ->
   0 < Rect.width (cropRect s) -> Rect.width (cropRect s) < inject_Z (2 ^ 32) ->
   0 < Rect.height (cropRect s) -> Rect.height (cropRect s) < inject_Z (2 ^ 32) ->
   inject_Z (Canvas.width (canvasEl (applyCropToCanvas resample s)))
   == Rect.width (cropRect s) /\
   inject_Z (Canvas.height (canvasEl (applyCropToCanvas resample s)))
   == Rect.height (cropRect s) /\
   forall i j,
     (0 <= i < Canvas.width (canvasEl (applyCropToCanvas resample s)))%Z ->
     (0 <= j < Canvas.height (canvasEl (applyCropToCanvas resample s)))%Z ->
     Canvas.getPixel (canvasEl (applyCropToCanvas resample s)) i j
     = Canvas.getPixel (canvasEl s)
         (Qfloor (Rect.x (cropRect s)) + i) (Qfloor (Rect.y (cropRect s)) + j)) /\
  (isCropped s = true -> cropRect s = Rect.mk 0 0 40 40 ->
   Canvas.width (canvasEl s) = 100%Z -> Canvas.height (canvasEl s) = 100%Z ->
   Canvas.width (canvasEl (applyCropToCanvas resample s)) = 40%Z /\
   Canvas.height (canvasEl (applyCropToCanvas resample s)) = 40%Z /\
   forall i j, (0 <= i < 40)%Z -> (0 <= j < 40)%Z ->
     Canvas.getPixel (canvasEl (applyCropToCanvas resample s)) i j
     = Canvas.bitmap (canvasEl s) i j).
Proof.
  split; [apply applyCropToCanvas_undefined|].
  split; [apply applyCropToCanvas_size|].
  split.
  - intros Hdef Hwhole Hw0 Hw1 Hh0 Hh1.
    destruct (applyCropToCanvas_size resample s Hdef) as [Ew Eh].
    pose proof Hwhole as (_ & _ & Hw & Hh).
    rewrite (isInteger_toUnsignedLong _ Hw) in Ew by lra.
    rewrite (isInteger_toUnsignedLong _ Hh) in Eh by lra.
    rewrite Ew, Eh.
    split; [now apply isInteger_floor|].
    split; [now apply isInteger_floor|].
    intros i j Hi Hj. now apply applyCropToCanvas_pixels.
  - intros Hdef Hrect HW HH.
    destruct (applyCropToCanvas_size resample s Hdef) as [Ew Eh].
    rewrite Hrect in Ew, Eh. cbn [Rect.width Rect.height] in Ew, Eh.
    change (toUnsignedLong 40) with 40%Z in Ew, Eh.
    split; [exact Ew|]. split; [exact Eh|].
    intros i j Hi Hj.
    rewrite applyCropToCanvas_pixels; rewrite ?Hrect;
      cbn [Rect.x Rect.y Rect.width Rect.height];
      try exact Hdef; try (vm_compute; reflexivity); try assumption.
    + change (Qfloor 0) with 0%Z. rewrite !Z.add_0_l.
      unfold Canvas.getPixel, Canvas.inside. rewrite HW, HH.
      replace ((0 <=? i) && (i <? 100) && (0 <=? j) && (j <? 100))%Z with true
        by (symmetry; rewrite !andb_true_iff, !Z.leb_le, !Z.ltb_lt; lia).
      reflexivity.
    + repeat split; reflexivity.
Qed.

Lemma applyCropToCanvas_commit_witness :
  isCropped demoIdle = true /\
  Canvas.getPixel (canvasEl (applyCropToCanvas noResample demoIdle)) 3 4
  = rgba 13 14 0 255.
Proof.
  split; [reflexivity|].
  destruct (applyCropToCanvas_commit noResample demoIdle)
    as (_ & _ & Hpixels & _).
  destruct Hpixels as (_ & _ & Hpix).
  - reflexivity.
  - repeat split; reflexivity.
  - vm_compute; reflexivity.
  - vm_compute; reflexivity.
  - vm_compute; reflexivity.
  - vm_compute; reflexivity.
  - rewrite Hpix.
    + vm_compute. reflexivity.
    + vm_compute. split; [discriminate | reflexivity].
    + vm_compute. split; [discriminate | reflexivity].
Defined.

(** The size of the committed surface is not the size of the region when the
    region does not lie on whole pixels.  On the demo canvas shown at 80 x 80
    CSS pixels a drag from (0, 0) to (17, 16) on the screen defines the region
    (0, 0, 42.5, 40); the committed canvas is 42 pixels wide. *)
Lemma applyCropToCanvas_fractional_region :
  isCropped (run noResample fractionalDrag
               (new_CropManager (CropBoxEl.mk true 0 0 0 0) demoCanvas)) = true /\
  Rect.equiv
    (cropRect (run noResample fractionalDrag
                 (new_CropManager (CropBoxEl.mk true 0 0 0 0) demoCanvas)))
    (Rect.mk 0 0 (85 # 2) 40) /\
  Canvas.width
    (canvasEl (applyCropToCanvas noResample
                 (run noResample fractionalDrag
                    (new_CropManager (CropBoxEl.mk true 0 0 0 0) demoCanvas))))
  = 42%Z /\
  ~ inject_Z
      (Canvas.width
         (canvasEl (applyCropToCanvas noResample
                      (run noResample fractionalDrag
                         (new_CropManager (CropBoxEl.mk true 0 0 0 0) demoCanvas)))))
    == Rect.width
         (cropRect (run noResample fractionalDrag
                      (new_CropManager (CropBoxEl.mk true 0 0 0 0) demoCanvas))).
Proof.
  split; [vm_compute; reflexivity|].
  split; [vm_compute; repeat split; reflexivity|].
  split; [vm_compute; reflexivity|].
  intros Heq. vm_compute in Heq. discriminate.
Qed.

(** ** Every release returns to Idle *)

(** The end handler on any state at all: the mode is Idle and the three
    gesture listeners are off the window. *)
Lemma onDrawOrManipulateEnd_idle e s :
  isIdle (onDrawOrManipulateEnd e s) /\
  gestureListenersReleased (onDrawOrManipulateEnd e s).
Proof.
  unfold onDrawOrManipulateEnd, isIdle, gestureListenersReleased. cbn.
  split; [repeat split; reflexivity|]. apply removeWindowListeners_released.
Qed.

Ltac listeners_solver :=
  unfold disciplined, gestureListenersRegistered, gestureListenersReleased,
    isIdle, knownListeners, addWindowListeners, removeWindowListeners,
    addEventListener, removeEventListener in *;
  cbn [listeners isDrawing isManipulating activeHandle] in *;
  set_solver.

Lemma clear_disciplined s : disciplined s -> disciplined (clear s).
Proof.
  intros [Hknown Hmode]. unfold clear. cbn.
  split; [listeners_solver|].
  destruct Hmode as [Hreg | [Hrel Hidle]].
  - left. listeners_solver.
  - right. split; [listeners_solver|]. repeat split; reflexivity.
Qed.

Lemma activate_disciplined s : disciplined s -> disciplined (activate s).
Proof.
  intros Hs. apply clear_disciplined in Hs. destruct Hs as [Hknown Hmode].
  unfold activate. split; [listeners_solver|].
  destruct Hmode as [Hreg | [Hrel Hidle]].
  - left. listeners_solver.
  - right. split; [listeners_solver|]. exact Hidle.
Qed.

Lemma deactivate_disciplined s : disciplined s -> disciplined (deactivate s).
Proof.
  intros Hs. apply clear_disciplined in Hs. destruct Hs as [Hknown _].
  unfold deactivate. split; [listeners_solver|].
  right. split; [listeners_solver|]. unfold clear. cbn. repeat split; reflexivity.
Qed.

Lemma onDrawStart_disciplined lay e s :
  disciplined s -> disciplined (onDrawStart lay e s).
Proof.
  intros Hs. unfold onDrawStart. destruct (closestCropBox (target e)); [exact Hs|].
  apply clear_disciplined in Hs. destruct Hs as [Hknown _].
  split; [listeners_solver|]. left. listeners_solver.
Qed.

Lemma onManipulateStart_disciplined lay e s :
  disciplined s -> disciplined (onManipulateStart lay e s).
Proof.
  intros [Hknown _]. unfold onManipulateStart.
  split; [listeners_solver|]. left. listeners_solver.
Qed.

(** A pointer-move changes neither the mode nor the window listeners. *)
Lemma move_mode_and_listeners lay e s :
  let s' := onDrawOrManipulateMove lay e s in
  isDrawing s' = isDrawing s /\ isManipulating s' = isManipulating s /\
  activeHandle s' = activeHandle s /\
  (listeners s' = listeners s \/
   listeners s' = addEventListener CropBox pointerdown ManipulateStart (listeners s)).
Proof.
  cbv zeta. destruct (isDrawing s) eqn:Hd.
  - unfold onDrawOrManipulateMove. rewrite Hd.
    destruct (isCropDefined s) eqn:Hc; cbn [negb andb].
    + rewrite Hc. state_simpl. rewrite Hc. state_simpl.
      repeat split; try reflexivity; try assumption. left. reflexivity.
    + match goal with |- context [Qgtb ?a 5 || Qgtb ?b 5] =>
        destruct (Qgtb a 5 || Qgtb b 5) end.
      * unfold set_listeners, set_isCropDefined. state_simpl.
        repeat split; try reflexivity; try assumption. right. reflexivity.
      * rewrite Hc. rewrite Hc.
        repeat split; try reflexivity; try assumption. left. reflexivity.
  - destruct (move_frame lay e s Hd) as (Hd' & Hm' & Hh' & _ & _ & _ & _ & Hl').
    rewrite Hd', Hm', Hh', Hl'. repeat split; try reflexivity. left. reflexivity.
Qed.

Lemma onDrawOrManipulateMove_disciplined lay e s :
  disciplined s -> disciplined (onDrawOrManipulateMove lay e s).
Proof.
  intros [Hknown Hmode].
  destruct (move_mode_and_listeners lay e s) as (Hd & Hm & Hh & Hl).
  unfold disciplined, gestureListenersRegistered, gestureListenersReleased, isIdle in *.
  rewrite Hd, Hm, Hh.
  destruct Hl as [-> | ->]; [split; assumption|].
  unfold addEventListener, knownListeners in *.
  split; [set_solver|].
  destruct Hmode as [Hreg | [Hrel Hidle]]; [left | right; split; [|exact Hidle]];
    set_solver.
Qed.

Lemma onDrawOrManipulateEnd_disciplined e s :
  disciplined s -> disciplined (onDrawOrManipulateEnd e s).
Proof.
  intros [Hknown _].
  destruct (onDrawOrManipulateEnd_idle e s) as [Hidle Hrel].
  split; [|right; split; assumption].
  unfold onDrawOrManipulateEnd.
  destruct (isDrawing s && negb (isCropDefined s)); unfold clear; listeners_solver.
Qed.

Lemma invoke_disciplined h lay e s :
  disciplined s -> disciplined (invoke h lay e s).
Proof.
  destruct h; cbn [invoke].
  - apply onDrawStart_disciplined.
  - apply onManipulateStart_disciplined.
  - apply onDrawOrManipulateMove_disciplined.
  - apply onDrawOrManipulateEnd_disciplined.
Qed.

Lemma invoke_all_disciplined hs lay e s :
  disciplined s ->
  disciplined (fold_left (fun acc h => invoke h lay e acc) hs s).
Proof.
  revert s. induction hs as [| h hs IH]; intros s Hs; [exact Hs|].
  cbn [fold_left]. apply IH. now apply invoke_disciplined.
Qed.

Lemma bubble_disciplined path ty lay e s :
  disciplined s -> disciplined (bubble path ty lay e s).
Proof.
  revert s. induction path as [| n path IH]; intros s Hs; [exact Hs|].
  cbn [bubble].
  destruct (existsb _ _).
  - now apply invoke_all_disciplined.
  - apply IH. now apply invoke_all_disciplined.
Qed.

Lemma new_CropManager_disciplined box canvas :
  disciplined (new_CropManager box canvas).
Proof.
  unfold new_CropManager. split; [listeners_solver|].
  right. split; [listeners_solver|]. repeat split; reflexivity.
Qed.

Section Reachable.

Variable resample :
  Canvas.t -> Q -> Q -> Q -> Q -> Q -> Q -> Q -> Q -> Canvas.t -> Z -> Z -> Pixel.

Lemma step_disciplined s a : disciplined s -> disciplined (step resample s a).
Proof.
  intros Hs. destruct a; cbn [step].
  - apply bubble_disciplined. exact Hs.
  - now apply activate_disciplined.
  - now apply deactivate_disciplined.
  - now apply clear_disciplined.
  - unfold applyCropToCanvas. destruct (negb (isCropped s)); exact Hs.
  - exact Hs.
Qed.

Lemma run_disciplined acts s : disciplined s -> disciplined (run resample acts s).
Proof.
  revert s. induction acts as [| a acts IH]; intros s Hs; [exact Hs|].
  unfold run in *. cbn [fold_left]. apply IH. now apply step_disciplined.
Qed.

End Reachable.

(** On a disciplined state a pointer-up or pointer-cancel finds a handler on
    the window only, and only the end handler. *)
Lemma release_handlers s n ty :
  disciplined s -> ty = pointerup \/ ty = pointercancel ->
  handlersAt n ty s
  = match n with
    | Window =>
        if decide ((Window, ty, DrawOrManipulateEnd) ∈ listeners s)
        then [DrawOrManipulateEnd] else []
    | _ => []
    end.
Proof.
  intros [Hknown _] Hty. unfold handlersAt, allHandlers, knownListeners in *.
  rewrite !filter_cons, filter_nil.
  destruct Hty; subst ty; destruct n; repeat case_decide;
    try reflexivity; exfalso;
    repeat match goal with
           | H : _ ∈ listeners _ |- _ => apply Hknown in H
           end;
    set_solver.
Qed.

Lemma dispatch_release ty lay e s :
  disciplined s -> ty = pointerup \/ ty = pointercancel ->
  dispatch ty lay e s
  = if decide ((Window, ty, DrawOrManipulateEnd) ∈ listeners s)
    then onDrawOrManipulateEnd e s else s.
Proof.
  intros Hs Hty. unfold dispatch.
  destruct (target e); cbn [propagationPath bubble];
    rewrite !(release_handlers s _ ty Hs Hty); cbn [fold_left existsb];
    case_decide; reflexivity.
Qed.

Lemma released_no_window_listeners s :
  disciplined s -> gestureListenersReleased s -> noWindowListeners s.
Proof.
  intros [Hknown _] (H1 & H2 & H3) ty h Hin.
  unfold knownListeners in Hknown. set_solver.
Qed.

Lemma release_idle ty lay e s :
  disciplined s -> ty = pointerup \/ ty = pointercancel ->
  isIdle (dispatch ty lay e s) /\ noWindowListeners (dispatch ty lay e s).
Proof.
  intros Hs Hty.
  assert (Hs' : disciplined (dispatch ty lay e s)) by now apply bubble_disciplined.
  assert (Hgoal : isIdle (dispatch ty lay e s)
                  /\ gestureListenersReleased (dispatch ty lay e s)).
  { rewrite (dispatch_release ty lay e s Hs Hty). case_decide as Hreg.
    - apply onDrawOrManipulateEnd_idle.
    - destruct Hs as [_ [(H1 & H2 & H3) | [Hrel Hidle]]].
      + destruct Hty; subst ty; contradiction.
      + split; assumption. }
  destruct Hgoal as [Hidle Hrel].
  split; [exact Hidle|]. now apply released_no_window_listeners.
Qed.

(** C8. Whatever happened to the editor since it was constructed (pointer
    events of any type on any target in any order, calls of its public
    methods, replacements of the canvas), once a pointer-up or a
    pointer-cancel has been dispatched the machine is Idle, neither drawing
    nor manipulating and with no active handle, and no listener at all is
    registered on the window. *)
Theorem release_returns_to_idle
  (resample : Canvas.t -> Q -> Q -> Q -> Q -> Q -> Q -> Q -> Q -> Canvas.t
              -> Z -> Z -> Pixel)
  (box : CropBoxEl.t) (canvas : Canvas.t) (acts : list Action)
  (lay : Layout) (e : PointerEvent) :
  (isIdle (run resample (acts ++ [Pointer pointerup lay e])
             (new_CropManager box canvas)) /\
   noWindowListeners (run resample (acts ++ [Pointer pointerup lay e])
                        (new_CropManager box canvas))) /\
  (isIdle (run resample (acts ++ [Pointer pointercancel lay e])
             (new_CropManager box canvas)) /\
   noWindowListeners (run resample (acts ++ [Pointer pointercancel lay e])
                        (new_CropManager box canvas))).
Proof.
  pose proof (run_disciplined resample acts _
                (new_CropManager_disciplined box canvas)) as Hs.
  unfold run in *. rewrite !fold_left_app. cbn [fold_left step].
  split; apply release_idle; auto.
Qed.

(** A gesture that ends in pointer-cancel, on the demo scene: a drag cut short. *)
Lemma cancel_returns_to_idle_example :
  let s := run noResample
             [CallActivate;
              Pointer pointerdown demoLayout (pointerAt 0 0 InContainer);
              Pointer pointermove demoLayout (pointerAt 50 40 InContainer);
              Pointer pointercancel demoLayout (pointerAt 50 40 Elsewhere)]
             (new_CropManager (CropBoxEl.mk true 0 0 0 0) demoCanvas) in
  isDrawing s = false /\ isManipulating s = false /\ activeHandle s = None /\
  isCropDefined s = true /\
  bool_decide ((Window, pointermove, DrawOrManipulateMove) ∈ listeners s) = false /\
  bool_decide ((Window, pointerup, DrawOrManipulateEnd) ∈ listeners s) = false /\
  bool_decide ((Window, pointercancel, DrawOrManipulateEnd) ∈ listeners s) = false /\
  bool_decide ((CropBox, pointerdown, ManipulateStart) ∈ listeners s) = true.
Proof. cbv zeta. repeat split; vm_compute; reflexivity. Qed.

(** * Part III: further properties of the editor *)

(** ** The constraint pass, axis by axis *)

Lemma constrainRect_axes W H r :
  constrainRect W H r
  = Rect.mk (fst (axisPass W (Rect.x r, Rect.width r)))
            (fst (axisPass H (Rect.y r, Rect.height r)))
            (snd (axisPass W (Rect.x r, Rect.width r)))
            (snd (axisPass H (Rect.y r, Rect.height r))).
Proof.
  destruct r as [x y w h]. unfold constrainRect, axisPass. rect_simpl.
  destruct (Qltb x 0); rect_simpl; destruct (Qltb y 0); rect_simpl;
    repeat match goal with
           | |- context [Qgtb ?a ?b] =>
               q_plain a; q_plain b; destruct (Qgtb a b); rect_simpl; cbn [fst snd]
           end;
    reflexivity.
Qed.

Lemma axisPass_bounds bound origin size :
  let axis := axisPass bound (origin, size) in
  0 <= fst axis /\ minSize <= snd axis /\
  withinOrFloored bound (fst axis) (snd axis).
Proof.
  unfold axisPass, withinOrFloored, minSize.
  q_cases; cbn [fst snd]; q_cases; cbn [fst snd]; repeat split; try lra;
    try (left; lra);
    match goal with
    | |- ?a <= ?b \/ _ =>
        destruct (Qlt_le_dec b a); [right; split; [reflexivity | lra] | left; lra]
    end.
Qed.

(** An axis that already meets what the pass establishes is left as it is,
    value for value. *)
Lemma axisPass_settled bound origin size :
  0 <= origin -> minSize <= size -> withinOrFloored bound origin size ->
  axisPass bound (origin, size) = (origin, size).
Proof.
  unfold axisPass, withinOrFloored, minSize. intros Ho Hs [Hin | [-> Hout]].
  - q_cases; cbn [fst snd]; q_cases; cbn [fst snd]; try reflexivity; lra.
  - q_cases; cbn [fst snd]; q_cases; cbn [fst snd]; try reflexivity; lra.
Qed.

Lemma axisPass_idempotent bound axis :
  axisPass bound (axisPass bound axis) = axisPass bound axis.
Proof.
  destruct axis as [origin size].
  destruct (axisPass_bounds bound origin size) as (Ho & Hs & Hb).
  destruct (axisPass bound (origin, size)) as [o' s'] eqn:E. cbn [fst snd] in *.
  now apply axisPass_settled.
Qed.

(** The pass does not move an origin that is not negative. *)
Lemma axisPass_origin bound origin size :
  0 <= origin -> fst (axisPass bound (origin, size)) = origin.
Proof.
  intros Ho. unfold axisPass. q_cases; cbn [fst snd]; try reflexivity; lra.
Qed.

Lemma constrainRect_twice W H r :
  constrainRect W H (constrainRect W H r) = constrainRect W H r.
Proof.
  rewrite (constrainRect_axes W H r).
  rewrite constrainRect_axes. cbn [Rect.x Rect.y Rect.width Rect.height].
  rewrite <- !surjective_pairing, !axisPass_idempotent. reflexivity.
Qed.

(** X1. Running the constraint pass twice is running it once: its result is
    a fixed point, field for field. *)
Theorem constrainRect_idempotent (W H : Q) (r : Rect.t) :
  constrainRect W H (constrainRect W H r) = constrainRect W H r.
Proof. apply constrainRect_twice. Qed.

Lemma constrainRect_sizes W H r :
  (minSize <= Rect.width (constrainRect W H r) /\
   Rect.width (constrainRect W H r) <= Qmax (Rect.width r) minSize) /\
  (minSize <= Rect.height (constrainRect W H r) /\
   Rect.height (constrainRect W H r) <= Qmax (Rect.height r) minSize) /\
  Rect.x (constrainRect W H r) == Qmax (Rect.x r) 0 /\
  Rect.y (constrainRect W H r) == Qmax (Rect.y r) 0.
Proof.
  destruct r as [x y w h]. rewrite constrainRect_axes.
  cbn [Rect.x Rect.y Rect.width Rect.height].
  assert (Haxis : forall bound o sz,
             (minSize <= snd (axisPass bound (o, sz)) /\
              snd (axisPass bound (o, sz)) <= Qmax sz minSize) /\
             fst (axisPass bound (o, sz)) == Qmax o 0).
  { intros bound o sz. unfold axisPass, minSize.
    destruct (Q.max_spec sz 30) as [[? Em] | [? Em]];
      destruct (Q.max_spec o 0) as [[? Eo] | [? Eo]]; rewrite Em, Eo;
      q_cases; cbn [fst snd]; q_cases; cbn [fst snd]; repeat split; lra. }
  destruct (Haxis W x w) as [Hw Hx]. destruct (Haxis H y h) as [Hh Hy].
  repeat split; tauto.
Qed.

(** X2. What the constraint pass does to the sizes and the origin, whatever
    the rectangle: each side comes out at least [minSize] and at most the
    larger of what it was and [minSize] (the pass shrinks, and grows only up
    to the floor), and each origin comes out as the larger of what it was
    and 0. *)
Theorem constrainRect_size_and_origin (W H : Q) (r : Rect.t) :
  (minSize <= Rect.width (constrainRect W H r) /\
   Rect.width (constrainRect W H r) <= Qmax (Rect.width r) minSize) /\
  (minSize <= Rect.height (constrainRect W H r) /\
   Rect.height (constrainRect W H r) <= Qmax (Rect.height r) minSize) /\
  Rect.x (constrainRect W H r) == Qmax (Rect.x r) 0 /\
  Rect.y (constrainRect W H r) == Qmax (Rect.y r) 0.
Proof. apply constrainRect_sizes. Qed.

(** ** Pointer positions *)

Lemma pointer_on_surface lay e s :
  (0 <= Canvas.width (canvasEl s))%Z -> (0 <= Canvas.height (canvasEl s))%Z ->
  0 < DOMRect.width (canvasRect lay) ->
  0 <= Point.x (getNativePointerPosition lay e s) /\
  Point.x (getNativePointerPosition lay e s) <= inject_Z (Canvas.width (canvasEl s)) /\
  0 <= Point.y (getNativePointerPosition lay e s) /\
  Point.y (getNativePointerPosition lay e s) <= inject_Z (Canvas.height (canvasEl s)).
Proof.
  intros HW HH _. rewrite Zle_Qle in HW, HH. change (inject_Z 0) with 0 in HW, HH.
  unfold getNativePointerPosition. q_cases; repeat split; lra.
Qed.

(** X3. A pointer position read from an event is always on the surface:
    whatever the event and the layout, both coordinates are clamped to
    [0, width] and [0, height] of the canvas (the rendered width, by which
    the program divides, being positive). *)
Theorem getNativePointerPosition_on_surface
  (lay : Layout) (e : PointerEvent) (s : CropManager) :
  (0 <= Canvas.width (canvasEl s))%Z -> (0 <= Canvas.height (canvasEl s))%Z ->
  0 < DOMRect.width (canvasRect lay) ->
  0 <= Point.x (getNativePointerPosition lay e s) /\
  Point.x (getNativePointerPosition lay e s) <= inject_Z (Canvas.width (canvasEl s)) /\
  0 <= Point.y (getNativePointerPosition lay e s) /\
  Point.y (getNativePointerPosition lay e s) <= inject_Z (Canvas.height (canvasEl s)).
Proof. apply pointer_on_surface. Qed.

Lemma getNativePointerPosition_on_surface_witness :
  0 < DOMRect.width (canvasRect shrunkLayout) /\
  Point.x (getNativePointerPosition shrunkLayout (pointerAt 500 (-3) Elsewhere) demoIdle)
  <= 200.
Proof.
  split; [vm_compute; reflexivity|].
  apply (getNativePointerPosition_on_surface shrunkLayout
           (pointerAt 500 (-3) Elsewhere) demoIdle).
  - vm_compute. discriminate.
  - vm_compute. discriminate.
  - vm_compute. reflexivity.
Defined.

(** ** Drawing a region *)

(** The rectangle of a drawing has the anchor and the pointer as opposite
    corners. *)
Lemma drawRect_spans a p r :
  let d := drawRect a p (Point.x p - Point.x a) (Point.y p - Point.y a) r in
  Rect.x d == Qmin (Point.x a) (Point.x p) /\
  Rect.y d == Qmin (Point.y a) (Point.y p) /\
  Rect.x d + Rect.width d == Qmax (Point.x a) (Point.x p) /\
  Rect.y d + Rect.height d == Qmax (Point.y a) (Point.y p).
Proof.
  cbv zeta. unfold drawRect. rect_simpl.
  destruct (Math_abs_cases (Point.x p - Point.x a)) as [[? Ex] | [? Ex]];
    destruct (Math_abs_cases (Point.y p - Point.y a)) as [[? Ey] | [? Ey]];
    rewrite Ex, Ey;
    destruct (Q.min_spec (Point.x a) (Point.x p)) as [[? Emx] | [? Emx]];
    destruct (Q.min_spec (Point.y a) (Point.y p)) as [[? Emy] | [? Emy]];
    destruct (Q.max_spec (Point.x a) (Point.x p)) as [[? EMx] | [? EMx]];
    destruct (Q.max_spec (Point.y a) (Point.y p)) as [[? EMy] | [? EMy]];
    rewrite Emx, Emy, EMx, EMy;
    q_cases; repeat split; lra.
Qed.

Lemma axisPass_inside bound origin size :
  0 <= origin -> origin + size <= bound ->
  axisPass bound (origin, size) = (origin, Math_max size minSize).
Proof.
  intros Ho Hin. unfold axisPass.
  replace (Qltb origin 0) with false by (symmetry; now apply Qltb_ge).
  unfold Qgtb. replace (Qltb bound (origin + size)) with false
    by (symmetry; now apply Qltb_ge).
  reflexivity.
Qed.

(** ** Handling the same pointer-move twice *)

Lemma fixed_point_axes W H r :
  constrainRect W H r = r ->
  axisPass W (Rect.x r, Rect.width r) = (Rect.x r, Rect.width r) /\
  axisPass H (Rect.y r, Rect.height r) = (Rect.y r, Rect.height r).
Proof.
  rewrite constrainRect_axes. destruct r as [x y w h].
  cbn [Rect.x Rect.y Rect.width Rect.height]. intros E.
  injection E as Ex Ey Ew Eh.
  split; apply injective_projections; assumption.
Qed.

Lemma moveRect_again a dx dy W H r :
  moveRect a dx dy W H (moveRect a dx dy W H r) = moveRect a dx dy W H r.
Proof. reflexivity. Qed.

Lemma moved_axis_settled bound origin size target :
  axisPass bound (origin, size) = (origin, size) ->
  axisPass bound (Math_max 0 (Math_min target (bound - size)), size)
  = (Math_max 0 (Math_min target (bound - size)), size).
Proof.
  intros Hfix.
  pose proof (axisPass_bounds bound origin size) as (Ho & Hs & Hb).
  rewrite Hfix in Ho, Hs, Hb. cbn [fst snd] in *.
  apply axisPass_settled; [q_cases; lra | exact Hs |].
  unfold withinOrFloored in *. destruct Hb as [Hin | [-> Hout]].
  - left. q_cases; lra.
  - match goal with |- ?u + _ <= _ \/ _ =>
      destruct (Qlt_le_dec bound (u + minSize)) end;
      [right; split; [reflexivity | assumption] | left; assumption].
Qed.

Lemma moveRect_fixed_point a dx dy W H r :
  constrainRect W H r = r ->
  constrainRect W H (moveRect a dx dy W H r) = moveRect a dx dy W H r.
Proof.
  intros Hfix. destruct (fixed_point_axes W H r Hfix) as [Hh Hv].
  destruct r as [x y w h]. cbn [Rect.x Rect.y Rect.width Rect.height] in *.
  rewrite constrainRect_axes. unfold moveRect. rect_simpl.
  rewrite (moved_axis_settled W x w _ Hh), (moved_axis_settled H y h _ Hv).
  reflexivity.
Qed.

Lemma resizeRect_fields handle a dx dy r :
  resizeRect handle a dx dy r
  = Rect.mk
      (if includes handle "w" then Rect.x a + dx else Rect.x r)
      (if includes handle "n" then Rect.y a + dy else Rect.y r)
      (if includes handle "w" then Rect.width a - dx
       else if includes handle "e" then Rect.width a + dx else Rect.width r)
      (if includes handle "n" then Rect.height a - dy
       else if includes handle "s" then Rect.height a + dy else Rect.height r).
Proof.
  unfold resizeRect. destruct r as [x y w h].
  destruct (includes handle "e"), (includes handle "w"),
    (includes handle "s"), (includes handle "n"); reflexivity.
Qed.

Lemma resizeRect_again handle a dx dy r :
  resizeRect handle a dx dy (resizeRect handle a dx dy r)
  = resizeRect handle a dx dy r.
Proof.
  rewrite !resizeRect_fields. cbn [Rect.x Rect.y Rect.width Rect.height].
  destruct (includes handle "e"), (includes handle "w"),
    (includes handle "s"), (includes handle "n"); reflexivity.
Qed.

Lemma resizeRect_fixed_point handle a dx dy W H r :
  constrainRect W H r = r ->
  constrainRect W H
    (resizeRect handle a dx dy (constrainRect W H (resizeRect handle a dx dy r)))
  = constrainRect W H (resizeRect handle a dx dy r).
Proof.
  intros Hfix. destruct (fixed_point_axes W H r Hfix) as [Hh Hv].
  destruct r as [x y w h]. cbn [Rect.x Rect.y Rect.width Rect.height] in *.
  pose proof (axisPass_bounds W x w) as (Hx0 & _).
  pose proof (axisPass_bounds H y h) as (Hy0 & _).
  rewrite Hh in Hx0. rewrite Hv in Hy0. cbn [fst snd] in *.
  rewrite !resizeRect_fields, !constrainRect_axes.
  cbn [Rect.x Rect.y Rect.width Rect.height].
  assert (Hhor :
    axisPass W
      (if includes handle "w" then Rect.x a + dx
       else fst (axisPass W
                   (if includes handle "w" then Rect.x a + dx else x,
                    if includes handle "w" then Rect.width a - dx
                    else if includes handle "e" then Rect.width a + dx else w)),
       if includes handle "w" then Rect.width a - dx
       else if includes handle "e" then Rect.width a + dx
            else snd (axisPass W
                        (if includes handle "w" then Rect.x a + dx else x,
                         if includes handle "w" then Rect.width a - dx
                         else if includes handle "e" then Rect.width a + dx else w)))
    = axisPass W
        (if includes handle "w" then Rect.x a + dx else x,
         if includes handle "w" then Rect.width a - dx
         else if includes handle "e" then Rect.width a + dx else w)).
  { destruct (includes handle "w"); [reflexivity|].
    destruct (includes handle "e").
    - now rewrite axisPass_origin.
    - rewrite <- surjective_pairing. apply axisPass_idempotent. }
  assert (Hver :
    axisPass H
      (if includes handle "n" then Rect.y a + dy
       else fst (axisPass H
                   (if includes handle "n" then Rect.y a + dy else y,
                    if includes handle "n" then Rect.height a - dy
                    else if includes handle "s" then Rect.height a + dy else h)),
       if includes handle "n" then Rect.height a - dy
       else if includes handle "s" then Rect.height a + dy
            else snd (axisPass H
                        (if includes handle "n" then Rect.y a + dy else y,
                         if includes handle "n" then Rect.height a - dy
                         else if includes handle "s" then Rect.height a + dy else h)))
    = axisPass H
        (if includes handle "n" then Rect.y a + dy else y,
         if includes handle "n" then Rect.height a - dy
         else if includes handle "s" then Rect.height a + dy else h)).
  { destruct (includes handle "n"); [reflexivity|].
    destruct (includes handle "s").
    - now rewrite axisPass_origin.
    - rewrite <- surjective_pairing. apply axisPass_idempotent. }
  rewrite Hhor, Hver. reflexivity.
Qed.

(** ** The pointer-move handler, case by case *)

Lemma set_cropRect_same s : set_cropRect (cropRect s) s = s.
Proof. destruct s; reflexivity. Qed.

Lemma set_cropRect_absorb r r' s : set_cropRect r (set_cropRect r' s) = set_cropRect r s.
Proof. reflexivity. Qed.

Lemma constrainAndShow_absorb lay r r' s :
  constrainAndShow lay r (constrainAndShow lay r' s) = constrainAndShow lay r s.
Proof. reflexivity. Qed.

Lemma constrainAndShow_cong lay r r' s :
  constrainRect (inject_Z (Canvas.width (canvasEl s)))
    (inject_Z (Canvas.height (canvasEl s))) r
  = constrainRect (inject_Z (Canvas.width (canvasEl s)))
      (inject_Z (Canvas.height (canvasEl s))) r' ->
  constrainAndShow lay r s = constrainAndShow lay r' s.
Proof.
  intros E. unfold constrainAndShow, updateStyle, constrainCropBox, set_cropBoxEl,
    set_cropRect. cbn [cropRect canvasEl cropBoxEl activeHandle isManipulating
    isDrawing isCropDefined startPointer startCropRect listeners].
  rewrite E. reflexivity.
Qed.

Lemma constrainAndShow_rect lay r s :
  cropRect (constrainAndShow lay r s)
  = constrainRect (inject_Z (Canvas.width (canvasEl s)))
      (inject_Z (Canvas.height (canvasEl s))) r.
Proof. reflexivity. Qed.

Lemma isCropDefined_set_cropRect r s :
  isCropDefined (set_cropRect r s) = isCropDefined s.
Proof. reflexivity. Qed.

(** During a drawing. *)
Lemma move_drawing lay e s :
  isDrawing s = true ->
  let p := getNativePointerPosition lay e s in
  let deltaX := Point.x p - Point.x (startPointer s) in
  let deltaY := Point.y p - Point.y (startPointer s) in
  let box := drawRect (startPointer s) p deltaX deltaY (cropRect s) in
  onDrawOrManipulateMove lay e s
  = if isCropDefined s then constrainAndShow lay box s
    else if Qgtb (Math_abs deltaX) 5 || Qgtb (Math_abs deltaY) 5
         then constrainAndShow lay box (revealCropBox s)
         else s.
Proof.
  intros Hd. cbv zeta. unfold onDrawOrManipulateMove. rewrite Hd.
  destruct (isCropDefined s) eqn:Hc; cbn [negb andb].
  - rewrite Hc. rewrite isCropDefined_set_cropRect, Hc. reflexivity.
  - match goal with |- context [Qgtb ?a 5 || Qgtb ?b 5] =>
      destruct (Qgtb a 5 || Qgtb b 5) end.
    + reflexivity.
    + rewrite Hc. rewrite Hc. reflexivity.
Qed.

(** Outside a drawing. *)
Lemma move_not_drawing lay e s :
  isDrawing s = false ->
  onDrawOrManipulateMove lay e s
  = if isCropDefined s then constrainAndShow lay (manipulatedRect lay e s) s
    else set_cropRect (manipulatedRect lay e s) s.
Proof.
  intros Hd. unfold onDrawOrManipulateMove, manipulatedRect. rewrite Hd.
  destruct (isManipulating s); [destruct (activeHandle s) as [h|]|].
  - destruct (String.eqb h "move"); [|destruct (truthy h)];
      rewrite ?isCropDefined_set_cropRect; destruct (isCropDefined s) eqn:Hc;
      rewrite ?set_cropRect_same; reflexivity.
  - destruct (isCropDefined s); rewrite ?set_cropRect_same; reflexivity.
  - destruct (isCropDefined s); rewrite ?set_cropRect_same; reflexivity.
Qed.

Lemma pointer_set_cropRect lay e r s :
  getNativePointerPosition lay e (set_cropRect r s)
  = getNativePointerPosition lay e s.
Proof. reflexivity. Qed.

Lemma pointer_constrainAndShow lay e lay' r s :
  getNativePointerPosition lay e (constrainAndShow lay' r s)
  = getNativePointerPosition lay e s.
Proof. reflexivity. Qed.

Lemma pointer_revealCropBox lay e s :
  getNativePointerPosition lay e (revealCropBox s)
  = getNativePointerPosition lay e s.
Proof. reflexivity. Qed.

Lemma drawRect_any a p dx dy r r' : drawRect a p dx dy r = drawRect a p dx dy r'.
Proof. reflexivity. Qed.

Lemma manipulatedRect_again lay e s :
  manipulatedRect lay e (set_cropRect (manipulatedRect lay e s) s)
  = manipulatedRect lay e s.
Proof.
  unfold manipulatedRect at 1.
  rewrite pointer_set_cropRect.
  cbn [isManipulating activeHandle startPointer startCropRect canvasEl cropRect
       set_cropRect].
  unfold manipulatedRect.
  destruct (isManipulating s); [|reflexivity].
  destruct (activeHandle s) as [h|]; [|reflexivity].
  destruct (String.eqb h "move"); [apply moveRect_again|].
  destruct (truthy h); [apply resizeRect_again | reflexivity].
Qed.

Lemma manipulatedRect_constrained lay e s :
  settled s ->
  let W := inject_Z (Canvas.width (canvasEl s)) in
  let H := inject_Z (Canvas.height (canvasEl s)) in
  constrainRect W H
    (manipulatedRect lay e (constrainAndShow lay (manipulatedRect lay e s) s))
  = constrainRect W H (manipulatedRect lay e s).
Proof.
  unfold settled. intros Hfix. cbv zeta. unfold manipulatedRect at 1.
  rewrite pointer_constrainAndShow.
  change (isManipulating (constrainAndShow lay (manipulatedRect lay e s) s))
    with (isManipulating s).
  change (activeHandle (constrainAndShow lay (manipulatedRect lay e s) s))
    with (activeHandle s).
  change (startPointer (constrainAndShow lay (manipulatedRect lay e s) s))
    with (startPointer s).
  change (startCropRect (constrainAndShow lay (manipulatedRect lay e s) s))
    with (startCropRect s).
  change (canvasEl (constrainAndShow lay (manipulatedRect lay e s) s))
    with (canvasEl s).
  rewrite constrainAndShow_rect.
  unfold manipulatedRect.
  destruct (isManipulating s); [|apply constrainRect_twice].
  destruct (activeHandle s) as [h|]; [|apply constrainRect_twice].
  destruct (String.eqb h "move").
  - rewrite (moveRect_fixed_point _ _ _ _ _ _ Hfix), moveRect_again.
    now apply moveRect_fixed_point.
  - destruct (truthy h); [|apply constrainRect_twice].
    now apply resizeRect_fixed_point.
Qed.

(** X4. A pointer-move handled twice is the pointer-move handled once: the
    handler recomputes the region from the anchor and the pointer, it does
    not accumulate.  This holds during a drawing, while no region is
    defined, and for a defined region that has been through the constraint
    pass on the current canvas. *)
Theorem pointer_move_idempotent (lay : Layout) (e : PointerEvent) (s : CropManager) :
  isDrawing s = true \/ isCropDefined s = false \/ settled s ->
  onDrawOrManipulateMove lay e (onDrawOrManipulateMove lay e s)
  = onDrawOrManipulateMove lay e s.
Proof.
  intros Hpre. destruct (isDrawing s) eqn:Hd.
  - rewrite (move_drawing lay e s Hd). cbv zeta.
    destruct (isCropDefined s) eqn:Hc.
    + rewrite move_drawing by exact Hd. cbv zeta.
      change (isCropDefined (constrainAndShow lay ?r s)) with (isCropDefined s).
      rewrite Hc. rewrite constrainAndShow_absorb.
      rewrite pointer_constrainAndShow. reflexivity.
    + match goal with |- context [Qgtb ?a 5 || Qgtb ?b 5] =>
        destruct (Qgtb a 5 || Qgtb b 5) eqn:Hcross end.
      * rewrite move_drawing by exact Hd. cbv zeta.
        change (isCropDefined (constrainAndShow lay ?r (revealCropBox s))) with true.
        cbv iota. rewrite constrainAndShow_absorb.
        rewrite pointer_constrainAndShow, pointer_revealCropBox. reflexivity.
      * rewrite move_drawing by exact Hd. cbv zeta. rewrite Hc, Hcross. reflexivity.
  - destruct Hpre as [Hpre | Hpre]; [discriminate|].
    rewrite (move_not_drawing lay e s Hd).
    destruct (isCropDefined s) eqn:Hc.
    + destruct Hpre as [Hpre | Hpre]; [discriminate|].
      rewrite move_not_drawing by exact Hd.
      change (isCropDefined (constrainAndShow lay ?r s)) with (isCropDefined s).
      rewrite Hc. rewrite constrainAndShow_absorb.
      apply constrainAndShow_cong. now apply manipulatedRect_constrained.
    + rewrite move_not_drawing by exact Hd.
      rewrite isCropDefined_set_cropRect, Hc, set_cropRect_absorb.
      rewrite manipulatedRect_again. reflexivity.
Qed.

Lemma pointer_move_idempotent_witness :
  settled (demoManipulating (Some "se"%string)) /\
  cropRect
    (onDrawOrManipulateMove demoLayout (pointerAt 80 90 OnCropBox)
       (onDrawOrManipulateMove demoLayout (pointerAt 80 90 OnCropBox)
          (demoManipulating (Some "se"%string))))
  = cropRect
      (onDrawOrManipulateMove demoLayout (pointerAt 80 90 OnCropBox)
         (demoManipulating (Some "se"%string))).
Proof.
  assert (Hs : settled (demoManipulating (Some "se"%string)))
    by (vm_compute; reflexivity).
  split; [exact Hs|].
  rewrite (pointer_move_idempotent demoLayout (pointerAt 80 90 OnCropBox)
             (demoManipulating (Some "se"%string))).
  - reflexivity.
  - right. right. exact Hs.
Defined.

(** ** Drawing a region *)

Lemma move_drawing_frame lay e s :
  isDrawing s = true ->
  isDrawing (onDrawOrManipulateMove lay e s) = true /\
  startPointer (onDrawOrManipulateMove lay e s) = startPointer s /\
  canvasEl (onDrawOrManipulateMove lay e s) = canvasEl s.
Proof.
  intros Hd. rewrite (move_drawing lay e s Hd). cbv zeta.
  destruct (isCropDefined s).
  - repeat split; try reflexivity. exact Hd.
  - match goal with |- context [Qgtb ?a 5 || Qgtb ?b 5] =>
      destruct (Qgtb a 5 || Qgtb b 5) end;
      repeat split; try reflexivity; exact Hd.
Qed.

Lemma moves_drawing_frame es s :
  isDrawing s = true ->
  isDrawing (moves es s) = true /\
  startPointer (moves es s) = startPointer s /\
  canvasEl (moves es s) = canvasEl s.
Proof.
  revert s. induction es as [| [lay e] es IH]; intros s Hd.
  - repeat split; try reflexivity. exact Hd.
  - unfold moves in *. cbn [fold_left fst snd].
    destruct (move_drawing_frame lay e s Hd) as (Hd' & Hsp & Hcv).
    destruct (IH _ Hd') as (Hd'' & Hsp' & Hcv').
    rewrite Hsp', Hcv', Hsp, Hcv. repeat split; try reflexivity. exact Hd''.
Qed.

(** The box spanned by two points of the surface, after the constraint
    pass: the origin is the lower corner, each side is the distance between
    the points or [minSize] if that is larger. *)
Lemma drawn_box_constrained W H a p r :
  0 <= Point.x a -> Point.x a <= W -> 0 <= Point.y a -> Point.y a <= H ->
  0 <= Point.x p -> Point.x p <= W -> 0 <= Point.y p -> Point.y p <= H ->
  let box := constrainRect W H
               (drawRect a p (Point.x p - Point.x a) (Point.y p - Point.y a) r) in
  Rect.x box == Qmin (Point.x a) (Point.x p) /\
  Rect.y box == Qmin (Point.y a) (Point.y p) /\
  Rect.width box = Qmax (Qabs (Point.x p - Point.x a)) minSize /\
  Rect.height box = Qmax (Qabs (Point.y p - Point.y a)) minSize.
Proof.
  intros Hax0 Hax1 Hay0 Hay1 Hpx0 Hpx1 Hpy0 Hpy1. cbv zeta.
  destruct (drawRect_spans a p r) as (Ex & Ey & Efx & Efy).
  rewrite constrainRect_axes.
  set (d := drawRect a p _ _ r) in *.
  assert (Hx : 0 <= Rect.x d /\ Rect.x d + Rect.width d <= W).
  { destruct (Q.min_spec (Point.x a) (Point.x p)) as [[? Em] | [? Em]];
      destruct (Q.max_spec (Point.x a) (Point.x p)) as [[? EM] | [? EM]];
      rewrite Em in Ex; rewrite EM in Efx; split; lra. }
  assert (Hy : 0 <= Rect.y d /\ Rect.y d + Rect.height d <= H).
  { destruct (Q.min_spec (Point.y a) (Point.y p)) as [[? Em] | [? Em]];
      destruct (Q.max_spec (Point.y a) (Point.y p)) as [[? EM] | [? EM]];
      rewrite Em in Ey; rewrite EM in Efy; split; lra. }
  rewrite (axisPass_inside W _ _ (proj1 Hx) (proj2 Hx)).
  rewrite (axisPass_inside H _ _ (proj1 Hy) (proj2 Hy)).
  cbn [Rect.x Rect.y Rect.width Rect.height fst snd].
  split; [exact Ex|]. split; [exact Ey|]. split; reflexivity.
Qed.

(** X5. In a drawing gesture, as soon as the pointer has left the threshold,
    and from then on at every move, the region is the box spanned by the
    anchor and the pointer, each side raised to [minSize] if shorter: its
    origin is the corner nearer the origin of the surface, whichever way the
    pointer went.  The move that first leaves the threshold also shows the
    overlay and makes it listen for manipulations. *)
Theorem drawing_spans_anchor_and_pointer
  (lay0 : Layout) (e0 : PointerEvent) (s0 : CropManager)
  (es : list (Layout * PointerEvent)) (lay : Layout) (e : PointerEvent) :
  closestCropBox (target e0) = false ->
  (0 <= Canvas.width (canvasEl s0))%Z -> (0 <= Canvas.height (canvasEl s0))%Z ->
  0 < DOMRect.width (canvasRect lay0) -> 0 < DOMRect.width (canvasRect lay) ->
  let anchor := getNativePointerPosition lay0 e0 s0 in
  let p := getNativePointerPosition lay e s0 in
  let before := moves es (onDrawStart lay0 e0 s0) in
  let after := onDrawOrManipulateMove lay e before in
  isCropDefined before = true \/ ~ withinThreshold anchor p ->
  isCropped after = true /\ isDrawing after = true /\
  Rect.x (cropRect after) == Qmin (Point.x anchor) (Point.x p) /\
  Rect.y (cropRect after) == Qmin (Point.y anchor) (Point.y p) /\
  Rect.width (cropRect after) = Qmax (Qabs (Point.x p - Point.x anchor)) minSize /\
  Rect.height (cropRect after) = Qmax (Qabs (Point.y p - Point.y anchor)) minSize /\
  (isCropDefined before = false ->
   CropBoxEl.hidden (cropBoxEl after) = false /\
   (CropBox, pointerdown, ManipulateStart) ∈ listeners after).
Proof.
  intros Hout HW HH Hrw0 Hrw. cbv zeta. intros Hgo.
  destruct (onDrawStart_drawing lay0 e0 s0 Hout) as (Hd1 & _).
  assert (Hsp1 : startPointer (onDrawStart lay0 e0 s0)
                 = getNativePointerPosition lay0 e0 s0).
  { unfold onDrawStart. rewrite Hout. reflexivity. }
  assert (Hcv1 : canvasEl (onDrawStart lay0 e0 s0) = canvasEl s0).
  { unfold onDrawStart. rewrite Hout. reflexivity. }
  destruct (moves_drawing_frame es _ Hd1) as (Hd & Hsp & Hcv).
  rewrite Hsp1 in Hsp. rewrite Hcv1 in Hcv.
  set (before := moves es (onDrawStart lay0 e0 s0)) in *.
  assert (Hp : getNativePointerPosition lay e before
               = getNativePointerPosition lay e s0).
  { unfold getNativePointerPosition. rewrite Hcv. reflexivity. }
  destruct (pointer_on_surface lay0 e0 s0 HW HH Hrw0)
    as (Ha1 & Ha2 & Ha3 & Ha4).
  destruct (pointer_on_surface lay e s0 HW HH Hrw)
    as (Hp1 & Hp2 & Hp3 & Hp4).
  rewrite (move_drawing lay e before Hd). cbv zeta. rewrite Hp, Hsp.
  set (a := getNativePointerPosition lay0 e0 s0) in *.
  set (p := getNativePointerPosition lay e s0) in *.
  pose proof (drawn_box_constrained _ _ a p (cropRect before)
                Ha1 Ha2 Ha3 Ha4 Hp1 Hp2 Hp3 Hp4) as Hbox.
  cbv zeta in Hbox.
  destruct (isCropDefined before) eqn:Hc.
  - rewrite constrainAndShow_rect, Hcv.
    split; [exact Hc|]. split; [exact Hd|].
    destruct Hbox as (B1 & B2 & B3 & B4).
    split; [exact B1|]. split; [exact B2|]. split; [exact B3|]. split; [exact B4|].
    discriminate.
  - destruct Hgo as [Hgo | Hgo]; [discriminate|].
    replace (Qgtb (Math_abs (Point.x p - Point.x a)) 5
             || Qgtb (Math_abs (Point.y p - Point.y a)) 5) with true.
    + rewrite constrainAndShow_rect.
      change (canvasEl (revealCropBox before)) with (canvasEl before).
      change (cropRect (revealCropBox before)) with (cropRect before).
      rewrite Hcv.
      split; [reflexivity|]. split; [exact Hd|].
      destruct Hbox as (B1 & B2 & B3 & B4).
      split; [exact B1|]. split; [exact B2|]. split; [exact B3|]. split; [exact B4|].
      intros _. split; [reflexivity|].
      change (listeners (constrainAndShow lay ?r (revealCropBox before)))
        with (addEventListener CropBox pointerdown ManipulateStart (listeners before)).
      unfold addEventListener. apply elem_of_union_r, elem_of_singleton.
      reflexivity.
    + symmetry. apply orb_true_iff.
      destruct (Qgtb (Math_abs (Point.x p - Point.x a)) 5) eqn:E1; [now left|].
      destruct (Qgtb (Math_abs (Point.y p - Point.y a)) 5) eqn:E2; [now right|].
      exfalso. apply Hgo. split; apply Qltb_ge; assumption.
Qed.

Lemma drawing_spans_anchor_and_pointer_witness :
  closestCropBox (target (pointerAt 100 100 InContainer)) = false /\
  Rect.x (cropRect
            (onDrawOrManipulateMove demoLayout (pointerAt 60 130 InContainer)
               (moves [] (onDrawStart demoLayout (pointerAt 100 100 InContainer)
                            demoEditor))))
  == 60.
Proof.
  split; [reflexivity|].
  destruct (drawing_spans_anchor_and_pointer demoLayout (pointerAt 100 100 InContainer)
              demoEditor [] demoLayout (pointerAt 60 130 InContainer))
    as (_ & _ & Hx & _).
  - reflexivity.
  - vm_compute. discriminate.
  - vm_compute. discriminate.
  - vm_compute. reflexivity.
  - vm_compute. reflexivity.
  - right. intros [Hnear _]. vm_compute in Hnear. apply Hnear. reflexivity.
  - rewrite Hx. vm_compute. reflexivity.
Defined.

(** ** Leaving the editor *)

(** X6. [deactivate] takes down every listener of the editor, whatever
    happened before: after any sequence of pointer events, method calls and
    canvas replacements since the constructor, no listener is registered
    anywhere once [deactivate] has run, and the state is the cleared one. *)
Theorem deactivate_releases_everything
  (resample : Canvas.t -> Q -> Q -> Q -> Q -> Q -> Q -> Q -> Q -> Canvas.t
              -> Z -> Z -> Pixel)
  (box : CropBoxEl.t) (canvas : Canvas.t) (acts : list Action) :
  listeners (deactivate (run resample acts (new_CropManager box canvas))) = ∅ /\
  isCleared (deactivate (run resample acts (new_CropManager box canvas))).
Proof.
  pose proof (run_disciplined resample acts _
                (new_CropManager_disciplined box canvas)) as [Hknown _].
  set (s := run resample acts (new_CropManager box canvas)) in *.
  clearbody s. clear acts.
  assert (Hl : listeners (deactivate s) = ∅).
  { unfold deactivate, clear, removeWindowListeners, removeEventListener,
      knownListeners in *.
    cbn [listeners set_listeners set_cropBoxEl set_activeHandle
         set_isManipulating set_isDrawing set_isCropDefined].
    apply leibniz_equiv. set_solver. }
  split; [exact Hl|].
  unfold isCleared. rewrite Hl.
  repeat split; try reflexivity. apply not_elem_of_empty.
Qed.

(** ** Where pointer events go *)

Lemma pointerdown_handlers s n :
  disciplined s ->
  handlersAt n pointerdown s
  = match n with
    | Window => []
    | Container =>
        if decide ((Container, pointerdown, DrawStart) ∈ listeners s)
        then [DrawStart] else []
    | CropBox =>
        if decide ((CropBox, pointerdown, ManipulateStart) ∈ listeners s)
        then [ManipulateStart] else []
    end.
Proof.
  intros [Hknown _]. unfold handlersAt, allHandlers, knownListeners in *.
  rewrite !filter_cons, filter_nil.
  destruct n; repeat case_decide;
    try reflexivity; exfalso;
    repeat match goal with
           | H : _ ∈ listeners _ |- _ => apply Hknown in H
           end;
    set_solver.
Qed.

(** X7. Where a pointer-down goes, on any state the editor can be in.  On
    the overlay (the crop box or one of its handles) a listening overlay
    starts a manipulation and the event stops there; it never reaches
    [onDrawStart], so a pointer-down on the overlay never discards the
    region.  In the container outside the overlay an activated editor
    starts a drawing.  Anywhere else, and whenever the node hit is not
    listening, nothing changes. *)
Theorem pointerdown_routing
  (resample : Canvas.t -> Q -> Q -> Q -> Q -> Q -> Q -> Q -> Q -> Canvas.t
              -> Z -> Z -> Pixel)
  (box : CropBoxEl.t) (canvas : Canvas.t) (acts : list Action)
  (lay : Layout) (e : PointerEvent) :
  let s := run resample acts (new_CropManager box canvas) in
  dispatch pointerdown lay e s
  = match target e with
    | OnCropBox | OnCropHandle _ =>
        if decide ((CropBox, pointerdown, ManipulateStart) ∈ listeners s)
        then onManipulateStart lay e s else s
    | InContainer =>
        if decide ((Container, pointerdown, DrawStart) ∈ listeners s)
        then onDrawStart lay e s else s
    | Elsewhere => s
    end /\
  (closestCropBox (target e) = true ->
   cropRect (dispatch pointerdown lay e s) = cropRect s /\
   isCropDefined (dispatch pointerdown lay e s) = isCropDefined s /\
   isDrawing (dispatch pointerdown lay e s) = isDrawing s).
Proof.
  cbv zeta.
  pose proof (run_disciplined resample acts _
                (new_CropManager_disciplined box canvas)) as Hs.
  set (s := run resample acts (new_CropManager box canvas)) in *.
  clearbody s. clear acts.
  assert (Hroute :
    dispatch pointerdown lay e s
    = match target e with
      | OnCropBox | OnCropHandle _ =>
          if decide ((CropBox, pointerdown, ManipulateStart) ∈ listeners s)
          then onManipulateStart lay e s else s
      | InContainer =>
          if decide ((Container, pointerdown, DrawStart) ∈ listeners s)
          then onDrawStart lay e s else s
      | Elsewhere => s
      end).
  { unfold dispatch.
    destruct (target e) eqn:Ht; cbn [propagationPath bubble].
    - rewrite (pointerdown_handlers s _ Hs). reflexivity.
    - rewrite (pointerdown_handlers s _ Hs). case_decide.
      + cbn [fold_left existsb invoke stopsPropagation]. rewrite Ht. reflexivity.
      + cbn [fold_left existsb]. rewrite (pointerdown_handlers s _ Hs). reflexivity.
    - rewrite (pointerdown_handlers s _ Hs). case_decide.
      + reflexivity.
      + cbn [fold_left existsb]. rewrite (pointerdown_handlers s _ Hs).
        case_decide.
        * cbn [fold_left existsb invoke stopsPropagation]. rewrite Ht.
          cbn [closestCropBox negb orb].
          unfold onDrawStart. rewrite Ht. cbn [closestCropBox].
          rewrite (pointerdown_handlers s _ Hs). reflexivity.
        * cbn [fold_left existsb]. rewrite (pointerdown_handlers s _ Hs).
          reflexivity.
    - rewrite (pointerdown_handlers s _ Hs). case_decide.
      + reflexivity.
      + cbn [fold_left existsb]. rewrite (pointerdown_handlers s _ Hs).
        case_decide.
        * cbn [fold_left existsb invoke stopsPropagation]. rewrite Ht.
          cbn [closestCropBox negb orb].
          unfold onDrawStart. rewrite Ht. cbn [closestCropBox].
          rewrite (pointerdown_handlers s _ Hs). reflexivity.
        * cbn [fold_left existsb]. rewrite (pointerdown_handlers s _ Hs).
          reflexivity. }
  split; [exact Hroute|].
  intros Hin. rewrite Hroute.
  destruct (target e); try discriminate; case_decide;
    repeat split; reflexivity.
Qed.

Lemma pointermove_handlers s n :
  disciplined s ->
  handlersAt n pointermove s
  = match n with
    | Window =>
        if decide ((Window, pointermove, DrawOrManipulateMove) ∈ listeners s)
        then [DrawOrManipulateMove] else []
    | _ => []
    end.
Proof.
  intros [Hknown _]. unfold handlersAt, allHandlers, knownListeners in *.
  rewrite !filter_cons, filter_nil.
  destruct n; repeat case_decide;
    try reflexivity; exfalso;
    repeat match goal with
           | H : _ ∈ listeners _ |- _ => apply Hknown in H
           end;
    set_solver.
Qed.

(** X8. Outside a gesture the pointer is ignored: on any state the editor
    can be in, while the three window listeners of a gesture are not
    registered, a pointer-move, a pointer-up and a pointer-cancel on any
    target leave the state exactly as it is. *)
Theorem pointer_ignored_outside_gesture
  (resample : Canvas.t -> Q -> Q -> Q -> Q -> Q -> Q -> Q -> Q -> Canvas.t
              -> Z -> Z -> Pixel)
  (box : CropBoxEl.t) (canvas : Canvas.t) (acts : list Action)
  (lay : Layout) (e : PointerEvent) :
  let s := run resample acts (new_CropManager box canvas) in
  gestureListenersReleased s ->
  dispatch pointermove lay e s = s /\
  dispatch pointerup lay e s = s /\
  dispatch pointercancel lay e s = s.
Proof.
  cbv zeta.
  pose proof (run_disciplined resample acts _
                (new_CropManager_disciplined box canvas)) as Hs.
  set (s := run resample acts (new_CropManager box canvas)) in *.
  clearbody s. clear acts. intros (Hm & Hu & Hc).
  split; [|split].
  - unfold dispatch.
    destruct (target e); cbn [propagationPath bubble];
      rewrite !(pointermove_handlers s _ Hs); cbn [fold_left existsb];
      case_decide; [contradiction | reflexivity | contradiction | reflexivity
                   | contradiction | reflexivity | contradiction | reflexivity].
  - rewrite (dispatch_release pointerup lay e s Hs) by (now left).
    case_decide; [contradiction | reflexivity].
  - rewrite (dispatch_release pointercancel lay e s Hs) by (now right).
    case_decide; [contradiction | reflexivity].
Qed.

Lemma pointer_ignored_outside_gesture_witness :
  gestureListenersReleased (run noResample [CallActivate]
                              (new_CropManager (CropBoxEl.mk true 0 0 0 0) demoCanvas)) /\
  dispatch pointermove demoLayout (pointerAt 10 10 InContainer)
    (run noResample [CallActivate]
       (new_CropManager (CropBoxEl.mk true 0 0 0 0) demoCanvas))
  = run noResample [CallActivate]
      (new_CropManager (CropBoxEl.mk true 0 0 0 0) demoCanvas).
Proof.
  assert (Hrel : gestureListenersReleased
                   (run noResample [CallActivate]
                      (new_CropManager (CropBoxEl.mk true 0 0 0 0) demoCanvas))).
  { unfold gestureListenersReleased.
    split; [|split]; apply (bool_decide_unpack _); vm_compute; exact I. }
  split; [exact Hrel|].
  pose proof (pointer_ignored_outside_gesture noResample (CropBoxEl.mk true 0 0 0 0)
                demoCanvas [CallActivate] demoLayout (pointerAt 10 10 InContainer))
    as Hthm.
  cbv zeta in Hthm. destruct (Hthm Hrel) as [Hmove _]. exact Hmove.
Defined.

(** ** What every defined region satisfies *)

Lemma constrainRect_well_formed W H r :
  0 <= Rect.x (constrainRect W H r) /\ 0 <= Rect.y (constrainRect W H r) /\
  minSize <= Rect.width (constrainRect W H r) /\
  minSize <= Rect.height (constrainRect W H r).
Proof.
  destruct (constrainRect_bounds W H r) as (Hx & Hy & _).
  destruct (constrainRect_sizes W H r) as ((Hw & _) & (Hh & _) & _).
  repeat split; assumption.
Qed.

Lemma move_well_formed lay e s :
  regionWellFormed s -> regionWellFormed (onDrawOrManipulateMove lay e s).
Proof.
  intros Hs. unfold regionWellFormed. destruct (isDrawing s) eqn:Hd.
  - rewrite (move_drawing lay e s Hd). cbv zeta.
    destruct (isCropDefined s) eqn:Hc.
    + intros _. rewrite constrainAndShow_rect. apply constrainRect_well_formed.
    + match goal with |- context [Qgtb ?a 5 || Qgtb ?b 5] =>
        destruct (Qgtb a 5 || Qgtb b 5) end.
      * intros _. rewrite constrainAndShow_rect. apply constrainRect_well_formed.
      * rewrite Hc. discriminate.
  - rewrite (move_not_drawing lay e s Hd).
    destruct (isCropDefined s) eqn:Hc.
    + intros _. rewrite constrainAndShow_rect. apply constrainRect_well_formed.
    + rewrite isCropDefined_set_cropRect, Hc. discriminate.
Qed.

Lemma undefined_well_formed s : isCropDefined s = false -> regionWellFormed s.
Proof. intros Hu Hd. rewrite Hu in Hd. discriminate. Qed.

Lemma invoke_well_formed h lay e s :
  regionWellFormed s -> regionWellFormed (invoke h lay e s).
Proof.
  intros Hs. destruct h; cbn [invoke].
  - destruct (closestCropBox (target e)) eqn:Ht.
    + unfold onDrawStart. rewrite Ht. exact Hs.
    + apply undefined_well_formed. now apply onDrawStart_drawing.
  - exact Hs.
  - now apply move_well_formed.
  - unfold onDrawOrManipulateEnd.
    destruct (isDrawing s && negb (isCropDefined s)).
    + apply undefined_well_formed. reflexivity.
    + exact Hs.
Qed.

Lemma bubble_well_formed path ty lay e s :
  regionWellFormed s -> regionWellFormed (bubble path ty lay e s).
Proof.
  assert (Hfold : forall hs t, regionWellFormed t ->
            regionWellFormed (fold_left (fun acc h => invoke h lay e acc) hs t)).
  { induction hs as [| h hs IH]; intros t Ht; [exact Ht|].
    cbn [fold_left]. apply IH. now apply invoke_well_formed. }
  revert s. induction path as [| n path IH]; intros s Hs; [exact Hs|].
  cbn [bubble]. destruct (existsb _ _); [|apply IH]; now apply Hfold.
Qed.

(** X9. Whatever happened to the editor since it was constructed, with
    every pointer event arriving while the canvas is on show (a positive
    rendered width), a region that is defined has a non-negative origin on
    both axes and sides of at least [minSize]: no pointer event, method
    call or replacement of the canvas leaves a defined region that is
    degenerate or starts off the surface. *)
Theorem defined_region_well_formed
  (resample : Canvas.t -> Q -> Q -> Q -> Q -> Q -> Q -> Q -> Q -> Canvas.t
              -> Z -> Z -> Pixel)
  (box : CropBoxEl.t) (canvas : Canvas.t) (acts : list Action) :
  Forall renderedWhenPointed acts ->
  let s := run resample acts (new_CropManager box canvas) in
  isCropped s = true ->
  0 <= Rect.x (cropRect s) /\ 0 <= Rect.y (cropRect s) /\
  minSize <= Rect.width (cropRect s) /\ minSize <= Rect.height (cropRect s).
Proof.
  intros _. cbv zeta.
  change (regionWellFormed (run resample acts (new_CropManager box canvas))).
  assert (Hinit : regionWellFormed (new_CropManager box canvas))
    by (apply undefined_well_formed; reflexivity).
  revert Hinit. generalize (new_CropManager box canvas) as s.
  induction acts as [| a acts IH]; intros s Hs; [exact Hs|].
  unfold run in *. cbn [fold_left]. apply IH.
  destruct a; cbn [step].
  - now apply bubble_well_formed.
  - apply undefined_well_formed. reflexivity.
  - apply undefined_well_formed. reflexivity.
  - apply undefined_well_formed. reflexivity.
  - unfold applyCropToCanvas. destruct (negb (isCropped s)); exact Hs.
  - exact Hs.
Qed.

Lemma defined_region_well_formed_witness :
  Forall renderedWhenPointed fractionalDrag /\
  isCropped (run noResample fractionalDrag
               (new_CropManager (CropBoxEl.mk true 0 0 0 0) demoCanvas)) = true /\
  minSize <= Rect.width
               (cropRect (run noResample fractionalDrag
                            (new_CropManager (CropBoxEl.mk true 0 0 0 0) demoCanvas))).
Proof.
  assert (Hshown : Forall renderedWhenPointed fractionalDrag).
  { unfold fractionalDrag.
    repeat (constructor; [first [exact I | vm_compute; reflexivity]|]). constructor. }
  assert (Hdef : isCropped (run noResample fractionalDrag
                   (new_CropManager (CropBoxEl.mk true 0 0 0 0) demoCanvas)) = true)
    by (vm_compute; reflexivity).
  split; [exact Hshown|]. split; [exact Hdef|].
  pose proof (defined_region_well_formed noResample (CropBoxEl.mk true 0 0 0 0)
                demoCanvas fractionalDrag Hshown) as Hthm.
  cbv zeta in Hthm. destruct (Hthm Hdef) as (_ & _ & Hw & _). exact Hw.
Defined.

(** * Part IV: the application around the editor *)

(** ** Reading the page after writing it *)

Lemma get_prop_set_prop_eq el n v p :
  Page.get_prop el n (Page.set_prop el n v p) = v.
Proof.
  unfold Page.get_prop, Page.set_prop. cbn [Page.props].
  now rewrite lookup_insert_eq.
Qed.

Lemma get_prop_set_prop_ne el n el' n' v p :
  (el', n') <> (el, n) ->
  Page.get_prop el n (Page.set_prop el' n' v p) = Page.get_prop el n p.
Proof.
  intros Hne. unfold Page.get_prop, Page.set_prop. cbn [Page.props].
  now rewrite lookup_insert_ne.
Qed.

Lemma get_prop_classList_add el n el' c p :
  Page.get_prop el n (Page.classList_add el' c p) = Page.get_prop el n p.
Proof. reflexivity. Qed.

Lemma get_prop_classList_remove el n el' c p :
  Page.get_prop el n (Page.classList_remove el' c p) = Page.get_prop el n p.
Proof. reflexivity. Qed.

Lemma get_prop_classList_toggle el n el' c force p :
  Page.get_prop el n (Page.classList_toggle el' c force p) = Page.get_prop el n p.
Proof. destruct force; reflexivity. Qed.

Lemma get_prop_hide_all_views el n p :
  Page.get_prop el n (Page.hide_all_views p) = Page.get_prop el n p.
Proof. reflexivity. Qed.

Lemma contains_set_prop el c el' n v p :
  Page.classList_contains el c (Page.set_prop el' n v p)
  = Page.classList_contains el c p.
Proof. reflexivity. Qed.

Lemma contains_add_eq el c p :
  Page.classList_contains el c (Page.classList_add el c p) = true.
Proof.
  unfold Page.classList_contains, Page.classList_add. cbn [Page.classes].
  apply bool_decide_eq_true. apply elem_of_union_r, elem_of_singleton. reflexivity.
Qed.

Lemma contains_add_ne el c el' c' p :
  (el', c') <> (el, c) ->
  Page.classList_contains el c (Page.classList_add el' c' p)
  = Page.classList_contains el c p.
Proof.
  intros Hne. unfold Page.classList_contains, Page.classList_add. cbn [Page.classes].
  apply bool_decide_ext. rewrite elem_of_union, elem_of_singleton.
  split; [intros [H | H]; [exact H | congruence] | intros H; now left].
Qed.

Lemma contains_remove_eq el c p :
  Page.classList_contains el c (Page.classList_remove el c p) = false.
Proof.
  unfold Page.classList_contains, Page.classList_remove. cbn [Page.classes].
  apply bool_decide_eq_false. rewrite elem_of_difference, elem_of_singleton.
  intros [_ H]. now apply H.
Qed.

Lemma contains_remove_ne el c el' c' p :
  (el', c') <> (el, c) ->
  Page.classList_contains el c (Page.classList_remove el' c' p)
  = Page.classList_contains el c p.
Proof.
  intros Hne. unfold Page.classList_contains, Page.classList_remove. cbn [Page.classes].
  apply bool_decide_ext. rewrite elem_of_difference, elem_of_singleton.
  split; [intros [H _]; exact H | intros H; split; [exact H | congruence]].
Qed.

Lemma contains_toggle_eq el c force p :
  Page.classList_contains el c (Page.classList_toggle el c force p) = force.
Proof.
  destruct force; [apply contains_add_eq | apply contains_remove_eq].
Qed.

Lemma contains_toggle_ne el c el' c' force p :
  (el', c') <> (el, c) ->
  Page.classList_contains el c (Page.classList_toggle el' c' force p)
  = Page.classList_contains el c p.
Proof.
  intros Hne. destruct force; [now apply contains_add_ne | now apply contains_remove_ne].
Qed.

Lemma contains_hide_all_views el c p :
  Page.classList_contains el c (Page.hide_all_views p)
  = Page.classList_contains el c p
    || (bool_decide (c = Cls.hidden) && Page.classList_contains el Cls.view p).
Proof.
  unfold Page.classList_contains, Page.hide_all_views. cbn [Page.classes].
  apply eq_true_iff_eq. rewrite orb_true_iff, andb_true_iff, !bool_decide_eq_true.
  rewrite elem_of_union, elem_of_map. split.
  - intros [H | ([el0 c0] & E & H)]; [now left|]. right.
    apply elem_of_filter in H as [Hv H]. cbn in E, Hv. inversion E; subst.
    split; [reflexivity | exact H].
  - intros [H | [-> H]]; [now left|]. right. exists (el, Cls.view).
    split; [reflexivity|]. apply elem_of_filter. split; [reflexivity | exact H].
Qed.

(** The observations of a page after a sequence of writes, one write at a
    time. *)
Ltac page_step :=
  first
    [ rewrite get_prop_set_prop_eq
    | rewrite get_prop_set_prop_ne by discriminate
    | rewrite get_prop_classList_add
    | rewrite get_prop_classList_remove
    | rewrite get_prop_classList_toggle
    | rewrite get_prop_hide_all_views
    | rewrite contains_set_prop
    | rewrite contains_add_eq
    | rewrite contains_add_ne by discriminate
    | rewrite contains_remove_eq
    | rewrite contains_remove_ne by discriminate
    | rewrite contains_toggle_eq
    | rewrite contains_toggle_ne by discriminate
    | rewrite contains_hide_all_views ].

Ltac page_simpl := repeat page_step.

(** ** Shrinking the photograph *)

Lemma toUnsignedLong_floor q :
  0 <= q -> q < inject_Z (2 ^ 32) -> toUnsignedLong q = Qfloor q.
Proof.
  intros Hlo Hhi.
  assert (Hq : Z.quot (Qnum q) (Zpos (Qden q)) = Qfloor q).
  { unfold Qfloor. destruct q as [n d]. cbn [Qnum Qden].
    apply Z.quot_div_nonneg; [|reflexivity].
    unfold Qle in Hlo. cbn in Hlo. lia. }
  unfold toUnsignedLong. rewrite Hq. apply Z.mod_small. split.
  - change 0%Z with (Qfloor 0). now apply Qfloor_resp_le.
  - apply Z.le_lt_trans with (Qfloor q); [lia|].
    rewrite Zlt_Qlt. apply Qle_lt_trans with q; [apply Qfloor_le | exact Hhi].
Qed.

Lemma scaled_side_le (a b m : Q) :
  0 <= a -> a <= b -> 0 < b -> 0 <= m -> 0 <= a * m / b /\ a * m / b <= m.
Proof.
  intros Ha Hab Hb Hm. split.
  - apply Qle_shift_div_l; [exact Hb|]. nra.
  - apply Qle_shift_div_r; [exact Hb|]. nra.
Qed.

Lemma scaled_side_shrinks (a b m : Q) :
  0 <= a -> 0 < b -> 0 <= m -> m <= b -> a * m / b <= a.
Proof.
  intros Ha Hb Hm Hmb. apply Qle_shift_div_r; [exact Hb|]. nra.
Qed.

Lemma Qfloor_le_Z (q : Q) (z : Z) : q <= inject_Z z -> (Qfloor q <= z)%Z.
Proof.
  intros H. rewrite <- (Qfloor_Z z). now apply Qfloor_resp_le.
Qed.

Lemma resizeCanvas_sides (canvas : Canvas.t) (maxDimension : Q) :
  (0 <= Canvas.width canvas)%Z -> (0 <= Canvas.height canvas)%Z ->
  0 < maxDimension -> maxDimension < inject_Z (2 ^ 32) ->
  match resizeCanvas canvas maxDimension with
  | SameCanvas =>
      inject_Z (Canvas.width canvas) <= maxDimension /\
      inject_Z (Canvas.height canvas) <= maxDimension
  | AwaitsBitmap offscreenCanvas newWidth newHeight =>
      Canvas.width offscreenCanvas = Qfloor newWidth /\
      Canvas.height offscreenCanvas = Qfloor newHeight /\
      0 <= newWidth /\ newWidth <= maxDimension /\
      0 <= newHeight /\ newHeight <= maxDimension /\
      newWidth <= inject_Z (Canvas.width canvas) /\
      newHeight <= inject_Z (Canvas.height canvas) /\
      (newWidth == maxDimension \/ newHeight == maxDimension) /\
      newWidth * inject_Z (Canvas.height canvas)
      == newHeight * inject_Z (Canvas.width canvas)
  end.
Proof.
  intros Hw Hh Hm Hmax. rewrite Zle_Qle in Hw, Hh.
  change (inject_Z 0) with 0 in Hw, Hh. unfold resizeCanvas.
  set (W := inject_Z (Canvas.width canvas)) in *.
  set (H := inject_Z (Canvas.height canvas)) in *.
  assert (Hwide : H < W -> maxDimension < W ->
            0 <= H * maxDimension / W /\ H * maxDimension / W <= maxDimension /\
            H * maxDimension / W <= H /\
            maxDimension * H == H * maxDimension / W * W).
  { intros E2 E1. destruct (scaled_side_le H W maxDimension) as [L1 L2]; try lra.
    split; [exact L1|]. split; [exact L2|]. split.
    - apply scaled_side_shrinks; lra.
    - field. lra. }
  assert (Htall : W <= H -> maxDimension < H ->
            0 <= W * maxDimension / H /\ W * maxDimension / H <= maxDimension /\
            W * maxDimension / H <= W /\
            W * maxDimension / H * H == maxDimension * W).
  { intros E2 E1. destruct (scaled_side_le W H maxDimension) as [L1 L2]; try lra.
    split; [exact L1|]. split; [exact L2|]. split.
    - apply scaled_side_shrinks; lra.
    - field. lra. }
  destruct (Qgtb W maxDimension) eqn:E1; cbn [negb andb].
  - apply Qltb_lt in E1.
    destruct (Qgtb W H) eqn:E2.
    + apply Qltb_lt in E2. destruct (Hwide E2 E1) as (L1 & L2 & L3 & L4).
      cbv beta iota zeta delta [Canvas.set_width Canvas.set_height Canvas.width
                                 Canvas.height Canvas.create].
      rewrite !toUnsignedLong_floor by lra.
      split; [reflexivity|]. split; [reflexivity|].
      split; [lra|]. split; [lra|]. split; [exact L1|]. split; [exact L2|].
      split; [lra|]. split; [exact L3|]. split; [left; reflexivity | exact L4].
    + apply Qltb_ge in E2. destruct (Htall E2 ltac:(lra)) as (L1 & L2 & L3 & L4).
      cbv beta iota zeta delta [Canvas.set_width Canvas.set_height Canvas.width
                                 Canvas.height Canvas.create].
      rewrite !toUnsignedLong_floor by lra.
      split; [reflexivity|]. split; [reflexivity|].
      split; [exact L1|]. split; [exact L2|]. split; [lra|]. split; [lra|].
      split; [exact L3|]. split; [lra|]. split; [right; reflexivity | exact L4].
  - apply Qltb_ge in E1.
    destruct (Qgtb H maxDimension) eqn:E3; cbn [negb].
    + apply Qltb_lt in E3.
      destruct (Qgtb W H) eqn:E2; [apply Qltb_lt in E2; lra|].
      apply Qltb_ge in E2. destruct (Htall E2 E3) as (L1 & L2 & L3 & L4).
      cbv beta iota zeta delta [Canvas.set_width Canvas.set_height Canvas.width
                                 Canvas.height Canvas.create].
      rewrite !toUnsignedLong_floor by lra.
      split; [reflexivity|]. split; [reflexivity|].
      split; [exact L1|]. split; [exact L2|]. split; [lra|]. split; [lra|].
      split; [exact L3|]. split; [lra|]. split; [right; reflexivity | exact L4].
    + apply Qltb_ge in E3. split; assumption.
Qed.

(** X10. [resizeCanvas] never enlarges and always fits: for a canvas of
    non-negative size and a positive limit below 2^32, either both sides
    are within the limit and the canvas is returned as it is, or the
    off-screen canvas it prepares has both sides within the limit and no
    larger than those of the canvas, its longer side is the whole part of
    the limit, and its sides are the whole parts of a target that has
    exactly the proportions of the canvas (the shorter side is rounded
    down). *)
Theorem resizeCanvas_fits (canvas : Canvas.t) (maxDimension : Q) :
  (0 <= Canvas.width canvas)%Z -> (0 <= Canvas.height canvas)%Z ->
  0 < maxDimension -> maxDimension < inject_Z (2 ^ 32) ->
  shrunkTo canvas maxDimension (resizeCanvas canvas maxDimension).
Proof.
  intros Hw Hh Hm Hmax. unfold shrunkTo.
  pose proof (resizeCanvas_sides canvas maxDimension Hw Hh Hm Hmax) as Hsides.
  destruct (resizeCanvas canvas maxDimension)
    as [| offscreenCanvas newWidth newHeight]; [exact Hsides|].
  destruct Hsides as (Ew & Eh & Hw0 & Hwm & Hh0 & Hhm & HwW & HhH & Hlong & Hprop).
  rewrite Ew, Eh.
  split; [apply Qle_trans with newWidth; [apply Qfloor_le | exact Hwm]|].
  split; [apply Qle_trans with newHeight; [apply Qfloor_le | exact Hhm]|].
  split; [now apply Qfloor_le_Z|]. split; [now apply Qfloor_le_Z|].
  split; [|split; [reflexivity|split; [reflexivity | exact Hprop]]].
  pose proof (Qfloor_resp_le _ _ Hwm) as Fw.
  pose proof (Qfloor_resp_le _ _ Hhm) as Fh.
  destruct Hlong as [E | E]; rewrite <- (Qfloor_comp _ _ E) in *; lia.
Qed.

Lemma resizeCanvas_fits_witness :
  (0 <= Canvas.width largePhoto)%Z /\ (0 <= Canvas.height largePhoto)%Z /\
  0 < 1280 /\ 1280 < inject_Z (2 ^ 32) /\
  shrunkTo largePhoto 1280 (resizeCanvas largePhoto 1280).
Proof.
  assert (Hw : (0 <= Canvas.width largePhoto)%Z) by (vm_compute; discriminate).
  assert (Hh : (0 <= Canvas.height largePhoto)%Z) by (vm_compute; discriminate).
  assert (Hm : 0 < 1280) by reflexivity.
  assert (Hmax : 1280 < inject_Z (2 ^ 32)) by reflexivity.
  split; [exact Hw|]. split; [exact Hh|]. split; [exact Hm|]. split; [exact Hmax|].
  exact (resizeCanvas_fits largePhoto 1280 Hw Hh Hm Hmax).
Defined.

(** ** Taking the photograph *)

Lemma capturePhoto_size resample frame canvas :
  (0 <= Canvas.width frame < 2 ^ 32)%Z -> (0 <= Canvas.height frame < 2 ^ 32)%Z ->
  Canvas.width (CameraManager.capturePhoto resample frame canvas) = Canvas.width frame /\
  Canvas.height (CameraManager.capturePhoto resample frame canvas) = Canvas.height frame.
Proof.
  intros Hw Hh. unfold CameraManager.capturePhoto. cbv zeta.
  rewrite drawImage_width, drawImage_height.
  unfold Canvas.set_width, Canvas.set_height. cbn [Canvas.width Canvas.height].
  rewrite !toUnsignedLong_inject_Z. split; now apply Z.mod_small.
Qed.

Lemma capturePhoto_pixels resample frame canvas i j :
  (0 <= Canvas.width frame < 2 ^ 32)%Z -> (0 <= Canvas.height frame < 2 ^ 32)%Z ->
  Canvas.getPixel (CameraManager.capturePhoto resample frame canvas) i j
  = Canvas.getPixel frame i j.
Proof.
  intros Hw Hh.
  destruct (capturePhoto_size resample frame canvas Hw Hh) as [Ew Eh].
  unfold Canvas.getPixel, Canvas.inside. rewrite Ew, Eh.
  destruct ((0 <=? i)%Z && (i <? Canvas.width frame)%Z && (0 <=? j)%Z
            && (j <? Canvas.height frame)%Z) eqn:Hin; [|reflexivity].
  apply andb_prop in Hin as [Hin Hj2]. apply andb_prop in Hin as [Hin Hj1].
  apply andb_prop in Hin as [Hi1 Hi2].
  apply Z.leb_le in Hi1, Hj1. apply Z.ltb_lt in Hi2, Hj2.
  unfold CameraManager.capturePhoto. cbv zeta.
  unfold Canvas.set_width, Canvas.set_height. cbn [Canvas.width Canvas.height].
  rewrite !toUnsignedLong_inject_Z, !Z.mod_small by assumption.
  rewrite drawImage_whole_pixels.
  - rewrite !Qfloor_Z. change (Qfloor 0) with 0%Z. rewrite !Z.add_0_r.
    unfold Canvas.inside.
    replace (0 <=? i)%Z with true by (symmetry; now apply Z.leb_le).
    replace (0 <=? j)%Z with true by (symmetry; now apply Z.leb_le).
    replace (i <? Canvas.width frame)%Z with true by (symmetry; now apply Z.ltb_lt).
    replace (j <? Canvas.height frame)%Z with true by (symmetry; now apply Z.ltb_lt).
    reflexivity.
  - reflexivity.
  - reflexivity.
  - apply isInteger_inject_Z.
  - apply isInteger_inject_Z.
  - change 0 with (inject_Z 0). rewrite <- Zlt_Qlt. lia.
  - change 0 with (inject_Z 0). rewrite <- Zlt_Qlt. lia.
Qed.

Lemma activate_cleared s :
  isCleared (activate s) /\ ((Container, pointerdown, DrawStart) ∈ listeners (activate s)).
Proof.
  unfold isCleared, activate, clear, addEventListener, removeEventListener.
  cbn [listeners set_listeners set_cropBoxEl set_activeHandle set_isManipulating
       set_isDrawing set_isCropDefined isCropDefined isDrawing isManipulating
       activeHandle cropBoxEl CropBoxEl.hidden CropBoxEl.set_hidden].
  split; [|set_solver].
  split; [reflexivity|]. split; [reflexivity|]. split; [reflexivity|].
  split; [reflexivity|]. split; [reflexivity|]. set_solver.
Qed.

Lemma deactivate_off s : editorOff (deactivate s).
Proof.
  unfold editorOff, isCleared, gestureListenersReleased, deactivate, clear,
    removeWindowListeners, addEventListener, removeEventListener.
  cbn [listeners set_listeners set_cropBoxEl set_activeHandle set_isManipulating
       set_isDrawing set_isCropDefined isCropDefined isDrawing isManipulating
       activeHandle cropBoxEl CropBoxEl.hidden CropBoxEl.set_hidden].
  split; [|split; [set_solver|split; [set_solver|split; set_solver]]].
  split; [reflexivity|]. split; [reflexivity|]. split; [reflexivity|].
  split; [reflexivity|]. split; [reflexivity|]. set_solver.
Qed.

(** X11. Capturing takes the frame as it is: after [capturePhoto] the canvas
    has the size of the video frame and, pixel for pixel, its content (no
    resampling, since the frame is drawn at its own size); the camera holds
    no stream any more; the editor is in its cleared state and listens for
    a drawing on the container; the preview view has been asked for. *)
Theorem capturePhoto_takes_the_frame
  (resample : Canvas.t -> Q -> Q -> Q -> Q -> Q -> Q -> Q -> Q -> Canvas.t
              -> Z -> Z -> Pixel)
  (frame : Canvas.t) (a : App.t) :
  (0 <= Canvas.width frame < 2 ^ 32)%Z -> (0 <= Canvas.height frame < 2 ^ 32)%Z ->
  let a' := App.capturePhoto resample frame a in
  let photo := canvasEl (App.cropper a') in
  Canvas.width photo = Canvas.width frame /\
  Canvas.height photo = Canvas.height frame /\
  (forall i j, Canvas.getPixel photo i j = Canvas.getPixel frame i j) /\
  CameraManager.stream (App.camera a') = None /\
  isCleared (App.cropper a') /\
  ((Container, pointerdown, DrawStart) ∈ listeners (App.cropper a')) /\
  App.page a' = UIManager.showView preview_view (App.page a).
Proof.
  intros Hw Hh. cbv zeta.
  change (canvasEl (App.cropper (App.capturePhoto resample frame a)))
    with (CameraManager.capturePhoto resample frame (canvasEl (App.cropper a))).
  destruct (capturePhoto_size resample frame (canvasEl (App.cropper a)) Hw Hh)
    as [Ew Eh].
  split; [exact Ew|]. split; [exact Eh|].
  split; [intros i j; now apply capturePhoto_pixels|].
  split.
  { unfold App.capturePhoto. cbn [App.camera App.set_cropper App.set_page App.set_camera].
    unfold CameraManager.stop. destruct (CameraManager.stream (App.camera a)) eqn:E.
    - reflexivity.
    - exact E. }
  split; [apply activate_cleared|]. split; [apply activate_cleared|]. reflexivity.
Qed.

Lemma capturePhoto_takes_the_frame_witness :
  (0 <= Canvas.width demoCanvas < 2 ^ 32)%Z /\
  (0 <= Canvas.height demoCanvas < 2 ^ 32)%Z /\
  Canvas.getPixel (canvasEl (App.cropper (App.capturePhoto noResample demoCanvas demoApp)))
    7 9
  = Canvas.getPixel demoCanvas 7 9.
Proof.
  assert (Hw : (0 <= Canvas.width demoCanvas < 2 ^ 32)%Z)
    by (vm_compute; split; [discriminate | reflexivity]).
  assert (Hh : (0 <= Canvas.height demoCanvas < 2 ^ 32)%Z)
    by (vm_compute; split; [discriminate | reflexivity]).
  split; [exact Hw|]. split; [exact Hh|].
  pose proof (capturePhoto_takes_the_frame noResample demoCanvas demoApp Hw Hh)
    as Hthm.
  cbv zeta in Hthm. destruct Hthm as (_ & _ & Hpix & _). apply Hpix.
Defined.

(** ** The region and the photograph *)

Lemma undefined_settled s : isCropDefined s = false -> definedSettled s.
Proof. intros Hu Hd. rewrite Hu in Hd. discriminate. Qed.

Lemma constrainAndShow_settled lay r s : settled (constrainAndShow lay r s).
Proof.
  unfold settled. rewrite constrainAndShow_rect.
  change (canvasEl (constrainAndShow lay r s)) with (canvasEl s).
  apply constrainRect_twice.
Qed.

Lemma move_settled lay e s :
  definedSettled s -> definedSettled (onDrawOrManipulateMove lay e s).
Proof.
  intros Hs. unfold definedSettled. destruct (isDrawing s) eqn:Hd.
  - rewrite (move_drawing lay e s Hd). cbv zeta.
    destruct (isCropDefined s) eqn:Hc.
    + intros _. apply constrainAndShow_settled.
    + match goal with |- context [Qgtb ?a 5 || Qgtb ?b 5] =>
        destruct (Qgtb a 5 || Qgtb b 5) end.
      * intros _. apply constrainAndShow_settled.
      * rewrite Hc. discriminate.
  - rewrite (move_not_drawing lay e s Hd).
    destruct (isCropDefined s) eqn:Hc.
    + intros _. apply constrainAndShow_settled.
    + rewrite isCropDefined_set_cropRect, Hc. discriminate.
Qed.

Lemma invoke_settled h lay e s :
  definedSettled s -> definedSettled (invoke h lay e s).
Proof.
  intros Hs. destruct h; cbn [invoke].
  - destruct (closestCropBox (target e)) eqn:Ht.
    + unfold onDrawStart. rewrite Ht. exact Hs.
    + apply undefined_settled. now apply onDrawStart_drawing.
  - exact Hs.
  - now apply move_settled.
  - unfold onDrawOrManipulateEnd.
    destruct (isDrawing s && negb (isCropDefined s)).
    + apply undefined_settled. reflexivity.
    + exact Hs.
Qed.

Lemma bubble_settled path ty lay e s :
  definedSettled s -> definedSettled (bubble path ty lay e s).
Proof.
  assert (Hfold : forall hs t, definedSettled t ->
            definedSettled (fold_left (fun acc h => invoke h lay e acc) hs t)).
  { induction hs as [| h hs IH]; intros t Ht; [exact Ht|].
    cbn [fold_left]. apply IH. now apply invoke_settled. }
  revert s. induction path as [| n path IH]; intros s Hs; [exact Hs|].
  cbn [bubble]. destruct (existsb _ _); [|apply IH]; now apply Hfold.
Qed.

Lemma start_cropper API_KEY a :
  App.cropper (fst (App.start API_KEY a)) = App.cropper a \/
  App.cropper (fst (App.start API_KEY a)) = deactivate (App.cropper a).
Proof.
  unfold App.start.
  destruct (negb (bool_decide (is_Some (App.gemini a))) && _ && _); [left; reflexivity|].
  destruct (App.gemini a) as [g|].
  - right. reflexivity.
  - destruct (GeminiService.new None (App.localStorage a) API_KEY);
      [right | left]; reflexivity.
Qed.

Lemma act_settled resample rotated API_KEY a u :
  definedSettled (App.cropper a) ->
  definedSettled (App.cropper (App.act resample rotated API_KEY a u)).
Proof.
  intros Hs. destruct u; cbn [App.act].
  - apply undefined_settled. reflexivity.
  - apply undefined_settled. reflexivity.
  - apply undefined_settled. unfold App.confirmPhoto.
    destruct (isCropped (App.cropper a));
      destruct (App.previewContainer _); reflexivity.
  - destruct (start_cropper API_KEY a) as [E | E]; rewrite E.
    + exact Hs.
    + apply undefined_settled. reflexivity.
  - cbn [App.cropper App.set_cropper]. now apply bubble_settled.
Qed.

(** X12. The application never changes the photograph under a defined
    region.  Through any sequence of captures, rotations, confirmations,
    restarts and pointer events since the constructor, the pointer being
    used only while the canvas is on show (a positive rendered width), a
    region that is defined is a fixed point of the constraint pass on the
    canvas as it is at that moment, and so satisfies the bounds of the pass
    with respect to the current photograph: every method that resizes the
    canvas ([capturePhoto], [rotatePreviewImage], [confirmPhoto] through
    [applyCropToCanvas]) clears the region before it returns.  (What
    [confirmPhoto] does after its [await] is not among the steps.) *)
Theorem session_region_within_photograph
  (resample : Canvas.t -> Q -> Q -> Q -> Q -> Q -> Q -> Q -> Q -> Canvas.t
              -> Z -> Z -> Pixel)
  (rotated : Canvas.t -> Z -> Z -> Pixel) (API_KEY : option string)
  (p : Page.t) (box : CropBoxEl.t) (canvas : Canvas.t) (ls : Storage.t)
  (container : option nat) (us : list App.UserAction) :
  Forall renderedWhenUsed us ->
  let a := App.session resample rotated API_KEY us
             (App.new p box canvas ls container) in
  let r := cropRect (App.cropper a) in
  let photoWidth := inject_Z (Canvas.width (canvasEl (App.cropper a))) in
  let photoHeight := inject_Z (Canvas.height (canvasEl (App.cropper a))) in
  isCropped (App.cropper a) = true ->
  constrainRect photoWidth photoHeight r = r /\
  0 <= Rect.x r /\ 0 <= Rect.y r /\
  withinOrFloored photoWidth (Rect.x r) (Rect.width r) /\
  withinOrFloored photoHeight (Rect.y r) (Rect.height r).
Proof.
  intros _. cbv zeta.
  assert (Hinv : definedSettled
            (App.cropper (App.session resample rotated API_KEY us
                            (App.new p box canvas ls container)))).
  { assert (Hinit : definedSettled (App.cropper (App.new p box canvas ls container)))
      by (apply undefined_settled; reflexivity).
    revert Hinit. generalize (App.new p box canvas ls container) as a.
    induction us as [| u us IH]; intros a Ha; [exact Ha|].
    unfold App.session in *. cbn [fold_left]. apply IH. now apply act_settled. }
  intros Hdef. specialize (Hinv Hdef). unfold settled in Hinv.
  split; [exact Hinv|]. rewrite <- Hinv. apply constrainRect_bounds.
Qed.

Lemma session_region_within_photograph_witness :
  Forall renderedWhenUsed demoSession /\
  isCropped (App.cropper (App.session noResample noRotation None demoSession demoApp))
  = true /\
  0 <= Rect.x (cropRect (App.cropper
                 (App.session noResample noRotation None demoSession demoApp))).
Proof.
  assert (Hshown : Forall renderedWhenUsed demoSession).
  { unfold demoSession.
    repeat (constructor; [first [exact I | vm_compute; reflexivity]|]). constructor. }
  assert (Hdef : isCropped (App.cropper
                   (App.session noResample noRotation None demoSession demoApp))
                 = true) by (vm_compute; reflexivity).
  split; [exact Hshown|]. split; [exact Hdef|].
  pose proof (session_region_within_photograph noResample noRotation None demoPage
                (CropBoxEl.mk true 0 0 0 0) demoCanvas demoStorage (Some 0%nat)
                demoSession Hshown) as Hthm.
  cbv zeta in Hthm. destruct (Hthm Hdef) as (_ & Hx & _). exact Hx.
Defined.

(** ** Confirming the photograph *)

Lemma confirmPhoto_canvas_range resample a :
  (0 <= Canvas.width (canvasEl (App.cropper a)))%Z ->
  (0 <= Canvas.height (canvasEl (App.cropper a)))%Z ->
  (0 <= Canvas.width (canvasEl (App.cropper (fst (App.confirmPhoto resample a)))))%Z /\
  (0 <= Canvas.height (canvasEl (App.cropper (fst (App.confirmPhoto resample a)))))%Z.
Proof.
  intros Hw Hh. unfold App.confirmPhoto.
  destruct (isCropped (App.cropper a)) eqn:Hc.
  - destruct (applyCropToCanvas_size resample (App.cropper a) Hc) as [Ew Eh].
    destruct (App.previewContainer _);
      cbn [fst App.cropper App.set_cropper App.set_previewContainer];
      change (canvasEl (deactivate ?s)) with (canvasEl s);
      rewrite Ew, Eh; split; apply toUnsignedLong_range.
  - destruct (App.previewContainer _);
      cbn [fst App.cropper App.set_cropper App.set_previewContainer];
      change (canvasEl (deactivate ?s)) with (canvasEl s); split; assumption.
Qed.

Lemma confirmPhoto_off resample a :
  editorOff (App.cropper (fst (App.confirmPhoto resample a))).
Proof.
  unfold App.confirmPhoto.
  destruct (isCropped (App.cropper a)); destruct (App.previewContainer _);
    cbn [fst App.cropper App.set_cropper App.set_previewContainer];
    apply deactivate_off.
Qed.

Lemma confirmPhoto_pending resample a loaders :
  App.previewContainer a = Some loaders ->
  let a1 := fst (App.confirmPhoto resample a) in
  App.confirmPhoto resample a
  = (a1, Some (resizeCanvas (canvasEl (App.cropper a1)) 1280)) /\
  App.previewContainer a1 = Some (S loaders) /\
  App.page a1 = App.page a.
Proof.
  intros Hc. cbv zeta. unfold App.confirmPhoto.
  destruct (isCropped (App.cropper a));
    cbn [App.previewContainer App.set_cropper]; rewrite Hc;
    repeat split; reflexivity.
Qed.

(** X13. Confirming, from the press of the button to the end, when the
    bitmap arrives: the photograph ends with both sides at most 1280,
    cropped or not; the editor is switched off; the result view is prepared
    with the data URL of that final photograph; and the loader appended to
    the preview container has been removed again. *)
Theorem confirmPhoto_fits
  (resample : Canvas.t -> Q -> Q -> Q -> Q -> Q -> Q -> Q -> Q -> Canvas.t
              -> Z -> Z -> Pixel)
  (toDataURL : Canvas.t -> string) (renderMarkdown : string -> string)
  (imageBitmap : Canvas.t) (a : App.t) (loaders : nat) :
  App.previewContainer a = Some loaders ->
  (0 <= Canvas.width (canvasEl (App.cropper a)))%Z ->
  (0 <= Canvas.height (canvasEl (App.cropper a)))%Z ->
  let a' := App.confirmPhoto_completed resample toDataURL renderMarkdown
              (Some imageBitmap) a in
  let photo := canvasEl (App.cropper a') in
  (Canvas.width photo <= 1280)%Z /\ (Canvas.height photo <= 1280)%Z /\
  editorOff (App.cropper a') /\
  App.page a' = UIManager.prepareResultView (toDataURL photo) (App.page a) /\
  App.previewContainer a' = Some loaders.
Proof.
  intros Hc Hw Hh. cbv zeta. unfold App.confirmPhoto_completed.
  destruct (confirmPhoto_pending resample a loaders Hc) as (E & Hl & Hp).
  destruct (confirmPhoto_canvas_range resample a Hw Hh) as [Hw1 Hh1].
  pose proof (confirmPhoto_off resample a) as Hoff.
  rewrite E. set (a1 := fst (App.confirmPhoto resample a)) in *. clearbody a1.
  assert (Hmax : (1280 : Q) < inject_Z (2 ^ 32)) by reflexivity.
  pose proof (resizeCanvas_sides (canvasEl (App.cropper a1)) 1280 Hw1 Hh1
                ltac:(reflexivity) Hmax) as Hsides.
  unfold App.confirmPhoto_resumed.
  destruct (resizeCanvas (canvasEl (App.cropper a1)) 1280)
    as [| offscreenCanvas newWidth newHeight].
  - destruct Hsides as [Sw Sh]. cbv zeta.
    cbn [App.previewContainer App.set_page App.cropper App.page]. rewrite Hl.
    cbn [App.previewContainer App.set_page App.cropper App.page
         App.set_previewContainer Nat.pred].
    rewrite Hp.
    split; [rewrite Zle_Qle; exact Sw|]. split; [rewrite Zle_Qle; exact Sh|].
    split; [exact Hoff|]. split; reflexivity.
  - destruct Hsides as (Ew & Eh & Hw0 & Hwm & Hh0 & Hhm & _).
    unfold App.resizeCanvas_resumed. cbv zeta.
    cbn [App.previewContainer App.set_page App.cropper App.page App.set_cropper].
    rewrite Hl.
    cbn [App.previewContainer App.set_page App.cropper App.page
         App.set_previewContainer Nat.pred App.set_cropper].
    rewrite Hp.
    change (canvasEl (set_canvasEl ?c ?s)) with c.
    assert (Hrw : (0 <= Qfloor newWidth <= 1280)%Z).
    { split; [change 0%Z with (Qfloor 0); now apply Qfloor_resp_le|].
      now apply Qfloor_le_Z. }
    assert (Hrh : (0 <= Qfloor newHeight <= 1280)%Z).
    { split; [change 0%Z with (Qfloor 0); now apply Qfloor_resp_le|].
      now apply Qfloor_le_Z. }
    assert (Esw : Canvas.width
              (drawImage3 resample
                 (drawImage3 resample imageBitmap 0 0 offscreenCanvas) 0 0
                 (Canvas.set_height
                    (inject_Z (Canvas.height
                       (drawImage3 resample imageBitmap 0 0 offscreenCanvas)))
                    (Canvas.set_width
                       (inject_Z (Canvas.width
                          (drawImage3 resample imageBitmap 0 0 offscreenCanvas)))
                       (canvasEl (App.cropper a1)))))
            = Qfloor newWidth).
    { unfold drawImage3. rewrite !drawImage_width.
      unfold Canvas.set_height, Canvas.set_width. cbn [Canvas.width].
      rewrite toUnsignedLong_inject_Z, Ew. apply Z.mod_small. lia. }
    assert (Esh : Canvas.height
              (drawImage3 resample
                 (drawImage3 resample imageBitmap 0 0 offscreenCanvas) 0 0
                 (Canvas.set_height
                    (inject_Z (Canvas.height
                       (drawImage3 resample imageBitmap 0 0 offscreenCanvas)))
                    (Canvas.set_width
                       (inject_Z (Canvas.width
                          (drawImage3 resample imageBitmap 0 0 offscreenCanvas)))
                       (canvasEl (App.cropper a1)))))
            = Qfloor newHeight).
    { unfold drawImage3. rewrite !drawImage_height.
      unfold Canvas.set_height, Canvas.set_width. cbn [Canvas.height].
      rewrite ?drawImage_height.
      rewrite toUnsignedLong_inject_Z, Eh. apply Z.mod_small. lia. }
    split; [rewrite Esw; lia|]. split; [rewrite Esh; lia|].
    split; [exact Hoff|]. split; reflexivity.
Qed.

Lemma confirmPhoto_fits_witness :
  App.previewContainer demoAppWithLargePhoto = Some 0%nat /\
  (0 <= Canvas.width (canvasEl (App.cropper demoAppWithLargePhoto)))%Z /\
  (0 <= Canvas.height (canvasEl (App.cropper demoAppWithLargePhoto)))%Z /\
  (Canvas.width
     (canvasEl (App.cropper
        (App.confirmPhoto_completed noResample (fun _ => "data:,"%string) plainText
           (Some demoCanvas) demoAppWithLargePhoto))) <= 1280)%Z.
Proof.
  assert (Hc : App.previewContainer demoAppWithLargePhoto = Some 0%nat) by reflexivity.
  assert (Hw : (0 <= Canvas.width (canvasEl (App.cropper demoAppWithLargePhoto)))%Z)
    by (vm_compute; discriminate).
  assert (Hh : (0 <= Canvas.height (canvasEl (App.cropper demoAppWithLargePhoto)))%Z)
    by (vm_compute; discriminate).
  split; [exact Hc|]. split; [exact Hw|]. split; [exact Hh|].
  pose proof (confirmPhoto_fits noResample (fun _ => "data:,"%string) plainText
                demoCanvas demoAppWithLargePhoto 0%nat Hc Hw Hh) as Hthm.
  cbv zeta in Hthm. destruct Hthm as (Hfit & _). exact Hfit.
Defined.

(** ** The API key *)

Lemma truthyString_Some k : truthyString (Some k) = truthy k.
Proof. reflexivity. Qed.

Lemma hasStoredApiKey_stored ls :
  GeminiService.hasStoredApiKey ls
  = truthyString (GeminiService.getStoredApiKey ls).
Proof.
  unfold GeminiService.hasStoredApiKey, GeminiService.getStoredApiKey.
  destruct (Storage.accessible ls); reflexivity.
Qed.

Lemma new_GeminiService_key apiKey ls env :
  GeminiService.new apiKey ls env
  = if truthyString apiKey then GeminiService.mk <$> apiKey
    else if truthyString (GeminiService.getStoredApiKey ls)
         then GeminiService.mk <$> GeminiService.getStoredApiKey ls
         else if truthyString env then GeminiService.mk <$> env else None.
Proof.
  unfold GeminiService.new, orElse.
  destruct (truthyString apiKey) eqn:E1.
  - destruct apiKey as [k|];
      [repeat (rewrite E1; cbv beta iota); reflexivity | discriminate].
  - destruct (truthyString (GeminiService.getStoredApiKey ls)) eqn:E2.
    + destruct (GeminiService.getStoredApiKey ls) as [k|];
        [repeat (rewrite E2; cbv beta iota); reflexivity | discriminate].
    + destruct env as [k|]; [|reflexivity].
      destruct (truthyString (Some k)); reflexivity.
Qed.

Lemma saveApiKey_stored apiKey ls ls' :
  GeminiService.saveApiKey apiKey ls = Some ls' ->
  GeminiService.getStoredApiKey ls' = Some apiKey.
Proof.
  unfold GeminiService.saveApiKey, GeminiService.getStoredApiKey.
  destruct (Storage.accessible ls) eqn:Ea; [|discriminate].
  destruct (Storage.quotaExceeded ls); [discriminate|]. cbn [andb negb].
  intros [= <-]. cbn [Storage.accessible Storage.items].
  apply lookup_insert_eq.
Qed.

(** X14. Where [start] finds the key when no service exists yet: a
    non-empty key in the browser's storage is used, before the key of the
    build; without a stored one the key of the build is used; without
    either, only the dialog is opened.  In the first two cases the
    construction of the service succeeds, so the branch of [start] that
    reports a failed initialisation (lines 1330-1334) is never taken, and
    [start] goes on to reset the result view, switch the editor off and
    start the camera. *)
Theorem start_finds_the_key (API_KEY : option string) (a : App.t) :
  App.gemini a = None ->
  let stored := GeminiService.getStoredApiKey (App.localStorage a) in
  let key := if truthyString stored then stored else API_KEY in
  App.start API_KEY a
  = if truthyString key
    then
      (App.set_camera (CameraManager.start (App.camera a))
         (App.set_cropper (deactivate (App.cropper a))
            (App.set_page (UIManager.resetResultView (App.page a))
               (App.set_gemini (GeminiService.mk <$> key) a))),
       true)
    else (App.set_page (UIManager.showApiKeyModal (App.page a)) a, false).
Proof.
  intros Hg. cbv zeta. unfold App.start. rewrite Hg.
  rewrite hasStoredApiKey_stored, new_GeminiService_key.
  change (truthyString None) with false. cbv iota.
  change (bool_decide (is_Some (@None GeminiService.t))) with false.
  cbn [negb andb].
  destruct (truthyString (GeminiService.getStoredApiKey (App.localStorage a))) eqn:E1.
  - cbn [negb andb]. rewrite E1.
    destruct (GeminiService.getStoredApiKey (App.localStorage a)) as [k|];
      [reflexivity | discriminate].
  - cbn [negb andb].
    destruct (truthyString API_KEY) eqn:E2; cbn [negb]; [|reflexivity].
    destruct API_KEY as [k|]; [reflexivity | discriminate].
Qed.

Lemma start_finds_the_key_witness :
  App.gemini demoApp = None /\
  App.start (Some "built-in"%string) demoApp
  = (App.set_camera (CameraManager.start (App.camera demoApp))
       (App.set_cropper (deactivate (App.cropper demoApp))
          (App.set_page (UIManager.resetResultView (App.page demoApp))
             (App.set_gemini (Some (GeminiService.mk "built-in")) demoApp))),
     true).
Proof.
  split; [reflexivity|].
  exact (start_finds_the_key (Some "built-in"%string) demoApp eq_refl).
Defined.

Lemma start_with_service API_KEY a service :
  App.gemini a = Some service ->
  App.start API_KEY a
  = (App.set_camera (CameraManager.start (App.camera a))
       (App.set_cropper (deactivate (App.cropper a))
          (App.set_page (UIManager.resetResultView (App.page a)) a)),
     true).
Proof.
  intros Hg. unfold App.start. rewrite Hg.
  change (bool_decide (is_Some (Some service))) with true. reflexivity.
Qed.

Lemma handleApiKeySubmit_saved API_KEY a ls' :
  let apiKey := trim (Page.get_prop El.apiKeyInput Prp.value (App.page a)) in
  truthy apiKey = true ->
  GeminiService.saveApiKey apiKey (App.localStorage a) = Some ls' ->
  App.handleApiKeySubmit API_KEY a
  = App.start API_KEY
      (App.set_page
         (UIManager.hideApiKeyModal (UIManager.clearApiKeyError (App.page a)))
         (App.set_gemini (Some (GeminiService.mk apiKey))
            (App.set_localStorage ls' a))).
Proof.
  cbv zeta. intros Hkey Hsave. unfold App.handleApiKeySubmit. rewrite Hkey.
  cbn [negb]. cbv zeta.
  change (App.localStorage (App.set_page ?p a)) with (App.localStorage a).
  rewrite new_GeminiService_key, truthyString_Some, Hkey, Hsave. reflexivity.
Qed.

Lemma handleApiKeySubmit_refused API_KEY a :
  let apiKey := trim (Page.get_prop El.apiKeyInput Prp.value (App.page a)) in
  truthy apiKey = true ->
  GeminiService.saveApiKey apiKey (App.localStorage a) = None ->
  App.handleApiKeySubmit API_KEY a
  = (App.set_page
       (UIManager.showApiKeyError
          "Invalid API key. Please check your key and try again."
          (UIManager.clearApiKeyError (App.page a))) a,
     false).
Proof.
  cbv zeta. intros Hkey Hsave. unfold App.handleApiKeySubmit. rewrite Hkey.
  cbn [negb]. cbv zeta.
  change (App.localStorage (App.set_page ?p a)) with (App.localStorage a).
  rewrite new_GeminiService_key, truthyString_Some, Hkey, Hsave. reflexivity.
Qed.

(** X15. A key that is typed in and can be stored is the key from then on:
    after the submission the service holds the trimmed input, the storage
    holds it too, a service constructed later without an explicit key gets
    the same key whatever the key of the build is, the dialog is closed,
    its input emptied, and the camera is being started. *)
Theorem handleApiKeySubmit_keeps_the_key
  (API_KEY : option string) (a : App.t) (ls' : Storage.t) :
  let apiKey := trim (Page.get_prop El.apiKeyInput Prp.value (App.page a)) in
  truthy apiKey = true ->
  GeminiService.saveApiKey apiKey (App.localStorage a) = Some ls' ->
  let a' := fst (App.handleApiKeySubmit API_KEY a) in
  App.gemini a' = Some (GeminiService.mk apiKey) /\
  App.localStorage a' = ls' /\
  (forall env, GeminiService.new None (App.localStorage a') env
               = Some (GeminiService.mk apiKey)) /\
  Page.get_prop El.apiKeyModal Prp.open (App.page a') = "false"%string /\
  Page.get_prop El.apiKeyInput Prp.value (App.page a') = ""%string /\
  snd (App.handleApiKeySubmit API_KEY a) = true.
Proof.
  cbv zeta. intros Hkey Hsave.
  rewrite (handleApiKeySubmit_saved API_KEY a ls' Hkey Hsave).
  rewrite start_with_service
    with (service := GeminiService.mk
                       (trim (Page.get_prop El.apiKeyInput Prp.value (App.page a))))
    by reflexivity.
  cbn [fst snd App.gemini App.localStorage App.page App.set_camera App.set_cropper
       App.set_page App.set_gemini App.set_localStorage].
  split; [reflexivity|]. split; [reflexivity|].
  split.
  { intros env. rewrite new_GeminiService_key. change (truthyString None) with false.
    cbv iota. rewrite (saveApiKey_stored _ _ _ Hsave), truthyString_Some, Hkey.
    reflexivity. }
  unfold UIManager.resetResultView, UIManager.hideApiKeyModal,
    UIManager.clearApiKeyError, UIManager.showLoader.
  cbv zeta.
  split; [page_simpl; reflexivity|]. split; [page_simpl; reflexivity | reflexivity].
Qed.

Lemma handleApiKeySubmit_keeps_the_key_witness :
  truthy (trim (Page.get_prop El.apiKeyInput Prp.value (App.page demoApp))) = true /\
  GeminiService.saveApiKey
    (trim (Page.get_prop El.apiKeyInput Prp.value (App.page demoApp)))
    (App.localStorage demoApp)
  = Some (Storage.mk true false {[ "gemini-api-key"%string := "secret"%string ]}) /\
  App.gemini (fst (App.handleApiKeySubmit None demoApp))
  = Some (GeminiService.mk
            (trim (Page.get_prop El.apiKeyInput Prp.value (App.page demoApp)))).
Proof.
  assert (Hkey : truthy (trim (Page.get_prop El.apiKeyInput Prp.value
                                 (App.page demoApp))) = true)
    by (vm_compute; reflexivity).
  assert (Hsave : GeminiService.saveApiKey
            (trim (Page.get_prop El.apiKeyInput Prp.value (App.page demoApp)))
            (App.localStorage demoApp)
          = Some (Storage.mk true false
                    {[ "gemini-api-key"%string := "secret"%string ]}))
    by (vm_compute; reflexivity).
  split; [exact Hkey|]. split; [exact Hsave|].
  pose proof (handleApiKeySubmit_keeps_the_key None demoApp _ Hkey Hsave) as Hthm.
  cbv zeta in Hthm. destruct Hthm as (Hg & _). exact Hg.
Defined.

(** X16. When the storage cannot be written (access denied or quota
    exhausted), a non-blank key is reported as invalid and is not used: the
    service, the storage and the editor are as before, the dialog stays as
    it was, the error text reads "Invalid API key. ..." and is shown, and
    the camera is not started. *)
Theorem handleApiKeySubmit_unwritable_storage
  (API_KEY : option string) (a : App.t) :
  let apiKey := trim (Page.get_prop El.apiKeyInput Prp.value (App.page a)) in
  truthy apiKey = true ->
  GeminiService.saveApiKey apiKey (App.localStorage a) = None ->
  let a' := fst (App.handleApiKeySubmit API_KEY a) in
  App.gemini a' = App.gemini a /\
  App.localStorage a' = App.localStorage a /\
  App.cropper a' = App.cropper a /\
  Page.get_prop El.apiKeyError Prp.textContent (App.page a')
  = "Invalid API key. Please check your key and try again."%string /\
  Page.classList_contains El.apiKeyError Cls.hidden (App.page a') = false /\
  Page.get_prop El.apiKeyModal Prp.open (App.page a')
  = Page.get_prop El.apiKeyModal Prp.open (App.page a) /\
  snd (App.handleApiKeySubmit API_KEY a) = false.
Proof.
  cbv zeta. intros Hkey Hsave.
  rewrite (handleApiKeySubmit_refused API_KEY a Hkey Hsave).
  cbn [fst snd App.gemini App.localStorage App.cropper App.page App.set_page].
  split; [reflexivity|]. split; [reflexivity|]. split; [reflexivity|].
  unfold UIManager.showApiKeyError, UIManager.clearApiKeyError. cbv zeta.
  split; [page_simpl; reflexivity|]. split; [page_simpl; reflexivity|].
  split; [page_simpl; reflexivity | reflexivity].
Qed.

Lemma handleApiKeySubmit_unwritable_storage_witness :
  truthy (trim (Page.get_prop El.apiKeyInput Prp.value
                  (App.page (App.set_localStorage fullStorage demoApp)))) = true /\
  GeminiService.saveApiKey
    (trim (Page.get_prop El.apiKeyInput Prp.value
             (App.page (App.set_localStorage fullStorage demoApp))))
    (App.localStorage (App.set_localStorage fullStorage demoApp)) = None /\
  App.gemini (fst (App.handleApiKeySubmit None
                     (App.set_localStorage fullStorage demoApp))) = None.
Proof.
  assert (Hkey : truthy (trim (Page.get_prop El.apiKeyInput Prp.value
                   (App.page (App.set_localStorage fullStorage demoApp)))) = true)
    by (vm_compute; reflexivity).
  assert (Hsave : GeminiService.saveApiKey
            (trim (Page.get_prop El.apiKeyInput Prp.value
                     (App.page (App.set_localStorage fullStorage demoApp))))
            (App.localStorage (App.set_localStorage fullStorage demoApp)) = None)
    by (vm_compute; reflexivity).
  split; [exact Hkey|]. split; [exact Hsave|].
  pose proof (handleApiKeySubmit_unwritable_storage None
                (App.set_localStorage fullStorage demoApp) Hkey Hsave) as Hthm.
  cbv zeta in Hthm. destruct Hthm as (Hg & _). exact Hg.
Defined.

(** ** Requests *)

Lemma handleGeminiRequest_with_service renderMarkdown request onResult retryAction a service :
  App.gemini a = Some service ->
  App.handleGeminiRequest renderMarkdown request onResult retryAction a
  = (App.set_page (busyPage (App.page a)) a,
     Some (App.mkPending (request (App.set_page (busyPage (App.page a)) a))
             onResult retryAction)).
Proof.
  intros Hg. unfold App.handleGeminiRequest. rewrite Hg. reflexivity.
Qed.

Lemma trim_empty : trim "" = ""%string.
Proof. reflexivity. Qed.

Lemma solveFromText_asks renderMarkdown a service :
  App.gemini a = Some service ->
  truthy (trim (UIManager.getTranscribedText (App.page a))) = true ->
  App.solveFromText renderMarkdown a
  = (App.set_page (busyPage (App.page a)) a,
     Some (App.mkPending
             (GetAnswerFromText (UIManager.getTranscribedText (App.page a))
                (App.selectedModel a))
             ShowAnswer RetrySolveFromText)).
Proof.
  intros Hg Ht. unfold App.solveFromText. rewrite Ht. cbn [negb].
  rewrite (handleGeminiRequest_with_service _ _ _ _ _ _ Hg). reflexivity.
Qed.

Lemma rejected_page renderMarkdown pending thrown a :
  App.handleGeminiRequest_resumed renderMarkdown pending (Rejected thrown) a
  = App.set_page
      (UIManager.showLoader false
         (UIManager.displayErrorWithRetry renderMarkdown (errorMessageFor thrown)
            (App.page a)))
      (App.set_lastFailedRequest (Some (App.retryAction pending)) a).
Proof. reflexivity. Qed.

Lemma failed_page_text renderMarkdown message p :
  UIManager.getTranscribedText
    (UIManager.showLoader false
       (UIManager.displayErrorWithRetry renderMarkdown message p)) = ""%string.
Proof.
  unfold UIManager.getTranscribedText, UIManager.showLoader,
    UIManager.displayErrorWithRetry, UIManager.displayAnswer,
    UIManager.resetResultView, UIManager.showView, UIManager.showLoader.
  cbv zeta. cbv iota. page_simpl. reflexivity.
Qed.

(** X17. Retrying a failed question asked from the transcribed text asks
    nothing.  When [solveFromText] has issued a request and the request
    fails, the retry button is shown and the retry action is
    [solveFromText] again; but showing the error has emptied the text
    area, so [retryLastRequest] finds a blank question and returns without
    a request and without changing anything. *)
Theorem retry_of_text_question_asks_nothing
  (renderMarkdown : string -> string) (a : App.t) (service : GeminiService.t)
  (thrown : Thrown) :
  App.gemini a = Some service ->
  truthy (trim (UIManager.getTranscribedText (App.page a))) = true ->
  let a' := App.completed renderMarkdown (App.solveFromText renderMarkdown)
              (Rejected thrown) a in
  App.lastFailedRequest a' = Some RetrySolveFromText /\
  Page.classList_contains El.retryBtn Cls.hidden (App.page a') = false /\
  App.retryLastRequest renderMarkdown a' = (a', None).
Proof.
  intros Hg Ht. cbv zeta. unfold App.completed.
  rewrite (solveFromText_asks renderMarkdown a service Hg Ht).
  rewrite rejected_page. cbn [App.retryAction].
  split; [reflexivity|]. split.
  - cbn [App.page App.set_page].
    unfold UIManager.showLoader, UIManager.displayErrorWithRetry,
      UIManager.displayAnswer. cbv zeta. cbv iota. page_simpl. reflexivity.
  - unfold App.retryLastRequest.
    cbn [App.lastFailedRequest App.set_page App.set_lastFailedRequest].
    unfold App.solveFromText. cbn [App.page App.set_page].
    rewrite failed_page_text. reflexivity.
Qed.

Lemma retry_of_text_question_asks_nothing_witness :
  App.gemini demoAppWithService = Some (GeminiService.mk "secret") /\
  truthy (trim (UIManager.getTranscribedText (App.page demoAppWithService))) = true /\
  snd (App.retryLastRequest plainText
         (App.completed plainText (App.solveFromText plainText)
            (Rejected (ErrorObject "fetch failed")) demoAppWithService)) = None.
Proof.
  assert (Hg : App.gemini demoAppWithService = Some (GeminiService.mk "secret"))
    by reflexivity.
  assert (Ht : truthy (trim (UIManager.getTranscribedText
                               (App.page demoAppWithService))) = true)
    by (vm_compute; reflexivity).
  split; [exact Hg|]. split; [exact Ht|].
  pose proof (retry_of_text_question_asks_nothing plainText demoAppWithService _
                (ErrorObject "fetch failed") Hg Ht) as Hthm.
  cbv zeta in Hthm. destruct Hthm as (_ & _ & Hretry). rewrite Hretry. reflexivity.
Defined.

(** X18. Retrying a failed request about the image repeats it: after a
    failed [solveFromImage] (or [transcribeImage]), [retryLastRequest]
    issues the same call, on the same canvas and with the same model, with
    the same continuation and the same retry action. *)
Theorem retry_of_image_request_asks_again
  (renderMarkdown : string -> string) (a : App.t) (service : GeminiService.t)
  (thrown : Thrown) :
  App.gemini a = Some service ->
  let failedAnswer := App.completed renderMarkdown (App.solveFromImage renderMarkdown)
                        (Rejected thrown) a in
  let failedTranscription :=
    App.completed renderMarkdown (App.transcribeImage renderMarkdown)
      (Rejected thrown) a in
  snd (App.retryLastRequest renderMarkdown failedAnswer)
  = Some (App.mkPending
            (GetAnswerFromImage (canvasEl (App.cropper a)) (App.selectedModel a))
            ShowAnswer RetrySolveFromImage) /\
  snd (App.retryLastRequest renderMarkdown failedTranscription)
  = Some (App.mkPending (TranscribeImage (canvasEl (App.cropper a)))
            ShowTranscription RetryTranscribeImage).
Proof.
  intros Hg. cbv zeta. unfold App.completed, App.solveFromImage, App.transcribeImage.
  rewrite !(handleGeminiRequest_with_service _ _ _ _ _ _ Hg).
  rewrite !rejected_page. cbn [App.retryAction]. unfold App.retryLastRequest.
  cbn [App.lastFailedRequest App.set_page App.set_lastFailedRequest].
  unfold App.solveFromImage, App.transcribeImage.
  split.
  - rewrite handleGeminiRequest_with_service with (service := service) by exact Hg.
    reflexivity.
  - rewrite handleGeminiRequest_with_service with (service := service) by exact Hg.
    reflexivity.
Qed.

Lemma retry_of_image_request_asks_again_witness :
  App.gemini demoAppWithService = Some (GeminiService.mk "secret") /\
  snd (App.retryLastRequest plainText
         (App.completed plainText (App.solveFromImage plainText)
            (Rejected OtherValue) demoAppWithService))
  = Some (App.mkPending
            (GetAnswerFromImage (canvasEl (App.cropper demoAppWithService))
               (App.selectedModel demoAppWithService))
            ShowAnswer RetrySolveFromImage).
Proof.
  assert (Hg : App.gemini demoAppWithService = Some (GeminiService.mk "secret"))
    by reflexivity.
  split; [exact Hg|].
  pose proof (retry_of_image_request_asks_again plainText demoAppWithService _
                OtherValue Hg) as Hthm.
  cbv zeta in Hthm. destruct Hthm as (Hretry & _). exact Hretry.
Defined.

(** X19. After an answer to a question about the image has arrived, the
    answer is shown, rendered and not as an error; the loader, both groups
    of action buttons, the model selector and the retry button are hidden;
    and no failed request is remembered.  The buttons hidden when the
    request began are not shown again. *)
Theorem answer_leaves_no_action
  (renderMarkdown : string -> string) (a : App.t) (service : GeminiService.t)
  (text : string) :
  App.gemini a = Some service ->
  let a' := App.completed renderMarkdown (App.solveFromImage renderMarkdown)
              (Resolved text) a in
  let hidden el := Page.classList_contains el Cls.hidden (App.page a') in
  Page.get_prop El.answerContainer Prp.innerHTML (App.page a') = renderMarkdown text /\
  hidden El.answerSection = false /\
  Page.classList_contains El.answerSection Cls.is_error (App.page a') = false /\
  hidden El.loader = true /\
  hidden El.initialActionButtons = true /\
  hidden El.transcribedActionButtons = true /\
  hidden El.modelSelector = true /\
  hidden El.retryBtn = true /\
  App.lastFailedRequest a' = None.
Proof.
  intros Hg. cbv zeta. unfold App.completed, App.solveFromImage.
  rewrite (handleGeminiRequest_with_service _ _ _ _ _ _ Hg).
  unfold App.handleGeminiRequest_resumed.
  cbn [App.onResult App.page App.set_page App.set_lastFailedRequest
       App.lastFailedRequest].
  unfold busyPage, UIManager.showLoader, UIManager.displayAnswer,
    UIManager.hideRetryButton, UIManager.hideActionButtons. cbv zeta. cbv iota.
  cbn [negb].
  split; [page_simpl; reflexivity|]. split; [page_simpl; reflexivity|].
  split; [page_simpl; reflexivity|]. split; [page_simpl; reflexivity|].
  split; [page_simpl; reflexivity|]. split; [page_simpl; reflexivity|].
  split; [page_simpl; reflexivity|]. split; [page_simpl; reflexivity|].
  reflexivity.
Qed.

Lemma answer_leaves_no_action_witness :
  App.gemini demoAppWithService = Some (GeminiService.mk "secret") /\
  Page.classList_contains El.initialActionButtons Cls.hidden
    (App.page (App.completed plainText (App.solveFromImage plainText)
                 (Resolved "4") demoAppWithService)) = true.
Proof.
  assert (Hg : App.gemini demoAppWithService = Some (GeminiService.mk "secret"))
    by reflexivity.
  split; [exact Hg|].
  pose proof (answer_leaves_no_action plainText demoAppWithService _ "4" Hg) as Hthm.
  cbv zeta in Hthm. destruct Hthm as (_ & _ & _ & _ & Hbuttons & _). exact Hbuttons.
Defined.

(** X20. After a transcription has arrived, the text area holds the text
    received, the transcription and its action buttons and the model
    selector are shown, the first group of action buttons stays hidden;
    and, the text not being blank, [solveFromText] then asks exactly that
    text, with the selected model. *)
Theorem transcription_is_what_is_asked
  (renderMarkdown : string -> string) (a : App.t) (service : GeminiService.t)
  (text : string) :
  App.gemini a = Some service ->
  truthy (trim text) = true ->
  let a' := App.completed renderMarkdown (App.transcribeImage renderMarkdown)
              (Resolved text) a in
  let hidden el := Page.classList_contains el Cls.hidden (App.page a') in
  UIManager.getTranscribedText (App.page a') = text /\
  hidden El.transcriptionContainer = false /\
  hidden El.transcribedActionButtons = false /\
  hidden El.modelSelector = false /\
  hidden El.initialActionButtons = true /\
  hidden El.loader = true /\
  snd (App.solveFromText renderMarkdown a')
  = Some (App.mkPending (GetAnswerFromText text (App.selectedModel a))
            ShowAnswer RetrySolveFromText).
Proof.
  intros Hg Ht. cbv zeta. unfold App.completed, App.transcribeImage.
  rewrite (handleGeminiRequest_with_service _ _ _ _ _ _ Hg).
  unfold App.handleGeminiRequest_resumed.
  cbn [App.onResult App.page App.set_page App.set_lastFailedRequest
       App.lastFailedRequest].
  assert (Etext : UIManager.getTranscribedText
            (UIManager.showLoader false
               (UIManager.displayTranscriptionResult text (busyPage (App.page a))))
          = text).
  { unfold UIManager.getTranscribedText, busyPage, UIManager.showLoader,
      UIManager.displayTranscriptionResult, UIManager.hideRetryButton,
      UIManager.hideActionButtons. cbv zeta. page_simpl. reflexivity. }
  split; [exact Etext|].
  split; [|split; [|split; [|split; [|split]]]].
  6:{ rewrite solveFromText_asks with (service := service).
      - cbn [snd App.page App.set_page App.selectedModel App.set_lastFailedRequest].
        rewrite Etext. reflexivity.
      - exact Hg.
      - cbn [App.page App.set_page]. rewrite Etext. exact Ht. }
  all: unfold busyPage, UIManager.showLoader,
      UIManager.displayTranscriptionResult, UIManager.hideRetryButton,
      UIManager.hideActionButtons; cbv zeta; cbn [negb]; page_simpl; reflexivity.
Qed.

Lemma transcription_is_what_is_asked_witness :
  App.gemini demoAppWithService = Some (GeminiService.mk "secret") /\
  truthy (trim "What is 3 x 4?") = true /\
  snd (App.solveFromText plainText
         (App.completed plainText (App.transcribeImage plainText)
            (Resolved "What is 3 x 4?") demoAppWithService))
  = Some (App.mkPending
            (GetAnswerFromText "What is 3 x 4?" (App.selectedModel demoAppWithService))
            ShowAnswer RetrySolveFromText).
Proof.
  assert (Hg : App.gemini demoAppWithService = Some (GeminiService.mk "secret"))
    by reflexivity.
  assert (Ht : truthy (trim "What is 3 x 4?") = true) by (vm_compute; reflexivity).
  split; [exact Hg|]. split; [exact Ht|].
  pose proof (transcription_is_what_is_asked plainText demoAppWithService _
                "What is 3 x 4?" Hg Ht) as Hthm.
  cbv zeta in Hthm. destruct Hthm as (_ & _ & _ & _ & _ & _ & Hasked). exact Hasked.
Defined.

(** X21. After a request about the image has failed, the result view
    shows the message chosen by the classification of the error, as an
    error, wrapped in a paragraph; the retry and start-over buttons are
    shown; the loader, both groups of action buttons and the model selector
    are hidden; the preview of the photograph is hidden and has lost its
    source; and the retry action is remembered. *)
Theorem failed_request_screen
  (renderMarkdown : string -> string) (a : App.t) (service : GeminiService.t)
  (thrown : Thrown) :
  App.gemini a = Some service ->
  let a' := App.completed renderMarkdown (App.solveFromImage renderMarkdown)
              (Rejected thrown) a in
  let hidden el := Page.classList_contains el Cls.hidden (App.page a') in
  Page.get_prop El.answerContainer Prp.innerHTML (App.page a')
  = ("<p>" ++ errorMessageFor thrown ++ "</p>")%string /\
  Page.classList_contains El.answerSection Cls.is_error (App.page a') = true /\
  hidden El.answerSection = false /\
  hidden El.retryBtn = false /\
  hidden El.startOverBtn = false /\
  hidden El.resultView = false /\
  hidden El.loader = true /\
  hidden El.resultImagePreview = true /\
  Page.get_prop El.resultImagePreview Prp.src (App.page a') = ""%string /\
  hidden El.initialActionButtons = true /\
  hidden El.transcribedActionButtons = true /\
  hidden El.modelSelector = true /\
  App.lastFailedRequest a' = Some RetrySolveFromImage.
Proof.
  intros Hg. cbv zeta. unfold App.completed, App.solveFromImage.
  rewrite (handleGeminiRequest_with_service _ _ _ _ _ _ Hg).
  rewrite rejected_page. cbn [App.retryAction App.page App.set_page
                              App.lastFailedRequest App.set_lastFailedRequest].
  unfold UIManager.showLoader, UIManager.displayErrorWithRetry,
    UIManager.displayAnswer, UIManager.resetResultView, UIManager.showView,
    UIManager.showLoader, UIManager.viewElement.
  cbv zeta. cbv iota. cbn [negb].
  repeat (split; [page_simpl; reflexivity|]). reflexivity.
Qed.

Lemma failed_request_screen_witness :
  App.gemini demoAppWithService = Some (GeminiService.mk "secret") /\
  Page.get_prop El.answerContainer Prp.innerHTML
    (App.page (App.completed plainText (App.solveFromImage plainText)
                 (Rejected (ErrorObject "quota used up")) demoAppWithService))
  = ("<p>" ++ errorMessageFor (ErrorObject "quota used up") ++ "</p>")%string.
Proof.
  assert (Hg : App.gemini demoAppWithService = Some (GeminiService.mk "secret"))
    by reflexivity.
  split; [exact Hg|].
  pose proof (failed_request_screen plainText demoAppWithService _
                (ErrorObject "quota used up") Hg) as Hthm.
  cbv zeta in Hthm. destruct Hthm as (Hmessage & _). exact Hmessage.
Defined.

(** ** Views *)

(** X22. [showView] shows one view: on a page whose three views carry the
    class [view], after [showView(viewId)] a view is hidden exactly when it
    is not the one asked for. *)
Theorem showView_shows_one_view (viewId other : ViewId) (p : Page.t) :
  (forall v, Page.classList_contains (UIManager.viewElement v) Cls.view p = true) ->
  Page.classList_contains (UIManager.viewElement other) Cls.hidden
    (UIManager.showView viewId p) = true
  <-> other <> viewId.
Proof.
  intros Hviews. unfold UIManager.showView. cbv zeta.
  destruct viewId, other; cbn [UIManager.viewElement];
    rewrite ?contains_remove_eq, ?contains_remove_ne by discriminate;
    rewrite ?contains_hide_all_views;
    try (split; [discriminate | intros H; now contradiction H]).
  all: split; [intros _; discriminate|intros _].
  all: apply orb_true_iff; right; apply andb_true_iff; split; [reflexivity|].
  - apply (Hviews preview_view).
  - apply (Hviews result_view).
  - apply (Hviews camera_view).
  - apply (Hviews result_view).
  - apply (Hviews camera_view).
  - apply (Hviews preview_view).
Qed.

Lemma showView_shows_one_view_witness :
  (forall v, Page.classList_contains (UIManager.viewElement v) Cls.view demoPage = true) /\
  (Page.classList_contains (UIManager.viewElement camera_view) Cls.hidden
     (UIManager.showView preview_view demoPage) = true
   <-> camera_view <> preview_view).
Proof.
  assert (Hviews : forall v,
            Page.classList_contains (UIManager.viewElement v) Cls.view demoPage = true)
    by (intros []; vm_compute; reflexivity).
  split; [exact Hviews|].
  exact (showView_shows_one_view preview_view camera_view demoPage Hviews).
Defined.

(** ** The flash *)

(** X23. A torch change that is refused leaves the flag flipped.  With a
    torch and the button showing the flag, [toggleFlash] flips
    [isFlashOn] before it waits; when the constraints are applied the
    button is made to show the new flag; when they are refused the button
    is not touched, so it shows the opposite of the flag from then on. *)
Theorem toggleFlash_refused_leaves_flag_flipped
  (cam : CameraManager.t) (p : Page.t) :
  CameraManager.hasTorch cam = true ->
  Page.classList_contains El.flashBtn Cls.on p = CameraManager.isFlashOn cam ->
  let cam' := fst (CameraManager.toggleFlash cam) in
  snd (CameraManager.toggleFlash cam) = true /\
  CameraManager.isFlashOn cam' = negb (CameraManager.isFlashOn cam) /\
  Page.classList_contains El.flashBtn Cls.on
    (CameraManager.toggleFlash_resumed true cam' p) = CameraManager.isFlashOn cam' /\
  Page.classList_contains El.flashBtn Cls.on
    (CameraManager.toggleFlash_resumed false cam' p)
  = negb (CameraManager.isFlashOn cam').
Proof.
  intros Ht Hagree. cbv zeta. unfold CameraManager.toggleFlash. rewrite Ht.
  cbn [negb fst snd CameraManager.isFlashOn].
  unfold CameraManager.toggleFlash_resumed. cbn [CameraManager.isFlashOn].
  split; [reflexivity|]. split; [reflexivity|].
  split; [apply contains_toggle_eq|].
  rewrite Hagree. now destruct (CameraManager.isFlashOn cam).
Qed.

Lemma toggleFlash_refused_leaves_flag_flipped_witness :
  CameraManager.hasTorch demoCamera = true /\
  Page.classList_contains El.flashBtn Cls.on demoPage
  = CameraManager.isFlashOn demoCamera /\
  Page.classList_contains El.flashBtn Cls.on
    (CameraManager.toggleFlash_resumed false
       (fst (CameraManager.toggleFlash demoCamera)) demoPage)
  = negb (CameraManager.isFlashOn (fst (CameraManager.toggleFlash demoCamera))).
Proof.
  assert (Ht : CameraManager.hasTorch demoCamera = true) by (vm_compute; reflexivity).
  assert (Ha : Page.classList_contains El.flashBtn Cls.on demoPage
               = CameraManager.isFlashOn demoCamera) by (vm_compute; reflexivity).
  split; [exact Ht|]. split; [exact Ha|].
  pose proof (toggleFlash_refused_leaves_flag_flipped demoCamera demoPage Ht Ha)
    as Hthm.
  cbv zeta in Hthm. destruct Hthm as (_ & _ & _ & Hoff). exact Hoff.
Defined.

(** ** Rotating the photograph *)

(** X24. Rotating swaps the sides of the photograph and clears the region
    without switching the editor off: for a canvas with sides below 2^32,
    after [rotatePreviewImage] the width is the former height and the
    height the former width, the editor is in its cleared state, the
    container listens for a drawing exactly if it did before, and the page
    is untouched. *)
Theorem rotatePreviewImage_swaps_sides
  (resample : Canvas.t -> Q -> Q -> Q -> Q -> Q -> Q -> Q -> Q -> Canvas.t
              -> Z -> Z -> Pixel)
  (rotated : Canvas.t -> Z -> Z -> Pixel) (a : App.t) :
  (0 <= Canvas.width (canvasEl (App.cropper a)) < 2 ^ 32)%Z ->
  (0 <= Canvas.height (canvasEl (App.cropper a)) < 2 ^ 32)%Z ->
  let a' := App.rotatePreviewImage resample rotated a in
  Canvas.width (canvasEl (App.cropper a')) = Canvas.height (canvasEl (App.cropper a)) /\
  Canvas.height (canvasEl (App.cropper a')) = Canvas.width (canvasEl (App.cropper a)) /\
  isCleared (App.cropper a') /\
  ((Container, pointerdown, DrawStart) ∈ listeners (App.cropper a')
   <-> (Container, pointerdown, DrawStart) ∈ listeners (App.cropper a)) /\
  App.page a' = App.page a.
Proof.
  intros Hw Hh. cbv zeta. unfold App.rotatePreviewImage. cbv zeta.
  cbn [App.cropper App.set_cropper App.page].
  change (canvasEl (clear (set_canvasEl ?c ?s))) with c.
  cbn [Canvas.width Canvas.height].
  unfold drawImage3. rewrite !drawImage_width, !drawImage_height.
  unfold Canvas.set_width, Canvas.set_height, Canvas.create.
  cbn [Canvas.width Canvas.height].
  rewrite !toUnsignedLong_inject_Z.
  rewrite (Z.mod_small (Canvas.width _)) by exact Hw.
  rewrite (Z.mod_small (Canvas.height _)) by exact Hh.
  rewrite (Z.mod_small (Canvas.width _)) by exact Hw.
  rewrite (Z.mod_small (Canvas.height _)) by exact Hh.
  split; [reflexivity|]. split; [reflexivity|].
  split; [|split; [|reflexivity]].
  - unfold isCleared, clear, removeEventListener.
    cbn [listeners set_listeners set_cropBoxEl set_activeHandle set_isManipulating
         set_isDrawing set_isCropDefined set_canvasEl isCropDefined isDrawing
         isManipulating activeHandle cropBoxEl CropBoxEl.hidden CropBoxEl.set_hidden].
    split; [reflexivity|]. split; [reflexivity|]. split; [reflexivity|].
    split; [reflexivity|]. split; [reflexivity|]. set_solver.
  - unfold clear, removeEventListener.
    cbn [listeners set_listeners set_cropBoxEl set_activeHandle set_isManipulating
         set_isDrawing set_isCropDefined set_canvasEl].
    rewrite elem_of_difference, elem_of_singleton.
    split; [intros [H _]; exact H | intros H; split; [exact H | discriminate]].
Qed.

Lemma rotatePreviewImage_swaps_sides_witness :
  (0 <= Canvas.width (canvasEl (App.cropper demoAppWithLargePhoto)) < 2 ^ 32)%Z /\
  (0 <= Canvas.height (canvasEl (App.cropper demoAppWithLargePhoto)) < 2 ^ 32)%Z /\
  Canvas.width (canvasEl (App.cropper
     (App.rotatePreviewImage noResample noRotation demoAppWithLargePhoto)))
  = Canvas.height (canvasEl (App.cropper demoAppWithLargePhoto)).
Proof.
  assert (Hw : (0 <= Canvas.width (canvasEl (App.cropper demoAppWithLargePhoto))
                < 2 ^ 32)%Z) by (vm_compute; split; [discriminate | reflexivity]).
  assert (Hh : (0 <= Canvas.height (canvasEl (App.cropper demoAppWithLargePhoto))
                < 2 ^ 32)%Z) by (vm_compute; split; [discriminate | reflexivity]).
  split; [exact Hw|]. split; [exact Hh|].
  pose proof (rotatePreviewImage_swaps_sides noResample noRotation
                demoAppWithLargePhoto Hw Hh) as Hthm.
  cbv zeta in Hthm. destruct Hthm as (Hswap & _). exact Hswap.
Defined.

(** ** Starting the camera *)

Lemma start_resumed_page renderMarkdown outcome a :
  App.page (App.start_resumed renderMarkdown outcome a)
  = match outcome with
    | CameraStarted _ torch =>
        UIManager.showView camera_view
          (Page.classList_remove El.flashBtn Cls.on
             (Page.set_disabled El.flashBtn (negb torch) (App.page a)))
    | _ =>
        UIManager.displayError renderMarkdown
          "Could not access camera. Please enable permissions and try again."
          (App.page a)
    end.
Proof. destruct outcome; reflexivity. Qed.

Lemma contains_set_disabled el c el' b p :
  Page.classList_contains el c (Page.set_disabled el' b p)
  = Page.classList_contains el c p.
Proof. reflexivity. Qed.

(** X25. [start] with a service, from the call to its end: the editor is
    switched off and the loader hidden in every case.  When the camera
    starts, the camera view is shown, the camera holds the new stream, the
    flash flag is off, the flash button does not show [on] and is disabled
    exactly when the track has no torch.  When the camera or the playback
    is refused, the result view shows the camera message as an error, with
    the start-over button. *)
Theorem start_shows_camera_or_error
  (renderMarkdown : string -> string) (API_KEY : option string) (a : App.t)
  (service : GeminiService.t) (outcome : CameraOutcome) :
  App.gemini a = Some service ->
  let a' := App.start_completed renderMarkdown API_KEY outcome a in
  let hidden el := Page.classList_contains el Cls.hidden (App.page a') in
  editorOff (App.cropper a') /\
  hidden El.loader = true /\
  match outcome with
  | CameraStarted stream torch =>
      hidden El.cameraView = false /\
      CameraManager.stream (App.camera a') = Some stream /\
      CameraManager.hasTorch (App.camera a') = torch /\
      CameraManager.isFlashOn (App.camera a') = false /\
      Page.classList_contains El.flashBtn Cls.on (App.page a') = false /\
      (El.flashBtn ∈ Page.disabled (App.page a') <-> torch = false)
  | CameraRefused | PlayRefused _ _ =>
      Page.get_prop El.answerContainer Prp.innerHTML (App.page a')
      = "<p>Could not access camera. Please enable permissions and try again.</p>"%string /\
      Page.classList_contains El.answerSection Cls.is_error (App.page a') = true /\
      hidden El.answerSection = false /\
      hidden El.resultView = false /\
      hidden El.startOverBtn = false
  end.
Proof.
  intros Hg. cbv zeta. unfold App.start_completed.
  rewrite (start_with_service API_KEY a service Hg).
  split.
  { destruct outcome; apply deactivate_off. }
  rewrite start_resumed_page. cbn [App.page App.set_camera App.set_cropper App.set_page].
  split.
  { destruct outcome;
      unfold UIManager.displayError, UIManager.displayAnswer, UIManager.showView,
        UIManager.resetResultView, UIManager.showLoader, UIManager.viewElement;
      cbv zeta; cbv iota; cbn [negb];
      repeat first [page_step | rewrite contains_set_disabled]; reflexivity. }
  destruct outcome as [| stream torch | stream torch].
  - unfold UIManager.displayError, UIManager.displayAnswer, UIManager.showView,
      UIManager.resetResultView, UIManager.showLoader, UIManager.viewElement.
    cbv zeta. cbv iota. cbn [negb].
    repeat (split; [page_simpl; reflexivity|]). page_simpl. reflexivity.
  - unfold UIManager.displayError, UIManager.displayAnswer, UIManager.showView,
      UIManager.resetResultView, UIManager.showLoader, UIManager.viewElement.
    cbv zeta. cbv iota. cbn [negb].
    repeat (split; [page_simpl; reflexivity|]). page_simpl. reflexivity.
  - split.
    { unfold UIManager.showView, UIManager.viewElement. cbv zeta. cbv iota.
      page_simpl. reflexivity. }
    unfold App.start_resumed, CameraManager.start_resumed.
    cbn [App.camera App.set_camera App.set_cropper App.set_page App.page].
    cbn [CameraManager.stream CameraManager.isFlashOn].
    split; [reflexivity|].
    split.
    { unfold CameraManager.hasTorch. cbn [CameraManager.videoTrack CameraManager.media].
      rewrite lookup_insert_eq. reflexivity. }
    split; [reflexivity|].
    split.
    { unfold UIManager.showView, UIManager.viewElement. cbv zeta. cbv iota.
      rewrite contains_remove_ne by discriminate.
      rewrite contains_hide_all_views. cbn [andb orb].
      replace (bool_decide (Cls.on = Cls.hidden)) with false by reflexivity.
      cbn [andb]. rewrite orb_false_r. apply contains_remove_eq. }
    unfold UIManager.showView, UIManager.viewElement, Page.hide_all_views,
      Page.classList_remove, Page.set_disabled. cbv zeta.
    cbn [Page.disabled].
    destruct torch; cbn [negb]; split; intros H; try discriminate; try reflexivity.
    + apply elem_of_difference in H as [_ H]. contradiction H.
      now apply elem_of_singleton.
    + apply elem_of_union_r, elem_of_singleton. reflexivity.
Qed.

Lemma start_shows_camera_or_error_witness :
  App.gemini demoAppWithService = Some (GeminiService.mk "secret") /\
  Page.classList_contains El.cameraView Cls.hidden
    (App.page (App.start_completed plainText None (CameraStarted 1%nat true)
                 demoAppWithService)) = false.
Proof.
  assert (Hg : App.gemini demoAppWithService = Some (GeminiService.mk "secret"))
    by reflexivity.
  split; [exact Hg|].
  pose proof (start_shows_camera_or_error plainText None demoAppWithService _
                (CameraStarted 1%nat true) Hg) as Hthm.
  cbv zeta in Hthm. destruct Hthm as (_ & _ & Hshown & _). exact Hshown.
Defined.

(** ** The dialog and the Escape key *)

(** X26. The dialog that [start] opens for want of a key cannot be
    dismissed from the keyboard: with no service, no non-empty stored key
    and no key of the build, [start] opens the dialog and does not start
    the camera, and after it no key press, Escape included, changes
    anything. *)
Theorem dialog_for_want_of_key_stays_open
  (API_KEY : option string) (a : App.t) (key : string) :
  App.gemini a = None ->
  GeminiService.hasStoredApiKey (App.localStorage a) = false ->
  truthyString API_KEY = false ->
  let a' := fst (App.start API_KEY a) in
  Page.get_prop El.apiKeyModal Prp.open (App.page a') = "true"%string /\
  snd (App.start API_KEY a) = false /\
  App.onKeydown API_KEY key a' = a'.
Proof.
  intros Hg Hs He. cbv zeta.
  rewrite (start_finds_the_key API_KEY a Hg). cbv zeta.
  rewrite hasStoredApiKey_stored in Hs. rewrite Hs, He.
  cbn [fst snd App.page App.set_page].
  split; [apply get_prop_set_prop_eq|]. split; [reflexivity|].
  unfold App.onKeydown. cbn [App.localStorage App.set_page].
  rewrite hasStoredApiKey_stored, Hs, He. cbn [orb].
  destruct (_ && _); reflexivity.
Qed.

Lemma dialog_for_want_of_key_stays_open_witness :
  App.gemini demoApp = None /\
  GeminiService.hasStoredApiKey (App.localStorage demoApp) = false /\
  truthyString None = false /\
  App.onKeydown None "Escape" (fst (App.start None demoApp)) = fst (App.start None demoApp).
Proof.
  assert (Hs : GeminiService.hasStoredApiKey (App.localStorage demoApp) = false)
    by (vm_compute; reflexivity).
  split; [reflexivity|]. split; [exact Hs|]. split; [reflexivity|].
  pose proof (dialog_for_want_of_key_stays_open None demoApp "Escape" eq_refl Hs eq_refl)
    as Hthm.
  cbv zeta in Hthm. destruct Hthm as (_ & _ & Hstays). exact Hstays.
Defined.

(** ** Choosing the model *)

(** X27. The model selected is the model asked: after [selectModel] the
    button of that model and only it carries [active], [aria-checked] says
    the same on both buttons, a question about the image is asked of the
    selected model, and a transcription request is what it would have been
    without the selection. *)
Theorem selectModel_is_the_model_asked
  (renderMarkdown : string -> string) (a : App.t) (service : GeminiService.t)
  (model : Model) :
  App.gemini a = Some service ->
  let a' := App.selectModel model a in
  let isFlash := match model with gemini_2_5_flash => true | gemini_2_5_pro => false end in
  Page.classList_contains El.modelFlashBtn Cls.active (App.page a') = isFlash /\
  Page.classList_contains El.modelProBtn Cls.active (App.page a') = negb isFlash /\
  Page.get_prop El.modelFlashBtn Prp.aria_checked (App.page a')
  = UIManager.String_of_bool isFlash /\
  Page.get_prop El.modelProBtn Prp.aria_checked (App.page a')
  = UIManager.String_of_bool (negb isFlash) /\
  snd (App.solveFromImage renderMarkdown a')
  = Some (App.mkPending (GetAnswerFromImage (canvasEl (App.cropper a)) model)
            ShowAnswer RetrySolveFromImage) /\
  snd (App.transcribeImage renderMarkdown a')
  = snd (App.transcribeImage renderMarkdown a).
Proof.
  intros Hg. cbv zeta. unfold App.selectModel. cbv zeta.
  cbn [App.page App.set_page App.set_selectedModel].
  unfold UIManager.updateModelSelection. cbv zeta.
  split; [page_simpl; reflexivity|]. split; [page_simpl; reflexivity|].
  split; [page_simpl; reflexivity|]. split; [page_simpl; reflexivity|].
  unfold App.solveFromImage, App.transcribeImage.
  rewrite !handleGeminiRequest_with_service with (service := service)
    by exact Hg.
  split; reflexivity.
Qed.

Lemma selectModel_is_the_model_asked_witness :
  App.gemini demoAppWithService = Some (GeminiService.mk "secret") /\
  snd (App.solveFromImage plainText (App.selectModel gemini_2_5_pro demoAppWithService))
  = Some (App.mkPending
            (GetAnswerFromImage (canvasEl (App.cropper demoAppWithService))
               gemini_2_5_pro)
            ShowAnswer RetrySolveFromImage).
Proof.
  assert (Hg : App.gemini demoAppWithService = Some (GeminiService.mk "secret"))
    by reflexivity.
  split; [exact Hg|].
  pose proof (selectModel_is_the_model_asked plainText demoAppWithService _
                gemini_2_5_pro Hg) as Hthm.
  cbv zeta in Hthm. destruct Hthm as (_ & _ & _ & _ & Hasked & _). exact Hasked.
Defined.
